(** * F1 race analyzer: incident detection and telemetry correlation

    A shallow embedding of [race_analyzer.py] (class [F1RaceAnalyzer]) and the
    properties of its scanners: the incident extractor, the telemetry
    correlator, the position-change, track-limits and pit-strategy scanners,
    and the segment ranker.

    Conventions of the embedding:
    - a pandas data frame is the list of its rows, in row order; a cell that
      may be NaN is an [option], [None] standing for NaN;
    - a Python float is the rational [Q] that the binary64 value stands for
      (a NaN where one can arise is [None], and an infinite float is not
      represented); the float arithmetic of the
      analyzer is subtraction and comparison only: a comparison of two floats
      is the comparison of their values, and a subtraction is the exact
      difference rounded to the nearest binary64 value ([fsub]);
    - text is a [string]: its characters are the code points 0..255, on which
      Python's [re.IGNORECASE] and [\d] agree with the ASCII notions;
    - a dict whose keys are written once in a fixed order is an association
      list in insertion order; the key [f'lap_{n}'] is the lap number [n];
    - the two external collaborators (pandas' duration parser on the text of
      a cell and the fastf1 car-channel client) are variables of the section;
      a NaN cell is no text: [pd.to_timedelta] answers [NaT] for it, whose
      [total_seconds()] is NaN. *)

From Stdlib Require Import ZArith QArith Qabs List String Ascii Bool Lia Floats.
From Stdlib Require Import DecimalString Sorting.Sorted Sorting.Permutation.
Import ListNotations.

Local Open Scope string_scope.
Local Open Scope Z_scope.

(** ** Python text operations *)

Module PyStr.

(** [c.upper()] on the ASCII letters; every other code point is kept. *)
Definition upper_char (c : ascii) : ascii :=
  let n := nat_of_ascii c in
  if ((97 <=? n) && (n <=? 122))%nat then ascii_of_nat (n - 32) else c.

Fixpoint upper (s : string) : string :=
  match s with
  | EmptyString => EmptyString
  | String c s' => String (upper_char c) (upper s')
  end.

(** [hay.startswith(needle)] *)
Fixpoint starts_with (needle hay : string) : bool :=
  match needle, hay with
  | EmptyString, _ => true
  | String a n', String b h' => Ascii.eqb a b && starts_with n' h'
  | String _ _, EmptyString => false
  end.

(** [needle in hay] *)
Fixpoint contains (needle hay : string) : bool :=
  starts_with needle hay ||
  match hay with
  | EmptyString => false
  | String _ h' => contains needle h'
  end.

(** A literal searched with [re.IGNORECASE]: the pattern holds no
    metacharacter, so the search is a substring test up to ASCII case. *)
Definition contains_ci (needle hay : string) : bool :=
  contains (upper needle) (upper hay).

(** [Series.str.contains('k1|k2|...', case=False, na=False)] on one cell. *)
Definition str_contains_any (keywords : list string) (cell : option string) : bool :=
  match cell with
  | Some text => existsb (fun kw => contains_ci kw text) keywords
  | None => false
  end.

Fixpoint drop (n : nat) (s : string) : string :=
  match n, s with
  | O, _ => s
  | S _, EmptyString => EmptyString
  | S k, String _ s' => drop k s'
  end.

Fixpoint take_while (cls : ascii -> bool) (s : string) : string :=
  match s with
  | EmptyString => EmptyString
  | String c s' => if cls c then String c (take_while cls s') else EmptyString
  end.

(** The class [\d]. *)
Definition is_digit (c : ascii) : bool :=
  let n := nat_of_ascii c in ((48 <=? n) && (n <=? 57))%nat.

(** The class [[0-9:\.]]. *)
Definition is_time_char (c : ascii) : bool :=
  is_digit c || Ascii.eqb c ":" || Ascii.eqb c ".".

(** The pattern [lit (cls+)] tried at the start of [s]: the captured group. *)
Definition match_at (lit : string) (cls : ascii -> bool) (s : string) : option string :=
  if starts_with lit s then
    match take_while cls (drop (length lit) s) with
    | EmptyString => None
    | run => Some run
    end
  else None.

(** [re.search(lit (cls+), s).group(1)]: the leftmost match. *)
Fixpoint re_search (lit : string) (cls : ascii -> bool) (s : string) : option string :=
  match match_at lit cls s with
  | Some g => Some g
  | None =>
      match s with
      | EmptyString => None
      | String _ s' => re_search lit cls s'
      end
  end.

(** [re.findall(lit (cls+), s)]: the groups of the non-overlapping matches,
    left to right; [skip] counts the characters of the last match still to
    be passed over. *)
Fixpoint findall_from (lit : string) (cls : ascii -> bool) (skip : nat) (s : string)
  : list string :=
  match s with
  | EmptyString => []
  | String _ s' =>
      match skip with
      | S k => findall_from lit cls k s'
      | O =>
          match match_at lit cls s with
          | Some g => g :: findall_from lit cls (length lit + length g - 1) s'
          | None => findall_from lit cls 0 s'
          end
      end
  end.

Definition re_findall (lit : string) (cls : ascii -> bool) (s : string) : list string :=
  findall_from lit cls 0 s.

(** [int(s)] for a capture of [\d+]. *)
Definition int_of_digits (s : string) : Z :=
  (fix go (acc : Z) (s : string) : Z :=
     match s with
     | EmptyString => acc
     | String c s' => go (10 * acc + (Z.of_nat (nat_of_ascii c) - 48)) s'
     end) 0 s.

(** [str(n)] and [f'{n:+d}'] for an int. *)
Definition str_of_int (n : Z) : string := NilZero.string_of_int (Z.to_int n).

Definition str_of_int_signed (n : Z) : string :=
  if n <? 0 then str_of_int n else "+" ++ str_of_int n.

(** [str(x)] for a cell that holds text or NaN. *)
Definition str_of_cell (x : option string) : string :=
  match x with
  | Some s => s
  | None => "nan"
  end.

(** [f'{x}'] for an int or [None]. *)
Definition str_of_opt_int (x : option Z) : string :=
  match x with
  | Some n => str_of_int n
  | None => "None"
  end.

End PyStr.
Import PyStr.

(** ** Python list operations *)

Module PyList.

Section Generic.
Context {A : Type}.

(** [Series.unique()]: the values in order of first appearance. *)
Fixpoint unique (eqb : A -> A -> bool) (l : list A) : list A :=
  match l with
  | [] => []
  | x :: xs => x :: filter (fun y => negb (eqb x y)) (unique eqb xs)
  end.

(** [max(xs)] and [min(xs)] of a list with head [x]: the first extreme
    element, found with the strict comparison [ltb]. *)
Definition py_max (ltb : A -> A -> bool) (x : A) (xs : list A) : A :=
  fold_left (fun m y => if ltb m y then y else m) xs x.

Definition py_min (ltb : A -> A -> bool) (x : A) (xs : list A) : A :=
  fold_left (fun m y => if ltb y m then y else m) xs x.

(** The pairs [(l[i-1], l[i])] for [i] in [range(1, len(l))]. *)
Fixpoint adjacent_pairs (l : list A) : list (A * A) :=
  match l with
  | x :: ((y :: _) as tl) => (x, y) :: adjacent_pairs tl
  | _ => []
  end.

(** A stable sort, ascending by an integer key: insertion from the right,
    an element going in front of the first one whose key is not smaller.
    [list.sort(key=...)] is stable, and a stable sort has one result. *)
Fixpoint insert_by (key : A -> Z) (x : A) (l : list A) : list A :=
  match l with
  | [] => [x]
  | y :: l' => if key x <=? key y then x :: l else y :: insert_by key x l'
  end.

Definition stable_sort (key : A -> Z) (l : list A) : list A :=
  fold_right (insert_by key) [] l.

(** [l.sort(key=key, reverse=reverse)]: with [reverse=True] the order of
    the keys is reversed and equal keys still keep their original order. *)
Definition py_sort (key : A -> Z) (reverse : bool) (l : list A) : list A :=
  stable_sort (fun x => if reverse then - key x else key x) l.
End Generic.

(** A dict as an association list in insertion order. *)
Section Dict.
Context {K V : Type} (eqb : K -> K -> bool).

(** [d.get(k)] *)
Fixpoint dict_get (k : K) (d : list (K * V)) : option V :=
  match d with
  | [] => None
  | (k', v) :: d' => if eqb k' k then Some v else dict_get k d'
  end.

(** [d[k] = v]: a present key keeps its place. *)
Fixpoint dict_set (k : K) (v : V) (d : list (K * V)) : list (K * V) :=
  match d with
  | [] => [(k, v)]
  | (k', v') :: d' => if eqb k' k then (k, v) :: d' else (k', v') :: dict_set k v d'
  end.

Definition dict_keys (d : list (K * V)) : list K := map fst d.
Definition dict_values (d : list (K * V)) : list V := map snd d.
End Dict.

End PyList.
Import PyList.

(** Strict comparison of floats and of strings. *)
Definition Qlt_bool (x y : Q) : bool := negb (Qle_bool y x).
Definition str_ltb (x y : string) : bool := String.ltb x y.

(** ** Python floats *)

(** [2 ^ e] for [e >= 0], and [1] below. *)
Definition pow2 (e : Z) : Z := 2 ^ Z.max 0 e.

(** [n / d] rounded to the nearest integer, a tie going to the even one, for
    [n >= 0] and [d > 0]. *)
Definition round_half_even (n d : Z) : Z :=
  let q := n / d in
  let r := n mod d in
  if 2 * r <? d then q
  else if d <? 2 * r then q + 1
  else if Z.even q then q else q + 1.

(** The binary exponent of [n / d], for [n > 0] and [d > 0]: the [k] with
    [2 ^ k <= n / d < 2 ^ (k + 1)]. *)
Definition floor_log2 (n d : Z) : Z :=
  let k := Z.log2 n - Z.log2 d in
  if d * pow2 k <=? n * pow2 (- k) then k else k - 1.

(** [n / d > 0] rounded to binary64: 53 bits of precision, the exponent of
    the last bit not below [-1074] (the subnormal range). *)
Definition round64_pos (n d : Z) : Q :=
  let e := Z.max (floor_log2 n d - 52) (-1074) in
  let m := round_half_even (n * pow2 (- e)) (d * pow2 e) in
  Qred (Qmake (m * pow2 e) (Z.to_pos (pow2 (- e)))).

(** The binary64 value nearest to a rational, ties to even: IEEE 754's
    rounding of a result, which is also how Python reads a decimal numeral.
    A value beyond the binary64 range, where Python has [inf], is outside
    the model: the speeds and times of a lap table are far below it. *)
Definition round64 (q : Q) : Q :=
  match Qnum q with
  | Z0 => 0%Q
  | Zpos n => round64_pos (Zpos n) (Zpos (Qden q))
  | Zneg n => Qopp (round64_pos (Zpos n) (Zpos (Qden q)))
  end.

(** [float(x)] of a number cell: its binary64 value. A cell given by a
    decimal numeral stands for the float Python reads from it. *)
Definition py_float (x : Q) : Q := round64 x.

(** [x - y] on floats: the exact difference of the two binary64 values,
    rounded. *)
Definition fsub (x y : Q) : Q := round64 (py_float x - py_float y).

(** The value of a binary64 float of the kernel, when it is finite: the
    reference against which [round64] and [fsub] are checked at the speeds of
    the samples. *)
Definition Q_of_float (f : float) : option Q :=
  match Prim2SF f with
  | S754_zero _ => Some 0%Q
  | S754_finite s m e =>
      Some (Qred (Qmake ((if s then Zneg m else Zpos m) * pow2 e) (Z.to_pos (pow2 (- e)))))
  | _ => None
  end.

(** ** The data model: the columns the analyzer reads *)

(** A row of [lap_data.csv]. *)
Record LapRecord := {
  Driver : string;
  LapNumber : Z;
  LapTime : option string;
  Position : option Z;
  Sector1Time : option string;
  Sector2Time : option string;
  Sector3Time : option string;
  SpeedI1 : option Q;
  SpeedI2 : option Q;
  SpeedFL : option Q;
  SpeedST : option Q;
  Compound : option string;
  TyreLife : option Z;
  IsPersonalBest : bool;
  TrackStatus : option Z;
  PitInTime : option string
}.

(** A row of [race_control_messages.csv]. *)
Record RaceControlMessage := {
  Time : string;
  Lap : option Z;
  Message : option string;
  Category : option string;
  Sector : option Z
}.

(** A row of [session_results.csv]. *)
Record ResultRow := {
  DriverNumber : Z;
  Abbreviation : string
}.

(** The analyzer object: each table is [None] until it is loaded. *)
Record F1RaceAnalyzer := {
  lap_data : option (list LapRecord);
  race_control : option (list RaceControlMessage);
  session_results : option (list ResultRow)
}.

(** The per-lap aggregates of the car channels ([telemetry_stats]). *)
Record CarTelemetry := {
  avg_rpm : option Q;
  max_rpm : option Q;
  avg_throttle : option Q;
  max_throttle : option Q;
  avg_brake : option Q;
  max_brake : option Q;
  avg_speed : option Q;
  max_speed_channel : option Q;
  gear_changes : option Z;
  drs_usage : option Q;
  brake_lock_events : option Z;
  throttle_application : option Q
}.

(** One entry of a per-lap telemetry map. The track status and the car
    channels are keys of the incident correlator's records only. *)
Record LapTelemetry := {
  lap_number : Z;
  lap_time : string;
  position : option Z;
  sector1_time : string;
  sector2_time : string;
  sector3_time : string;
  speed_i1 : option Q;
  speed_i2 : option Q;
  speed_fl : option Q;
  speed_st : option Q;
  compound : option string;
  tyre_life : option Z;
  is_personal_best : bool;
  track_status : option Z;
  car_channels : option CarTelemetry
}.

Inductive SpeedField := FSpeedI1 | FSpeedI2 | FSpeedFL | FSpeedST.
Inductive SectorField := FSector1Time | FSector2Time | FSector3Time.

(** The anomaly texts, each with the value its f-string formats. *)
Inductive Anomaly :=
| SignificantSpeedDrop (speed_drop : Q)
| PositionDrop (position_drop : Z)
| SpeedChange (speed_diff : Q)
| SignificantLapTimeChange (time_diff : Q)
| SignificantSpeedFieldChange (field : SpeedField) (speed_diff : Q)
| SignificantSectorChange (field : SectorField) (sector_diff : Q).

Record SpeedAnalysis := {
  max_speed : Q;
  min_speed : Q;
  speed_variance : Q;
  incident_lap_speed : option Q
}.

Record SectorTimes := {
  sector1 : string;
  sector2 : string;
  sector3 : string
}.

Record SectorAnalysis := {
  slowest_sectors : list (SectorField * string);
  incident_lap_sectors : option SectorTimes
}.

Record TireData := {
  td_compound : option string;
  td_tyre_life : option Z
}.

Record TireAnalysis := {
  compounds_used : list (option string);
  incident_lap_tire : option TireData;
  tire_age_at_incident : option Z
}.

Record PositionAnalysis := {
  position_range : string;
  position_change : Z;
  incident_lap_position : option Z
}.

(** The result of [_analyze_telemetry_patterns]; an empty dict is [None]. *)
Record TelemetryPatterns := {
  speed_analysis : option SpeedAnalysis;
  sector_analysis : option SectorAnalysis;
  tire_analysis : option TireAnalysis;
  position_analysis : option PositionAnalysis;
  anomalies : list Anomaly
}.

Record DriverTelemetry := {
  driver_number : string;
  dt_lap_data : list (Z * LapTelemetry);
  analysis : TelemetryPatterns
}.

Record Incident := {
  inc_lap : option Z;
  inc_time : string;
  inc_message : string;
  inc_category : option string;
  inc_drivers : list string;
  steward_action : string;
  telemetry_analysis : list (string * DriverTelemetry)
}.

Record TireChanges := {
  compound_change : option (option string * option string);
  tyre_life_change : option Z
}.

(** The result of [_compare_lap_telemetry]. [lap_time_change] is [None] while
    it holds the text 'N/A'; a delta that is present may be NaN. *)
Record TelemetryComparison := {
  lap_time_change : option (option Q);
  speed_changes : list (SpeedField * Q);
  sector_changes : list (SectorField * option Q);
  tire_changes : TireChanges;
  cmp_anomalies : list Anomaly
}.

Record PositionChange := {
  pc_driver : string;
  pc_lap : Z;
  from_position : Z;
  to_position : Z;
  change : Z;
  pc_lap_time : string;
  prev_lap_time : string;
  pc_compound : option string;
  pc_tyre_life : option Z;
  telemetry_comparison : TelemetryComparison
}.

Record PitStop := {
  ps_lap : Z;
  ps_compound : option string;
  ps_tyre_life : option Z;
  position_before : option Z;
  position_after : option Z;
  ps_position_change : option Z
}.

Record ViolationSpeedAnalysis := {
  v_max_speed : Q;
  v_min_speed : Q;
  violation_lap_speed : option Q
}.

Record ViolationAnalysis := {
  va_speed_analysis : option ViolationSpeedAnalysis;
  va_sector_analysis : option SectorTimes;
  va_anomalies : list Anomaly
}.

Record ViolationTelemetry := {
  vt_lap_data : list (Z * LapTelemetry);
  vt_analysis : ViolationAnalysis
}.

Record Violation := {
  v_lap : option Z;
  v_time : string;
  v_driver_number : option string;
  driver_abbreviation : option string;
  deleted_time : option string;
  turn : option string;
  v_message : string;
  v_telemetry_analysis : option ViolationTelemetry
}.

Record YellowFlag := {
  yf_lap : option Z;
  yf_time : string;
  yf_message : string;
  yf_sector : option Z
}.

(** The values of a segment's 'type' key. *)
Inductive SegmentType := TypeCollision | TypePositionChange | TypeTrackLimits | TypeYellowFlag.

(** The keys a segment has beside the common ones, by type. *)
Inductive SegmentDetail :=
| CollisionDetail (drivers : list string) (steward : string)
| PositionChangeDetail (driver : string) (signed_change : Z)
| TrackLimitsDetail (car_number : option string) (turn_number : option string)
| YellowFlagDetail (sector : option Z).

Record CommentarySegment := {
  priority : Z;
  seg_type : SegmentType;
  seg_lap : option Z;
  title : string;
  description : string;
  detail : SegmentDetail;
  data_points : list string
}.

(** The counts of [_generate_statistics]. *)
Record Statistics := {
  total_position_changes : nat;
  significant_changes_3plus : nat;
  major_changes_5plus : nat;
  total_incidents : nat;
  track_limits_violations : nat;
  yellow_flag_periods : nat;
  total_pit_stops : nat
}.

(** ** Exceptions *)

Inductive PyError := IndexError | ValueError.

Inductive result (A : Type) :=
| Ok (a : A)
| Raise (e : PyError).
Arguments Ok {A} a.
Arguments Raise {A} e.

Definition bind {A B : Type} (m : result A) (k : A -> result B) : result B :=
  match m with
  | Ok a => k a
  | Raise e => Raise e
  end.

Notation "x <- m ;; k" := (bind m (fun x => k))
  (at level 61, m at next level, right associativity).

(** A loop that builds a list and stops at the first exception. *)
Fixpoint mapM {A B : Type} (f : A -> result B) (l : list A) : result (list B) :=
  match l with
  | [] => Ok []
  | x :: xs => y <- f x ;; ys <- mapM f xs ;; Ok (y :: ys)
  end.

(** ** The analyzer *)

Section Analyzer.

(** [pd.to_timedelta(cell).total_seconds()] on the text of a cell: [None]
    when the parser raises, [Some None] when the result is NaN (a NaT
    duration), [Some (Some q)] for [q] seconds. The analyzer applies it to
    text only ([total_seconds] below). *)
Variable to_timedelta_seconds : option string -> option (option Q).

(** [_get_car_telemetry_data]: the fastf1 client's answer for a driver and a
    lap, [None] when the data is missing or the client fails. *)
Variable _get_car_telemetry_data : string -> Z -> option CarTelemetry.

Definition incident_keywords : list string :=
  ["INCIDENT"; "CRASH"; "COLLISION"; "OFF TRACK"; "SPIN"; "CONTACT"].

Definition _get_steward_action (message : string) : string :=
  if contains "NO FURTHER ACTION" message then "No further action"
  else if contains "UNDER INVESTIGATION" message then "Under investigation"
  else if contains "WILL BE INVESTIGATED" message then "Will be investigated after race"
  else if contains "DELETED" message then "Lap time deleted"
  else if contains "NOTED" message then "Noted"
  else "Unknown".

Definition _get_driver_from_car_number (self : F1RaceAnalyzer) (car_number : string)
  : option string :=
  match session_results self with
  | None => None
  | Some results =>
      match find (fun r => DriverNumber r =? int_of_digits car_number) results with
      | Some r => Some (Abbreviation r)
      | None => None
      end
  end.

(** The first row of a driver on a lap. *)
Definition find_lap (laps : list LapRecord) (driver_abbrev : string) (lap_num : Z)
  : option LapRecord :=
  find (fun r => String.eqb (Driver r) driver_abbrev && (LapNumber r =? lap_num)) laps.

(** The fields both correlators copy from a lap row. *)
Definition telemetry_of_lap (lap_num : Z) (lap_info : LapRecord)
    (status : option Z) (car : option CarTelemetry) : LapTelemetry :=
  {| lap_number := lap_num;
     lap_time := str_of_cell (LapTime lap_info);
     position := Position lap_info;
     sector1_time := str_of_cell (Sector1Time lap_info);
     sector2_time := str_of_cell (Sector2Time lap_info);
     sector3_time := str_of_cell (Sector3Time lap_info);
     speed_i1 := option_map py_float (SpeedI1 lap_info);
     speed_i2 := option_map py_float (SpeedI2 lap_info);
     speed_fl := option_map py_float (SpeedFL lap_info);
     speed_st := option_map py_float (SpeedST lap_info);
     compound := Compound lap_info;
     tyre_life := TyreLife lap_info;
     is_personal_best := IsPersonalBest lap_info;
     track_status := status;
     car_channels := car |}.

(** The entries of a per-lap map that hold a value for [field]. *)
Definition present {V : Type} (field : LapTelemetry -> option V)
    (telemetry_data : list (Z * LapTelemetry)) : list (Z * V) :=
  flat_map (fun kd => match field (snd kd) with
                      | Some v => [(fst kd, v)]
                      | None => []
                      end) telemetry_data.

Definition sector_of (f : SectorField) (t : SectorTimes) : string :=
  match f with
  | FSector1Time => sector1 t
  | FSector2Time => sector2 t
  | FSector3Time => sector3 t
  end.

Definition _analyze_telemetry_patterns (telemetry_data : list (Z * LapTelemetry))
    (incident_lap : Z) : TelemetryPatterns :=
  (* Speed analysis *)
  let speeds := present speed_fl telemetry_data in
  let speed_part :=
    if (2 <=? List.length speeds)%nat then
      match dict_values speeds with
      | v :: vs =>
          (Some {| max_speed := py_max Qlt_bool v vs;
                   min_speed := py_min Qlt_bool v vs;
                   speed_variance := fsub (py_max Qlt_bool v vs) (py_min Qlt_bool v vs);
                   incident_lap_speed := dict_get Z.eqb incident_lap speeds |},
           match dict_get Z.eqb incident_lap speeds,
                 dict_get Z.eqb (incident_lap - 1) speeds with
           | Some cur, Some prev =>
               let speed_drop := fsub prev cur in
               if Qlt_bool 20 speed_drop then [SignificantSpeedDrop speed_drop] else []
           | _, _ => []
           end)
      | [] => (None, [])
      end
    else (None, []) in
  (* Sector time analysis *)
  let sector_times :=
    flat_map (fun kd =>
                if String.eqb (sector1_time (snd kd)) "N/A" then []
                else [(fst kd, {| sector1 := sector1_time (snd kd);
                                  sector2 := sector2_time (snd kd);
                                  sector3 := sector3_time (snd kd) |})])
             telemetry_data in
  let sector_part :=
    if (2 <=? List.length sector_times)%nat then
      Some {| slowest_sectors :=
                flat_map (fun f =>
                            match filter (fun s => negb (String.eqb s "N/A"))
                                         (map (sector_of f) (dict_values sector_times)) with
                            | s :: ss => [(f, py_max str_ltb s ss)]
                            | [] => []
                            end)
                         [FSector1Time; FSector2Time; FSector3Time];
              incident_lap_sectors := dict_get Z.eqb incident_lap sector_times |}
    else None in
  (* Position analysis *)
  let positions := present position telemetry_data in
  let position_part :=
    if (2 <=? List.length positions)%nat then
      match dict_values positions with
      | p :: ps =>
          (Some {| position_range :=
                     str_of_int (py_min Z.ltb p ps) ++ " - " ++ str_of_int (py_max Z.ltb p ps);
                   position_change := py_max Z.ltb p ps - py_min Z.ltb p ps;
                   incident_lap_position := dict_get Z.eqb incident_lap positions |},
           match dict_get Z.eqb incident_lap positions,
                 dict_get Z.eqb (incident_lap - 1) positions with
           | Some cur, Some prev =>
               let position_drop := cur - prev in
               if 0 <? position_drop then [PositionDrop position_drop] else []
           | _, _ => []
           end)
      | [] => (None, [])
      end
    else (None, []) in
  (* Tire analysis; [compounds_used] is [list(set(...))], whose order Python
     leaves open: it is given here in order of first appearance. The NaN of
     the cells is one object, which a set holds once. *)
  let tire_data :=
    flat_map (fun kd =>
                match compound (snd kd) with
                | Some "Unknown" => []
                | c => [(fst kd, {| td_compound := c; td_tyre_life := tyre_life (snd kd) |})]
                end)
             telemetry_data in
  let tire_part :=
    match tire_data with
    | [] => None
    | _ =>
        Some {| compounds_used :=
                  unique (fun a b => match a, b with
                                     | Some x, Some y => String.eqb x y
                                     | None, None => true
                                     | _, _ => false
                                     end)
                         (map td_compound (dict_values tire_data));
                incident_lap_tire := dict_get Z.eqb incident_lap tire_data;
                tire_age_at_incident :=
                  match dict_get Z.eqb incident_lap tire_data with
                  | Some t => td_tyre_life t
                  | None => None
                  end |}
    end in
  {| speed_analysis := fst speed_part;
     sector_analysis := sector_part;
     tire_analysis := tire_part;
     position_analysis := fst position_part;
     anomalies := snd speed_part ++ snd position_part |}.

(** The per-lap map of the incident correlator for one driver: the laps
    [incident_lap - 2 .. incident_lap + 2], a lap number [<= 0] and a lap
    with no row being passed over. *)
Definition incident_lap_window (laps : list LapRecord) (driver_abbrev : string)
    (incident_lap : Z) : list (Z * LapTelemetry) :=
  flat_map (fun lap_num =>
              if lap_num <=? 0 then []
              else match find_lap laps driver_abbrev lap_num with
                   | Some lap_info =>
                       [(lap_num,
                         telemetry_of_lap lap_num lap_info
                           (Some (match TrackStatus lap_info with
                                  | Some t => t
                                  | None => 1
                                  end))
                           (_get_car_telemetry_data driver_abbrev lap_num))]
                   | None => []
                   end)
           [incident_lap - 2; incident_lap - 1; incident_lap;
            incident_lap + 1; incident_lap + 2].

Definition _analyze_incident_telemetry (self : F1RaceAnalyzer)
    (incident_lap : option Z) (drivers : list string) : list (string * DriverTelemetry) :=
  match incident_lap, drivers, lap_data self with
  | None, _, _ | Some 0, _, _ | _, [], _ | _, _, None => []
  | Some incident_lap, _, Some laps =>
      fold_left
        (fun telemetry_analysis driver_num =>
           match _get_driver_from_car_number self driver_num with
           | None | Some "" => telemetry_analysis
           | Some driver_abbrev =>
               match incident_lap_window laps driver_abbrev incident_lap with
               | [] => telemetry_analysis
               | driver_telemetry =>
                   dict_set String.eqb driver_abbrev
                     {| driver_number := driver_num;
                        dt_lap_data := driver_telemetry;
                        analysis := _analyze_telemetry_patterns driver_telemetry incident_lap |}
                     telemetry_analysis
               end
           end)
        drivers []
  end.

(** The body of the loop over the race-control rows: the incident appended
    for a row that the keyword filter keeps. *)
Definition incident_of_message (self : F1RaceAnalyzer) (incident : RaceControlMessage)
  : list Incident :=
  match Message incident with
  | Some message =>
      if str_contains_any incident_keywords (Message incident) then
        let drivers :=
          if contains "CAR" message then re_findall "CAR " is_digit message
          else [] in
        [{| inc_lap := Lap incident;
            inc_time := Time incident;
            inc_message := message;
            inc_category := Category incident;
            inc_drivers := drivers;
            steward_action := _get_steward_action message;
            telemetry_analysis :=
              _analyze_incident_telemetry self (Lap incident) drivers |}]
      else []
  | None => []
  end.

Definition analyze_incidents (self : F1RaceAnalyzer) : list Incident :=
  match race_control self, lap_data self with
  | Some messages, Some _ => flat_map (incident_of_message self) messages
  | _, _ => []
  end.

(** *** Position changes *)

(** [df.sort_values('LapNumber')]. pandas does not promise a stable order for
    rows with one lap number; the result is the same whenever a driver has
    one row per lap. *)
Definition sort_values (rows : list LapRecord) : list LapRecord :=
  stable_sort LapNumber rows.

Definition driver_laps_of (laps : list LapRecord) (driver : string) : list LapRecord :=
  sort_values (filter (fun r => String.eqb (Driver r) driver) laps).

(** [x - y] and [abs(x) > bound] on floats that may be NaN. *)
Definition float_sub (x y : option Q) : option Q :=
  match x, y with
  | Some a, Some b => Some (fsub a b)
  | _, _ => None
  end.

Definition Qabs_gt (x bound : Q) : bool := Qlt_bool bound (Qabs x).

Definition speed_of (f : SpeedField) (r : LapRecord) : option Q :=
  match f with
  | FSpeedI1 => SpeedI1 r
  | FSpeedI2 => SpeedI2 r
  | FSpeedFL => SpeedFL r
  | FSpeedST => SpeedST r
  end.

Definition sector_cell (f : SectorField) (r : LapRecord) : option string :=
  match f with
  | FSector1Time => Sector1Time r
  | FSector2Time => Sector2Time r
  | FSector3Time => Sector3Time r
  end.

(** [pd.to_timedelta(cell).total_seconds()] on a cell of the lap table: a
    NaN cell is no text for the parser, [pd.to_timedelta] answers [NaT] for
    it and [NaT.total_seconds()] is NaN. *)
Definition total_seconds (cell : option string) : option (option Q) :=
  match cell with
  | None => Some None
  | Some text => to_timedelta_seconds (Some text)
  end.

(** The body of the lap-time [try]: [None] when it is left by an exception. *)
Definition lap_time_delta (prev_lap curr_lap : LapRecord) : option (option Q) :=
  match total_seconds (LapTime prev_lap) with
  | Some prev_time =>
      match total_seconds (LapTime curr_lap) with
      | Some curr_time => Some (float_sub curr_time prev_time)
      | None => None
      end
  | None => None
  end.

(** One turn of the sector loop: the delta, when the field is there in both
    laps and both values parse. *)
Definition sector_delta (prev_lap curr_lap : LapRecord) (f : SectorField)
  : option (option Q) :=
  match sector_cell f prev_lap, sector_cell f curr_lap with
  | Some p, Some c =>
      match total_seconds (Some p) with
      | Some prev_sector =>
          match total_seconds (Some c) with
          | Some curr_sector => Some (float_sub curr_sector prev_sector)
          | None => None
          end
      | None => None
      end
  | _, _ => None
  end.

Definition speed_delta (prev_lap curr_lap : LapRecord) (f : SpeedField) : option Q :=
  match speed_of f prev_lap, speed_of f curr_lap with
  | Some p, Some c => Some (fsub c p)
  | _, _ => None
  end.

Definition speed_fields := [FSpeedI1; FSpeedI2; FSpeedFL; FSpeedST].
Definition sector_fields := [FSector1Time; FSector2Time; FSector3Time].

Definition _compare_lap_telemetry (prev_lap curr_lap : LapRecord) : TelemetryComparison :=
  {| lap_time_change := lap_time_delta prev_lap curr_lap;
     speed_changes :=
       flat_map (fun f => match speed_delta prev_lap curr_lap f with
                          | Some d => [(f, d)]
                          | None => []
                          end) speed_fields;
     sector_changes :=
       flat_map (fun f => match sector_delta prev_lap curr_lap f with
                          | Some d => [(f, d)]
                          | None => []
                          end) sector_fields;
     tire_changes :=
       {| compound_change :=
            match Compound prev_lap, Compound curr_lap with
            | Some a, Some b =>
                if String.eqb a b then None else Some (Some a, Some b)
            | a, b => Some (a, b)   (* NaN differs from everything *)
            end;
          tyre_life_change :=
            match TyreLife prev_lap, TyreLife curr_lap with
            | Some a, Some b => Some (b - a)
            | _, _ => None
            end |};
     cmp_anomalies :=
       match lap_time_delta prev_lap curr_lap with
       | Some (Some time_diff) =>
           if Qabs_gt time_diff 2 then [SignificantLapTimeChange time_diff] else []
       | _ => []
       end
       ++ flat_map (fun f => match speed_delta prev_lap curr_lap f with
                             | Some d =>
                                 if Qabs_gt d 15 then [SignificantSpeedFieldChange f d] else []
                             | None => []
                             end) speed_fields
       ++ flat_map (fun f => match sector_delta prev_lap curr_lap f with
                             | Some (Some d) =>
                                 if Qabs_gt d (1 # 2) then [SignificantSectorChange f d] else []
                             | _ => []
                             end) sector_fields |}.

(** The body of the loop over [range(1, len(driver_laps))]: the record
    appended for one pair of rows, if any. *)
Definition position_change_of (min_change : Z) (driver : string)
    (pair : LapRecord * LapRecord) : list PositionChange :=
  let (prev_lap, curr_lap) := pair in
  match Position prev_lap, Position curr_lap with
  | Some prev_pos, Some curr_pos =>
      if negb (prev_pos =? curr_pos) && (min_change <=? Z.abs (prev_pos - curr_pos)) then
        [{| pc_driver := driver;
            pc_lap := LapNumber curr_lap;
            from_position := prev_pos;
            to_position := curr_pos;
            change := prev_pos - curr_pos;
            pc_lap_time := str_of_cell (LapTime curr_lap);
            prev_lap_time := str_of_cell (LapTime prev_lap);
            pc_compound := Compound curr_lap;
            pc_tyre_life := TyreLife curr_lap;
            telemetry_comparison := _compare_lap_telemetry prev_lap curr_lap |}]
      else []
  | _, _ => []
  end.

(** The list before the final sort: drivers in order of first appearance,
    each driver's pairs in lap order. *)
Definition position_changes_found (laps : list LapRecord) (min_change : Z)
  : list PositionChange :=
  flat_map (fun driver =>
              flat_map (position_change_of min_change driver)
                       (adjacent_pairs (driver_laps_of laps driver)))
           (unique String.eqb (map Driver laps)).

Definition analyze_position_changes (self : F1RaceAnalyzer) (min_change : Z)
  : list PositionChange :=
  match lap_data self with
  | None => []
  | Some laps =>
      py_sort (fun x => Z.abs (change x)) true (position_changes_found laps min_change)
  end.

(** *** Pit stops *)

(** [driver_laps[driver_laps['LapNumber'] == n]['Position'].iloc[0]]: the
    cell of the first such row (it may be NaN); [iloc[0]] raises on an empty
    selection. *)
Definition position_on_lap (driver_laps : list LapRecord) (n : Z) : result (option Z) :=
  match filter (fun r => LapNumber r =? n) driver_laps with
  | r :: _ => Ok (Position r)
  | [] => Raise IndexError
  end.

(** [int(pos) if pos else None], where [pos] is Python's [None] (here
    [None]), a NaN cell ([Some None]) or a number: [None] and [0.0] are
    false, NaN is true and [int(NaN)] raises. *)
Definition int_if_truthy (pos : option (option Z)) : result (option Z) :=
  match pos with
  | None => Ok None
  | Some None => Raise ValueError
  | Some (Some p) => if p =? 0 then Ok None else Ok (Some p)
  end.

Definition truthy (pos : option (option Z)) : bool :=
  match pos with
  | None => false
  | Some None => true
  | Some (Some p) => negb (p =? 0)
  end.

Definition pit_stop_of (driver_laps : list LapRecord) (pit : LapRecord) : result PitStop :=
  let lap_num := LapNumber pit in
  let max_lap :=
    match map LapNumber driver_laps with
    | n :: ns => py_max Z.ltb n ns
    | [] => lap_num
    end in
  pos_before <-
    (if 1 <? lap_num then p <- position_on_lap driver_laps (lap_num - 1) ;; Ok (Some p)
     else Ok None) ;;
  pos_after <-
    (if lap_num <? max_lap then p <- position_on_lap driver_laps (lap_num + 1) ;; Ok (Some p)
     else Ok None) ;;
  before <- int_if_truthy pos_before ;;
  after <- int_if_truthy pos_after ;;
  delta <-
    (if truthy pos_before && truthy pos_after then
       match pos_before, pos_after with
       | Some (Some b), Some (Some a) => Ok (Some (a - b))
       | _, _ => Raise ValueError
       end
     else Ok None) ;;
  Ok {| ps_lap := lap_num;
        ps_compound := Compound pit;
        ps_tyre_life := TyreLife pit;
        position_before := before;
        position_after := after;
        ps_position_change := delta |}.

Definition is_some {A : Type} (x : option A) : bool :=
  match x with
  | Some _ => true
  | None => false
  end.

Definition analyze_pit_stop_strategies (self : F1RaceAnalyzer)
  : result (list (string * list PitStop)) :=
  match lap_data self with
  | None => Ok []
  | Some laps =>
      per_driver <-
        mapM (fun driver =>
                let driver_laps := driver_laps_of laps driver in
                let pit_stops := filter (fun r => is_some (PitInTime r)) driver_laps in
                driver_strategy <- mapM (pit_stop_of driver_laps) pit_stops ;;
                Ok (driver, driver_strategy))
             (unique String.eqb (map Driver laps)) ;;
      Ok (filter (fun ds => negb (Nat.eqb (List.length (snd ds)) 0)) per_driver)
  end.

(** *** Track limits *)

(** The per-lap map of the track-limits correlator: the laps
    [violation_lap - 1 .. violation_lap + 1]. *)
Definition violation_lap_window (laps : list LapRecord) (driver_abbrev : string)
    (violation_lap : Z) : list (Z * LapTelemetry) :=
  flat_map (fun lap_num =>
              if lap_num <=? 0 then []
              else match find_lap laps driver_abbrev lap_num with
                   | Some lap_info => [(lap_num, telemetry_of_lap lap_num lap_info None None)]
                   | None => []
                   end)
           [violation_lap - 1; violation_lap; violation_lap + 1].

(** The analysis part of [_analyze_violation_telemetry]. *)
Definition violation_patterns (telemetry_data : list (Z * LapTelemetry))
    (violation_lap : Z) : ViolationAnalysis :=
  let speeds := present speed_fl telemetry_data in
  let speed_part :=
    if (2 <=? List.length speeds)%nat then
      match dict_values speeds with
      | v :: vs =>
          (Some {| v_max_speed := py_max Qlt_bool v vs;
                   v_min_speed := py_min Qlt_bool v vs;
                   violation_lap_speed := dict_get Z.eqb violation_lap speeds |},
           match dict_get Z.eqb violation_lap speeds,
                 dict_get Z.eqb (violation_lap - 1) speeds with
           | Some cur, Some prev =>
               let speed_diff := fsub cur prev in
               if Qabs_gt speed_diff 10 then [SpeedChange speed_diff] else []
           | _, _ => []
           end)
      | [] => (None, [])
      end
    else (None, []) in
  {| va_speed_analysis := fst speed_part;
     va_sector_analysis :=
       match dict_get Z.eqb violation_lap telemetry_data with
       | Some d => Some {| sector1 := sector1_time d;
                           sector2 := sector2_time d;
                           sector3 := sector3_time d |}
       | None => None
       end;
     va_anomalies := snd speed_part |}.

Definition _analyze_violation_telemetry (self : F1RaceAnalyzer)
    (driver_abbrev : string) (violation_lap : Z) : option ViolationTelemetry :=
  match lap_data self with
  | None => None
  | Some laps =>
      let telemetry_data := violation_lap_window laps driver_abbrev violation_lap in
      Some {| vt_lap_data := telemetry_data;
              vt_analysis := violation_patterns telemetry_data violation_lap |}
  end.

Definition track_limits_keywords : list string := ["TRACK LIMITS"; "DELETED"].

Definition analyze_track_limits_violations (self : F1RaceAnalyzer) : list Violation :=
  match race_control self with
  | None => []
  | Some messages =>
      flat_map
        (fun violation =>
           match Message violation with
           | Some message =>
               if str_contains_any track_limits_keywords (Message violation) then
                 let driver_number := re_search "CAR " is_digit message in
                 [{| v_lap := Lap violation;
                     v_time := Time violation;
                     v_driver_number := driver_number;
                     driver_abbreviation :=
                       match driver_number with
                       | Some n => _get_driver_from_car_number self n
                       | None => None
                       end;
                     deleted_time := re_search "TIME " is_time_char message;
                     turn := re_search "TURN " is_digit message;
                     v_message := message;
                     v_telemetry_analysis :=
                       match Lap violation, driver_number with
                       | Some 0, _ | None, _ | _, None => None
                       | Some violation_lap, Some n =>
                           match _get_driver_from_car_number self n with
                           | None | Some "" => None
                           | Some driver_abbrev =>
                               _analyze_violation_telemetry self driver_abbrev violation_lap
                           end
                       end |}]
               else []
           | None => []
           end)
        messages
  end.

(** *** Yellow flags *)

Definition analyze_yellow_flags (self : F1RaceAnalyzer) : list YellowFlag :=
  match race_control self with
  | None => []
  | Some messages =>
      flat_map
        (fun flag =>
           match Message flag with
           | Some message =>
               if str_contains_any ["YELLOW"] (Message flag) then
                 [{| yf_lap := Lap flag;
                     yf_time := Time flag;
                     yf_message := message;
                     yf_sector := Sector flag |}]
               else []
           | None => []
           end)
        messages
  end.

(** *** Commentary segments *)

Definition collision_segment (c : Incident) : CommentarySegment :=
  {| priority := 1;
     seg_type := TypeCollision;
     seg_lap := inc_lap c;
     title := "Collision - Lap " ++ str_of_opt_int (inc_lap c);
     description := inc_message c;
     detail := CollisionDetail (inc_drivers c) (steward_action c);
     data_points := ["positions"; "lap_times"; "steward_investigation"; "yellow_flag"] |}.

Definition position_change_segment_of (c : PositionChange) : CommentarySegment :=
  {| priority := 2;
     seg_type := TypePositionChange;
     seg_lap := Some (pc_lap c);
     title := pc_driver c ++ " - " ++ str_of_int_signed (change c)
              ++ " positions (Lap " ++ str_of_int (pc_lap c) ++ ")";
     description := pc_driver c ++ " drops from " ++ str_of_int (from_position c)
                    ++ " to " ++ str_of_int (to_position c);
     detail := PositionChangeDetail (pc_driver c) (change c);
     data_points := ["position_change"; "lap_times"; "tire_compound"] |}.

Definition track_limits_segment (v : Violation) : CommentarySegment :=
  {| priority := 3;
     seg_type := TypeTrackLimits;
     seg_lap := v_lap v;
     title := "Track Limits - Lap " ++ str_of_opt_int (v_lap v);
     description := v_message v;
     detail := TrackLimitsDetail (v_driver_number v) (turn v);
     data_points := ["steward_decision"; "track_limits"; "racing_standards"] |}.

Definition yellow_flag_segment (f : YellowFlag) : CommentarySegment :=
  {| priority := 4;
     seg_type := TypeYellowFlag;
     seg_lap := yf_lap f;
     title := "Yellow Flag - Lap " ++ str_of_opt_int (yf_lap f);
     description := yf_message f;
     detail := YellowFlagDetail (yf_sector f);
     data_points := ["track_status"; "safety_periods"; "race_impact"] |}.

(** The incidents the ranker keeps: [ 'COLLISION' in inc['message'] ]. *)
Definition collisions_of (incidents : list Incident) : list Incident :=
  filter (fun inc => contains "COLLISION" (inc_message inc)) incidents.

Definition identify_commentary_segments (self : F1RaceAnalyzer) : list CommentarySegment :=
  let incidents := analyze_incidents self in
  let position_changes := analyze_position_changes self 5 in
  let track_limits := analyze_track_limits_violations self in
  let yellow_flags := analyze_yellow_flags self in
  let segments :=
    (map collision_segment (collisions_of incidents)
     ++ map position_change_segment_of (firstn 5 position_changes)
     ++ map track_limits_segment track_limits
     ++ map yellow_flag_segment yellow_flags)%list in
  py_sort priority false segments.

(** *** Statistics *)

(** The empty dict returned without lap data is [None]. The pit scanner is
    the one call that can raise; the dict's values before it have no effect. *)
Definition _generate_statistics (self : F1RaceAnalyzer) : result (option Statistics) :=
  match lap_data self with
  | None => Ok None
  | Some _ =>
      let position_changes := analyze_position_changes self 1 in
      strategies <- analyze_pit_stop_strategies self ;;
      Ok (Some
            {| total_position_changes := List.length position_changes;
               significant_changes_3plus :=
                 List.length (filter (fun c => 3 <=? Z.abs (change c)) position_changes);
               major_changes_5plus :=
                 List.length (filter (fun c => 5 <=? Z.abs (change c)) position_changes);
               total_incidents := List.length (analyze_incidents self);
               track_limits_violations :=
                 List.length (analyze_track_limits_violations self);
               yellow_flag_periods := List.length (analyze_yellow_flags self);
               total_pit_stops :=
                 List.length (flat_map (fun strategy => snd strategy) strategies) |})
  end.

End Analyzer.

(** ** Sample inputs *)

Module Samples.

(** A lap row with a driver, a lap number and a position; the other cells
    are NaN. *)
Definition lap_row (driver : string) (n : Z) (pos : option Z) : LapRecord :=
  {| Driver := driver; LapNumber := n; LapTime := None; Position := pos;
     Sector1Time := None; Sector2Time := None; Sector3Time := None;
     SpeedI1 := None; SpeedI2 := None; SpeedFL := None; SpeedST := None;
     Compound := None; TyreLife := None; IsPersonalBest := false;
     TrackStatus := None; PitInTime := None |}.

Definition with_speed_fl (v : Q) (r : LapRecord) : LapRecord :=
  {| Driver := Driver r; LapNumber := LapNumber r; LapTime := LapTime r;
     Position := Position r;
     Sector1Time := Sector1Time r; Sector2Time := Sector2Time r;
     Sector3Time := Sector3Time r;
     SpeedI1 := SpeedI1 r; SpeedI2 := SpeedI2 r; SpeedFL := Some v; SpeedST := SpeedST r;
     Compound := Compound r; TyreLife := TyreLife r;
     IsPersonalBest := IsPersonalBest r;
     TrackStatus := TrackStatus r; PitInTime := PitInTime r |}.

Definition with_lap_time (t : string) (r : LapRecord) : LapRecord :=
  {| Driver := Driver r; LapNumber := LapNumber r; LapTime := Some t;
     Position := Position r;
     Sector1Time := Sector1Time r; Sector2Time := Sector2Time r;
     Sector3Time := Sector3Time r;
     SpeedI1 := SpeedI1 r; SpeedI2 := SpeedI2 r; SpeedFL := SpeedFL r; SpeedST := SpeedST r;
     Compound := Compound r; TyreLife := TyreLife r;
     IsPersonalBest := IsPersonalBest r;
     TrackStatus := TrackStatus r; PitInTime := PitInTime r |}.

Definition with_pit_in (t : string) (r : LapRecord) : LapRecord :=
  {| Driver := Driver r; LapNumber := LapNumber r; LapTime := LapTime r;
     Position := Position r;
     Sector1Time := Sector1Time r; Sector2Time := Sector2Time r;
     Sector3Time := Sector3Time r;
     SpeedI1 := SpeedI1 r; SpeedI2 := SpeedI2 r; SpeedFL := SpeedFL r; SpeedST := SpeedST r;
     Compound := Compound r; TyreLife := TyreLife r;
     IsPersonalBest := IsPersonalBest r;
     TrackStatus := TrackStatus r; PitInTime := Some t |}.

Definition message_row (lap : option Z) (text : string) : RaceControlMessage :=
  {| Time := "2024-07-21 13:00:00"; Lap := lap; Message := Some text;
     Category := Some "Other"; Sector := None |}.

Definition analyzer_of (laps : list LapRecord) (messages : list RaceControlMessage)
    (results : list ResultRow) : F1RaceAnalyzer :=
  {| lap_data := Some laps; race_control := Some messages; session_results := Some results |}.

(** A car-channel client with no data. *)
Definition no_car_data (driver : string) (lap : Z) : option CarTelemetry := None.

(** PER loses seven places between lap 9 and lap 10. *)
Definition per_laps : list LapRecord :=
  [lap_row "PER" 9 (Some 5); lap_row "PER" 10 (Some 12)].

Definition collision_message : string :=
  "CAR 1 (VER) AND CAR 44 (HAM) COLLISION ON LAP 63 - UNDER INVESTIGATION".

Definition grid : list ResultRow :=
  [{| DriverNumber := 1; Abbreviation := "VER" |};
   {| DriverNumber := 44; Abbreviation := "HAM" |};
   {| DriverNumber := 81; Abbreviation := "PIA" |}].

(** VER has no row for lap 2 and comes in on lap 3. *)
Definition gap_laps : list LapRecord :=
  [lap_row "VER" 1 (Some 1);
   with_pit_in "0 days 00:05:10" (lap_row "VER" 3 (Some 2));
   lap_row "VER" 4 (Some 2)].

(** VER comes in on lap 2, with rows for the laps on both sides. *)
Definition pit_laps : list LapRecord :=
  [lap_row "VER" 1 (Some 1);
   with_pit_in "0 days 00:03:40" (lap_row "VER" 2 (Some 1));
   lap_row "VER" 3 (Some 4)].

(** VER is slower by 30 km/h at the line and three places down on lap 63. *)
Definition collision_laps : list LapRecord :=
  [with_speed_fl 300 (lap_row "VER" 62 (Some 1));
   with_speed_fl 270 (lap_row "VER" 63 (Some 4));
   with_speed_fl 295 (lap_row "HAM" 63 (Some 2))].

Definition collision_analyzer : F1RaceAnalyzer :=
  analyzer_of collision_laps [message_row (Some 63) collision_message] grid.

Definition track_limits_message : string :=
  "CAR 81 TRACK LIMITS TURN 4 - LAP TIME 1:23.456 DELETED".

(** PIA is faster by 20 km/h at the line on lap 10 than on lap 9. *)
Definition faster_laps : list LapRecord :=
  [with_speed_fl 280 (lap_row "PIA" 9 (Some 3));
   with_speed_fl 300 (lap_row "PIA" 10 (Some 3))].

Definition faster_analyzer : F1RaceAnalyzer :=
  analyzer_of faster_laps [message_row (Some 10) track_limits_message] grid.

(** Speeds with one decimal, which are no binary64 values: VER crosses the
    line at 256.1 on lap 62 and at 236.1 on lap 63, PIA at 246.1 on lap 9 and
    at 256.1 on lap 10. *)
Definition decimal_laps : list LapRecord :=
  [with_speed_fl (2561 # 10) (lap_row "VER" 62 None);
   with_speed_fl (2361 # 10) (lap_row "VER" 63 None);
   with_speed_fl (2461 # 10) (lap_row "PIA" 9 None);
   with_speed_fl (2561 # 10) (lap_row "PIA" 10 None)].

Definition decimal_analyzer : F1RaceAnalyzer :=
  analyzer_of decimal_laps [] grid.

(** The float next below 5, 4.999999999999999. *)
Definition below_five : Q := 5629499534213119 # 1125899906842624.

(** HAM crosses the line at 25.0 on lap 62 and at 4.999999999999999 on lap
    63: the speeds differ by more than 20, and their float difference is 20. *)
Definition threshold_laps : list LapRecord :=
  [with_speed_fl 25 (lap_row "HAM" 62 None);
   with_speed_fl below_five (lap_row "HAM" 63 None)].

Definition threshold_analyzer : F1RaceAnalyzer :=
  analyzer_of threshold_laps [] grid.

(** An incident message that spells its keyword in lower case. *)
Definition lower_case_message : string := "Car 4 and car 16 collision at turn 1".

Definition lower_case_analyzer : F1RaceAnalyzer :=
  analyzer_of per_laps [message_row (Some 1) lower_case_message] grid.

(** PER's lap 10 has a lap time that is no duration. *)
Definition malformed_laps : list LapRecord :=
  [with_lap_time "0 days 00:01:32" (lap_row "PER" 9 (Some 5));
   with_lap_time "foo" (lap_row "PER" 10 (Some 12))].

(** VER has rows for the laps 1 and 3 only, eight places apart. *)
Definition skipped_lap : list LapRecord :=
  [lap_row "VER" 1 (Some 1); lap_row "VER" 3 (Some 9)].

(** A yellow flag shown before the collision is reported. *)
Definition flag_then_collision : F1RaceAnalyzer :=
  analyzer_of collision_laps
    [message_row (Some 60) "YELLOW IN TRACK SECTOR 5";
     message_row (Some 63) collision_message] grid.

(** Three changes, those of NOR and SAI having one magnitude. *)
Definition tied_laps : list LapRecord :=
  [lap_row "NOR" 1 (Some 2); lap_row "SAI" 1 (Some 9); lap_row "ALO" 1 (Some 3);
   lap_row "NOR" 2 (Some 8); lap_row "SAI" 2 (Some 3); lap_row "ALO" 2 (Some 12)].

(** A message that both scanners keep: NOR runs wide and loses the lap. *)
Definition off_track_message : string :=
  "CAR 4 (NOR) OFF TRACK AT TURN 9 AND CAR 16 - LAP TIME 1:20.001 DELETED".

Definition off_track_analyzer : F1RaceAnalyzer :=
  analyzer_of per_laps [message_row (Some 12) off_track_message] grid.

(** A collision reported without a lap. *)
Definition unlapped_analyzer : F1RaceAnalyzer :=
  analyzer_of collision_laps [message_row None collision_message] grid.

(** Two laps of LEC: 25 km/h slower at the first intermediate, a lap time
    three seconds longer, and older tyres by one lap. *)
Definition slower_lap_pair : LapRecord * LapRecord :=
  ({| Driver := "LEC"; LapNumber := 20; LapTime := Some "0 days 00:01:20";
      Position := Some 2;
      Sector1Time := Some "0 days 00:00:25"; Sector2Time := Some "0 days 00:00:30";
      Sector3Time := Some "0 days 00:00:25";
      SpeedI1 := Some 290%Q; SpeedI2 := None; SpeedFL := Some 280%Q; SpeedST := None;
      Compound := Some "HARD"; TyreLife := Some 10; IsPersonalBest := false;
      TrackStatus := Some 1; PitInTime := None |},
   {| Driver := "LEC"; LapNumber := 21; LapTime := Some "0 days 00:01:23";
      Position := Some 2;
      Sector1Time := Some "0 days 00:00:28"; Sector2Time := Some "0 days 00:00:30";
      Sector3Time := Some "foo";
      SpeedI1 := Some 265%Q; SpeedI2 := None; SpeedFL := Some 275%Q; SpeedST := None;
      Compound := Some "HARD"; TyreLife := Some 11; IsPersonalBest := false;
      TrackStatus := Some 1; PitInTime := None |}).

End Samples.

(** ** The vocabulary of the properties *)

(** [needle] occurs in [hay] as a contiguous run of characters. *)
Definition occurs_in (needle hay : string) : Prop :=
  exists pre post, hay = pre ++ needle ++ post.

(** [needle] occurs in [hay] up to the case of the ASCII letters. *)
Definition occurs_in_ci (needle hay : string) : Prop :=
  occurs_in (upper needle) (upper hay).

(** The order of a list sorted by a key. *)
Definition key_le {A : Type} (key : A -> Z) (a b : A) : Prop := key a <= key b.

(** What one reported record says about the pair of rows it comes from. *)
Definition reports (pc : PositionChange) (prev curr : LapRecord) : Prop :=
  Driver prev = pc_driver pc /\ Driver curr = pc_driver pc /\
  LapNumber prev <= LapNumber curr /\
  pc_lap pc = LapNumber curr /\
  Position prev = Some (from_position pc) /\
  Position curr = Some (to_position pc) /\
  change pc = from_position pc - to_position pc.

(** [a] stands before [b] in [l]. *)
Definition precedes {A : Type} (l : list A) (a b : A) : Prop :=
  exists l1 l2 l3, l = (l1 ++ a :: l2 ++ b :: l3)%list.

(** The lap table has a row of driver [d1] with no row of another driver
    [d2] before it: [d1] is met first by [unique()]. *)
Definition first_appears_before (laps : list LapRecord) (d1 d2 : string) : Prop :=
  d1 <> d2 /\
  exists l1 r l2, laps = (l1 ++ r :: l2)%list /\ Driver r = d1 /\
                  forall r', In r' l1 -> Driver r' <> d2.

(** The keys of a race-control row that an incident copies. *)
Definition message_key (m : RaceControlMessage) :=
  (Time m, Lap m, Message m, Category m).

Definition incident_key (i : Incident) :=
  (inc_time i, inc_lap i, Some (inc_message i), inc_category i).

Definition is_incident_message (m : RaceControlMessage) : bool :=
  str_contains_any incident_keywords (Message m).

(** The steward-action checks, in the order the code runs them. *)
Definition steward_checks : list (string * string) :=
  [("NO FURTHER ACTION", "No further action");
   ("UNDER INVESTIGATION", "Under investigation");
   ("WILL BE INVESTIGATED", "Will be investigated after race");
   ("DELETED", "Lap time deleted");
   ("NOTED", "Noted")].

(** The driver has a row for the lap. *)
Definition has_lap (laps : list LapRecord) (driver : string) (n : Z) : Prop :=
  exists r, In r laps /\ Driver r = driver /\ LapNumber r = n.

(** The value of a field on a lap of a per-lap map, when the lap is there
    and the value is not NaN. *)
Definition value_on {V : Type} (field : LapTelemetry -> option V)
    (telemetry_data : list (Z * LapTelemetry)) (n : Z) : option V :=
  match dict_get Z.eqb n telemetry_data with
  | Some d => field d
  | None => None
  end.

(** The two threshold checks between the incident lap and the lap before it,
    on the dicts [speeds] and [positions]. *)
Definition speed_drop_check (speeds : list (Z * Q)) (incident_lap : Z) : list Anomaly :=
  match dict_get Z.eqb incident_lap speeds, dict_get Z.eqb (incident_lap - 1) speeds with
  | Some cur, Some prev =>
      if Qlt_bool 20 (fsub prev cur) then [SignificantSpeedDrop (fsub prev cur)] else []
  | _, _ => []
  end.

Definition position_drop_check (positions : list (Z * Z)) (incident_lap : Z)
  : list Anomaly :=
  match dict_get Z.eqb incident_lap positions,
        dict_get Z.eqb (incident_lap - 1) positions with
  | Some cur, Some prev => if 0 <? cur - prev then [PositionDrop (cur - prev)] else []
  | _, _ => []
  end.

(** The threshold check of the track-limits correlator on the dict [speeds]. *)
Definition speed_change_check (speeds : list (Z * Q)) (violation_lap : Z) : list Anomaly :=
  match dict_get Z.eqb violation_lap speeds, dict_get Z.eqb (violation_lap - 1) speeds with
  | Some cur, Some prev =>
      if Qabs_gt (fsub cur prev) 10 then [SpeedChange (fsub cur prev)] else []
  | _, _ => []
  end.

(** The value [comparison] starts from in [_compare_lap_telemetry]. *)
Definition initial_comparison : TelemetryComparison :=
  {| lap_time_change := None; speed_changes := []; sector_changes := [];
     tire_changes := {| compound_change := None; tyre_life_change := None |};
     cmp_anomalies := [] |}.

(** A record with its telemetry comparison put back to the value the
    comparison starts from. *)
Definition without_comparison (pc : PositionChange) : PositionChange :=
  {| pc_driver := pc_driver pc; pc_lap := pc_lap pc;
     from_position := from_position pc; to_position := to_position pc;
     change := change pc;
     pc_lap_time := pc_lap_time pc; prev_lap_time := prev_lap_time pc;
     pc_compound := pc_compound pc; pc_tyre_life := pc_tyre_life pc;
     telemetry_comparison := initial_comparison |}.

(** The segments in the order the ranker appends them. *)
Definition segments_appended
    (to_timedelta_seconds : option string -> option (option Q))
    (_get_car_telemetry_data : string -> Z -> option CarTelemetry)
    (self : F1RaceAnalyzer) : list CommentarySegment :=
  (map collision_segment
       (collisions_of (analyze_incidents _get_car_telemetry_data self))
   ++ map position_change_segment_of
          (firstn 5 (analyze_position_changes to_timedelta_seconds self 5))
   ++ map track_limits_segment (analyze_track_limits_violations self)
   ++ map yellow_flag_segment (analyze_yellow_flags self))%list.


(** Every character of [s] is of the class. *)
Fixpoint all_of (cls : ascii -> bool) (s : string) : bool :=
  match s with
  | EmptyString => true
  | String c s' => cls c && all_of cls s'
  end.

(** [s] does not go on with a character of the class. *)
Definition stops (cls : ascii -> bool) (s : string) : Prop :=
  match s with
  | EmptyString => True
  | String c _ => cls c = false
  end.

(** [g] is what the pattern [lit (cls+)] captures at some place of [s]: a
    longest run of the class, not empty, right after [lit]. *)
Definition captured_after (lit : string) (cls : ascii -> bool) (s g : string) : Prop :=
  exists pre post,
    s = pre ++ lit ++ g ++ post /\ g <> EmptyString /\
    all_of cls g = true /\ stops cls post.

(** The pattern [lit (cls+)] matches nowhere in [s]. *)
Definition no_match (lit : string) (cls : ascii -> bool) (s : string) : Prop :=
  forall pre c rest, s = pre ++ lit ++ String c rest -> cls c = false.

Definition is_track_limits_message (m : RaceControlMessage) : bool :=
  str_contains_any track_limits_keywords (Message m).

Definition is_yellow_message (m : RaceControlMessage) : bool :=
  str_contains_any ["YELLOW"] (Message m).

Definition violation_key (v : Violation) :=
  (v_time v, v_lap v, Some (v_message v)).

Definition flag_key (f : YellowFlag) :=
  (yf_time f, yf_lap f, Some (yf_message f), yf_sector f).

Definition has_type (t : SegmentType) (s : CommentarySegment) : bool :=
  match t, seg_type s with
  | TypeCollision, TypeCollision
  | TypePositionChange, TypePositionChange
  | TypeTrackLimits, TypeTrackLimits
  | TypeYellowFlag, TypeYellowFlag => true
  | _, _ => false
  end.

(** The first of a driver's rows on a lap, and whether the driver has a row
    on a later lap. *)
Definition first_on (driver_laps : list LapRecord) (n : Z) : option LapRecord :=
  hd_error (filter (fun r => LapNumber r =? n) driver_laps).

Definition has_later_lap (driver_laps : list LapRecord) (n : Z) : Prop :=
  exists r, In r driver_laps /\ n < LapNumber r.

(** A driver's rows with a pit-in time, in lap order. *)
Definition pit_in_laps (laps : list LapRecord) (driver : string) : list LapRecord :=
  filter (fun r => is_some (PitInTime r)) (driver_laps_of laps driver).

(** The body of the pit scanner's loop over the drivers. *)
Definition driver_strategy_of (laps : list LapRecord) (driver : string)
  : result (string * list PitStop) :=
  let driver_laps := driver_laps_of laps driver in
  let pit_stops := filter (fun r => is_some (PitInTime r)) driver_laps in
  driver_strategy <- mapM (pit_stop_of driver_laps) pit_stops ;;
  Ok (driver, driver_strategy).

(** The body of the incident correlator's loop over the car numbers. *)
Definition telemetry_step (_get_car_telemetry_data : string -> Z -> option CarTelemetry)
    (self : F1RaceAnalyzer) (laps : list LapRecord) (incident_lap : Z)
    (telemetry_analysis : list (string * DriverTelemetry)) (driver_num : string)
  : list (string * DriverTelemetry) :=
  match _get_driver_from_car_number self driver_num with
  | None | Some "" => telemetry_analysis
  | Some driver_abbrev =>
      match incident_lap_window _get_car_telemetry_data laps driver_abbrev incident_lap with
      | [] => telemetry_analysis
      | driver_telemetry =>
          dict_set String.eqb driver_abbrev
            {| driver_number := driver_num;
               dt_lap_data := driver_telemetry;
               analysis := _analyze_telemetry_patterns driver_telemetry incident_lap |}
            telemetry_analysis
      end
  end.

(** A car number resolves to a driver code with laps in the window. *)
Definition resolves_in_window (_get_car_telemetry_data : string -> Z -> option CarTelemetry)
    (self : F1RaceAnalyzer) (laps : list LapRecord) (incident_lap : Z)
    (driver_num driver_abbrev : string) : Prop :=
  _get_driver_from_car_number self driver_num = Some driver_abbrev /\
  driver_abbrev <> EmptyString /\
  incident_lap_window _get_car_telemetry_data laps driver_abbrev incident_lap <> [].

(** ** Properties of the floats *)

Lemma round64_opp (q : Q) : round64 (- q) = (- round64 q)%Q.
Proof.
  destruct q as [[|n|n] d]; unfold round64; cbn [Qopp Qnum Qden Z.opp]; try reflexivity.
  destruct (round64_pos (Z.pos n) (Z.pos d)) as [a b]. unfold Qopp. cbn.
  now rewrite Z.opp_involutive.
Qed.

Lemma Qminus_swap (a b : Q) : (b - a)%Q = (- (a - b))%Q.
Proof.
  destruct a as [an ad], b as [bn bd]. unfold Qminus, Qplus, Qopp. cbn.
  f_equal; [ring | apply Pos.mul_comm].
Qed.

(** The float differences [y - x] and [x - y] are opposite numbers. *)
Lemma fsub_swap (x y : Q) : fsub y x = (- fsub x y)%Q.
Proof. unfold fsub. now rewrite Qminus_swap, round64_opp. Qed.

Lemma fsub_diag (x : Q) : fsub x x = 0%Q.
Proof.
  unfold fsub. destruct (py_float x) as [n d]. unfold round64, Qminus, Qplus, Qopp. cbn.
  replace (n * Z.pos d + - n * Z.pos d) with 0 by ring. reflexivity.
Qed.

(** [round_half_even n d] is a nearest integer to [n / d]. *)
Lemma round_half_even_nearest (n d : Z) :
  0 < d -> 2 * Z.abs (round_half_even n d * d - n) <= d.
Proof.
  intros Hd. unfold round_half_even.
  pose proof (Z.div_mod n d ltac:(lia)) as Hdm.
  pose proof (Z.mod_pos_bound n d Hd) as Hm.
  set (q := n / d) in *. set (r := n mod d) in *.
  destruct (2 * r <? d) eqn:E1; [apply Z.ltb_lt in E1; nia|].
  apply Z.ltb_ge in E1.
  destruct (d <? 2 * r) eqn:E2; [apply Z.ltb_lt in E2; nia|].
  apply Z.ltb_ge in E2. destruct (Z.even q); nia.
Qed.

(** On a tie the even neighbour is taken. *)
Lemma round_half_even_tie (n d : Z) :
  0 < d -> 2 * (n mod d) = d -> Z.even (round_half_even n d) = true.
Proof.
  intros Hd Ht. unfold round_half_even.
  rewrite Ht, Z.ltb_irrefl.
  destruct (Z.even (n / d)) eqn:E; [exact E|].
  rewrite Z.even_add, E. reflexivity.
Qed.

Lemma pow2_nonneg (e : Z) : 0 <= e -> pow2 e = 2 ^ e.
Proof. intros H. unfold pow2. now rewrite Z.max_r. Qed.

Lemma pow2_nonpos (e : Z) : e <= 0 -> pow2 e = 1.
Proof. intros H. unfold pow2. now rewrite Z.max_l. Qed.

Lemma pow2_pos (e : Z) : 0 < pow2 e.
Proof. unfold pow2. apply Z.pow_pos_nonneg; lia. Qed.

(** [floor_log2 n d] is the binary exponent of [n / d]:
    [2 ^ k <= n / d < 2 ^ (k + 1)]. *)
Lemma floor_log2_spec (n d : Z) :
  0 < n -> 0 < d ->
  let k := floor_log2 n d in
  d * pow2 k <= n * pow2 (- k) /\ n * pow2 (- k) < 2 * (d * pow2 k).
Proof.
  intros Hn Hd. unfold floor_log2.
  destruct (Z.log2_spec n Hn) as [Hn1 Hn2], (Z.log2_spec d Hd) as [Hd1 Hd2].
  pose proof (Z.log2_nonneg n) as Ha. pose proof (Z.log2_nonneg d) as Hb.
  set (a := Z.log2 n) in *. set (b := Z.log2 d) in *.
  rewrite Z.pow_succ_r in Hn2, Hd2 by assumption.
  assert (Hab : 0 <= a - b -> 2 ^ a = 2 ^ b * 2 ^ (a - b)).
  { intros H. rewrite <- Z.pow_add_r by lia. f_equal. lia. }
  assert (Hba : a - b <= 0 -> 2 ^ b = 2 ^ a * 2 ^ (b - a)).
  { intros H. rewrite <- Z.pow_add_r by lia. f_equal. lia. }
  destruct (d * pow2 (a - b) <=? n * pow2 (- (a - b))) eqn:E; cbv zeta.
  - apply Z.leb_le in E. split; [exact E|].
    destruct (Z_le_gt_dec 0 (a - b)) as [H|H].
    + rewrite (pow2_nonneg (a - b)) by lia. rewrite (pow2_nonpos (- (a - b))) by lia.
      specialize (Hab H).
      assert (Hp : 0 < 2 ^ (a - b)) by (apply Z.pow_pos_nonneg; lia).
      assert (2 ^ b * 2 ^ (a - b) <= d * 2 ^ (a - b))
        by (apply Z.mul_le_mono_nonneg_r; lia).
      lia.
    + rewrite (pow2_nonpos (a - b)) by lia. rewrite (pow2_nonneg (- (a - b))) by lia.
      replace (- (a - b)) with (b - a) by lia.
      specialize (Hba ltac:(lia)).
      assert (Hp : 0 < 2 ^ (b - a)) by (apply Z.pow_pos_nonneg; lia).
      assert (n * 2 ^ (b - a) < 2 * 2 ^ a * 2 ^ (b - a))
        by (apply Z.mul_lt_mono_pos_r; lia).
      lia.
  - apply Z.leb_gt in E.
    destruct (Z_le_gt_dec 1 (a - b)) as [H|H].
    + rewrite (pow2_nonneg (a - b)) in E by lia. rewrite (pow2_nonpos (- (a - b))) in E by lia.
      rewrite (pow2_nonneg (a - b - 1)) by lia. rewrite (pow2_nonpos (- (a - b - 1))) by lia.
      specialize (Hab ltac:(lia)).
      assert (Hs : 2 ^ (a - b) = 2 * 2 ^ (a - b - 1)).
      { rewrite <- Z.pow_succ_r by lia. f_equal. lia. }
      assert (Hp : 0 < 2 ^ (a - b - 1)) by (apply Z.pow_pos_nonneg; lia).
      assert (d * 2 ^ (a - b - 1) < 2 * 2 ^ b * 2 ^ (a - b - 1))
        by (apply Z.mul_lt_mono_pos_r; lia).
      lia.
    + rewrite (pow2_nonpos (a - b)) in E by lia. rewrite (pow2_nonneg (- (a - b))) in E by lia.
      rewrite (pow2_nonpos (a - b - 1)) by lia. rewrite (pow2_nonneg (- (a - b - 1))) by lia.
      replace (- (a - b)) with (b - a) in E by lia.
      replace (- (a - b - 1)) with (Z.succ (b - a)) by lia.
      rewrite Z.pow_succ_r by lia.
      specialize (Hba ltac:(lia)).
      assert (Hp : 0 < 2 ^ (b - a)) by (apply Z.pow_pos_nonneg; lia).
      assert (2 ^ a * 2 ^ (b - a) <= n * 2 ^ (b - a))
        by (apply Z.mul_le_mono_nonneg_r; lia).
      lia.
Qed.

Lemma pow2_ratio (i j : Z) :
  i <= j -> pow2 i * pow2 (- j) * 2 ^ (j - i) = pow2 j * pow2 (- i).
Proof.
  intros H.
  assert (Hadd : forall x y, 0 <= x -> 0 <= y -> 2 ^ x * 2 ^ y = 2 ^ (x + y))
    by (intros; now rewrite Z.pow_add_r).
  destruct (Z_le_gt_dec 0 i) as [Hi|Hi]; destruct (Z_le_gt_dec 0 j) as [Hj|Hj]; try lia.
  - rewrite (pow2_nonneg i), (pow2_nonneg j), (pow2_nonpos (- j)), (pow2_nonpos (- i)) by lia.
    rewrite !Z.mul_1_r, Hadd by lia. now replace (i + (j - i)) with j by lia.
  - rewrite (pow2_nonpos i), (pow2_nonneg j), (pow2_nonpos (- j)), (pow2_nonneg (- i)) by lia.
    rewrite !Z.mul_1_l, Hadd by lia. now replace (j + - i) with (j - i) by lia.
  - rewrite (pow2_nonpos i), (pow2_nonpos j), (pow2_nonneg (- j)), (pow2_nonneg (- i)) by lia.
    rewrite !Z.mul_1_l, Hadd by lia. now replace (- j + (j - i)) with (- i) by lia.
Qed.

(** The mantissa of the rounded value fits in 53 bits: it is at most
    [2 ^ 53], the value at which the next binade begins. *)
Lemma round64_mantissa (n d : Z) :
  0 < n -> 0 < d ->
  let e := Z.max (floor_log2 n d - 52) (-1074) in
  let m := round_half_even (n * pow2 (- e)) (d * pow2 e) in
  round64_pos n d = Qred (Qmake (m * pow2 e) (Z.to_pos (pow2 (- e)))) /\
  2 * Z.abs (m * (d * pow2 e) - n * pow2 (- e)) <= d * pow2 e /\
  0 <= m <= 2 ^ 53.
Proof.
  intros Hn Hd e m. split; [reflexivity|].
  pose proof (pow2_pos e) as He. pose proof (pow2_pos (- e)) as He'.
  assert (HD : 0 < d * pow2 e) by (apply Z.mul_pos_pos; lia).
  assert (Hnear : 2 * Z.abs (m * (d * pow2 e) - n * pow2 (- e)) <= d * pow2 e)
    by (apply round_half_even_nearest; exact HD).
  split; [exact Hnear|].
  destruct (floor_log2_spec n d Hn Hd) as [_ Hk]. cbv zeta in Hk.
  set (k := floor_log2 n d) in *.
  set (j := e + 52).
  assert (Hkj : k <= j) by (unfold j, e; lia).
  assert (Hj : n * pow2 (- j) < 2 * (d * pow2 j)).
  { pose proof (pow2_ratio k j Hkj) as Hr.
    pose proof (pow2_pos k). pose proof (pow2_pos (- k)).
    pose proof (pow2_pos j). pose proof (pow2_pos (- j)).
    assert (Hp : 1 <= 2 ^ (j - k)) by (apply (Z.pow_le_mono_r 2 0); lia).
    apply (Z.mul_lt_mono_pos_r (pow2 (- k))); [lia|].
    apply Z.le_lt_trans with (n * pow2 (- k) * (pow2 (- j) * 2 ^ (j - k))).
    - rewrite <- (Z.mul_1_r (n * pow2 (- j) * pow2 (- k))).
      replace (n * pow2 (- k) * (pow2 (- j) * 2 ^ (j - k)))
        with (n * pow2 (- j) * pow2 (- k) * 2 ^ (j - k)) by ring.
      apply Z.mul_le_mono_nonneg_l; [|exact Hp].
      apply Z.mul_nonneg_nonneg; [apply Z.mul_nonneg_nonneg|]; lia.
    - replace (2 * (d * pow2 j) * pow2 (- k))
        with (2 * (d * pow2 k) * (pow2 (- j) * 2 ^ (j - k))).
      2:{ transitivity (2 * d * (pow2 k * pow2 (- j) * 2 ^ (j - k))); [ring|].
          rewrite Hr. ring. }
      apply Z.mul_lt_mono_pos_r; [|exact Hk].
      apply Z.mul_pos_pos; lia. }
  assert (Hlt : n * pow2 (- e) < 2 ^ 53 * (d * pow2 e)).
  { assert (Hej : e <= j) by (unfold j; lia).
    pose proof (pow2_ratio e j Hej) as Hr. replace (j - e) with 52 in Hr by (unfold j; lia).
    pose proof (pow2_pos j). pose proof (pow2_pos (- j)).
    apply (Z.mul_lt_mono_pos_r (pow2 j)); [lia|].
    replace (n * pow2 (- e) * pow2 j) with (n * pow2 (- j) * (pow2 e * 2 ^ 52)).
    2:{ transitivity (n * (pow2 e * pow2 (- j) * 2 ^ 52)); [ring|].
        rewrite Hr. ring. }
    replace (2 ^ 53 * (d * pow2 e) * pow2 j) with (2 * (d * pow2 j) * (pow2 e * 2 ^ 52))
      by (change (2 ^ 53) with (2 * 2 ^ 52); ring).
    apply Z.mul_lt_mono_pos_r; [|exact Hj].
    apply Z.mul_pos_pos; [lia | reflexivity]. }
  assert (HN : 0 <= n * pow2 (- e)) by (apply Z.mul_nonneg_nonneg; lia).
  split.
  - destruct (Z_lt_le_dec m 0) as [Hneg|]; [|assumption]. exfalso.
    assert (m * (d * pow2 e) <= -1 * (d * pow2 e))
      by (apply Z.mul_le_mono_nonneg_r; lia).
    lia.
  - destruct (Z_le_gt_dec m (2 ^ 53)) as [|Hbig]; [assumption|]. exfalso.
    assert ((2 ^ 53 + 1) * (d * pow2 e) <= m * (d * pow2 e))
      by (apply Z.mul_le_mono_nonneg_r; lia).
    lia.
Qed.

(** ** Properties of the text operations *)

Lemma starts_with_spec (needle hay : string) :
  starts_with needle hay = true <-> exists post, hay = needle ++ post.
Proof.
  revert hay; induction needle as [|a n IH]; intros hay; simpl.
  - split; [intros _; now exists hay | reflexivity].
  - destruct hay as [|b h].
    + split; [discriminate | intros [post H]; discriminate].
    + rewrite andb_true_iff, Ascii.eqb_eq, IH. split.
      * intros [-> [post ->]]. now exists post.
      * intros [post H]. injection H as -> ->. split; [reflexivity | now exists post].
Qed.

Lemma contains_spec (needle hay : string) :
  contains needle hay = true <-> occurs_in needle hay.
Proof.
  unfold occurs_in. induction hay as [|b h IH]; simpl.
  - rewrite orb_false_r, starts_with_spec. split.
    + intros [post H]. exists EmptyString, post. assumption.
    + intros [pre [post H]]. destruct pre; simpl in H.
      * now exists post.
      * discriminate.
  - rewrite orb_true_iff, starts_with_spec, IH. split.
    + intros [[post H] | [pre [post H]]].
      * exists EmptyString, post. assumption.
      * exists (String b pre), post. simpl. now rewrite H.
    + intros [pre [post H]]. destruct pre as [|c pre]; simpl in H.
      * left. now exists post.
      * right. injection H as _ H. now exists pre, post.
Qed.

Lemma contains_ci_spec (needle hay : string) :
  contains_ci needle hay = true <-> occurs_in_ci needle hay.
Proof. apply contains_spec. Qed.

Lemma str_contains_any_spec (keywords : list string) (cell : option string) :
  str_contains_any keywords cell = true <->
  exists text kw, cell = Some text /\ In kw keywords /\ occurs_in_ci kw text.
Proof.
  destruct cell as [text|]; simpl.
  - rewrite existsb_exists. split.
    + intros [kw [Hin H]]. exists text, kw. now rewrite <- contains_ci_spec.
    + intros [t [kw [Heq [Hin H]]]]. injection Heq as <-.
      exists kw. now rewrite contains_ci_spec.
  - split; [discriminate | intros [t [kw [H _]]]; discriminate].
Qed.

(** ** Properties of the list operations *)

Section SortFacts.
Context {A : Type} (key : A -> Z).

Lemma insert_by_perm (x : A) (l : list A) : Permutation (insert_by key x l) (x :: l).
Proof.
  induction l as [|y l IH]; simpl.
  - apply Permutation_refl.
  - destruct (key x <=? key y).
    + apply Permutation_refl.
    + eapply perm_trans; [apply perm_skip, IH | apply perm_swap].
Qed.

Lemma stable_sort_perm (l : list A) : Permutation (stable_sort key l) l.
Proof.
  induction l as [|x l IH]; simpl.
  - apply perm_nil.
  - eapply perm_trans; [apply insert_by_perm | now apply perm_skip].
Qed.

Lemma stable_sort_In (l : list A) (x : A) : In x (stable_sort key l) <-> In x l.
Proof.
  split; apply Permutation_in; [| apply Permutation_sym]; apply stable_sort_perm.
Qed.

Lemma insert_by_sorted (x : A) (l : list A) :
  StronglySorted (key_le key) l -> StronglySorted (key_le key) (insert_by key x l).
Proof.
  induction 1 as [|y l Hs IH Hall]; simpl.
  - constructor; constructor.
  - destruct (key x <=? key y) eqn:E.
    + apply Z.leb_le in E. constructor.
      * now constructor.
      * constructor; [exact E|].
        eapply Forall_impl; [|exact Hall]. unfold key_le. intros; lia.
    + apply Z.leb_gt in E. constructor; [exact IH|].
      eapply Permutation_Forall; [apply Permutation_sym, insert_by_perm|].
      constructor; [unfold key_le; lia | exact Hall].
Qed.

Lemma stable_sort_sorted (l : list A) : StronglySorted (key_le key) (stable_sort key l).
Proof.
  induction l as [|x l IH]; simpl; [constructor | now apply insert_by_sorted].
Qed.

Lemma insert_by_stable (k : Z) (x : A) (l : list A) :
  filter (fun a => key a =? k) (insert_by key x l) = filter (fun a => key a =? k) (x :: l).
Proof.
  induction l as [|y l IH]; [reflexivity|].
  cbn [insert_by]. destruct (key x <=? key y) eqn:E; [reflexivity|].
  apply Z.leb_gt in E. cbn [filter] in *. rewrite IH.
  destruct (key y =? k) eqn:Ey, (key x =? k) eqn:Ex; try reflexivity.
  apply Z.eqb_eq in Ey, Ex. lia.
Qed.

Lemma stable_sort_stable (k : Z) (l : list A) :
  filter (fun a => key a =? k) (stable_sort key l) = filter (fun a => key a =? k) l.
Proof.
  induction l as [|x l IH]; [reflexivity|].
  cbn [stable_sort fold_right]. rewrite insert_by_stable. cbn [filter].
  fold (stable_sort key l). now rewrite IH.
Qed.

Lemma insert_by_head (x : A) (l : list A) :
  Forall (key_le key x) l -> insert_by key x l = x :: l.
Proof.
  destruct l as [|y l]; [reflexivity|]. intros H. inversion H as [|? ? Hy _]; subst.
  simpl. unfold key_le in Hy. apply Z.leb_le in Hy. now rewrite Hy.
Qed.

Lemma stable_sort_sorted_id (l : list A) : StronglySorted (key_le key) l -> stable_sort key l = l.
Proof.
  induction 1 as [|x l Hs IH Hall]; [reflexivity|].
  cbn [stable_sort fold_right]. fold (stable_sort key l). rewrite IH.
  now apply insert_by_head.
Qed.

End SortFacts.

Section ListFacts.
Context {A : Type}.

Lemma StronglySorted_weaken (R R' : A -> A -> Prop) (l : list A) :
  (forall a b, R a b -> R' a b) -> StronglySorted R l -> StronglySorted R' l.
Proof.
  intros HR. induction 1 as [|x l Hs IH Hall]; constructor.
  - exact IH.
  - eapply Forall_impl; [|exact Hall]. intros b. apply HR.
Qed.

Lemma StronglySorted_adjacent (R : A -> A -> Prop) (l1 l2 : list A) (a b : A) :
  StronglySorted R (l1 ++ a :: b :: l2) -> R a b.
Proof.
  induction l1 as [|x l1 IH]; simpl; intros H; inversion H as [|? ? Hs Hall]; subst.
  - now inversion Hall.
  - now apply IH.
Qed.

Lemma adjacent_pairs_split (l : list A) (a b : A) :
  In (a, b) (adjacent_pairs l) <-> exists l1 l2, l = (l1 ++ a :: b :: l2)%list.
Proof.
  induction l as [|x l IH].
  - simpl. split; [tauto | intros [l1 [l2 H]]; now destruct l1].
  - destruct l as [|y l].
    + simpl. split; [tauto|]. intros [l1 [l2 H]].
      destruct l1 as [|? [|? ?]]; discriminate.
    + change (adjacent_pairs (x :: y :: l)) with ((x, y) :: adjacent_pairs (y :: l)).
      simpl In. rewrite IH. split.
      * intros [H | [l1 [l2 H]]].
        -- injection H as -> ->. now exists [], l.
        -- exists (x :: l1), l2. simpl. now rewrite H.
      * intros [l1 [l2 H]]. destruct l1 as [|z l1]; simpl in H.
        -- left. now injection H as -> -> _.
        -- right. injection H as _ H. now exists l1, l2.
Qed.

Lemma py_sort_perm (key : A -> Z) (reverse : bool) (l : list A) :
  Permutation (py_sort key reverse l) l.
Proof. apply stable_sort_perm. Qed.

Lemma py_sort_In (key : A -> Z) (reverse : bool) (l : list A) (x : A) :
  In x (py_sort key reverse l) <-> In x l.
Proof. apply stable_sort_In. Qed.

Lemma py_sort_descending (key : A -> Z) (l : list A) :
  StronglySorted (fun a b => key a >= key b) (py_sort key true l).
Proof.
  eapply StronglySorted_weaken; [|apply stable_sort_sorted].
  unfold key_le. intros a b. simpl. lia.
Qed.

Lemma py_sort_ascending (key : A -> Z) (l : list A) :
  StronglySorted (fun a b => key a <= key b) (py_sort key false l).
Proof. apply (stable_sort_sorted key). Qed.

Lemma py_sort_stable (key : A -> Z) (reverse : bool) (k : Z) (l : list A) :
  filter (fun a => key a =? k) (py_sort key reverse l) = filter (fun a => key a =? k) l.
Proof.
  unfold py_sort. destruct reverse.
  - assert (Hext : forall a, (key a =? k) = (- key a =? - k)).
    { intros a. destruct (key a =? k) eqn:E1, (- key a =? - k) eqn:E2;
        try reflexivity; rewrite ?Z.eqb_eq, ?Z.eqb_neq in *; lia. }
    rewrite !(filter_ext _ _ Hext).
    apply (stable_sort_stable (fun a => - key a)).
  - apply stable_sort_stable.
Qed.

Lemma py_sort_ascending_id (key : A -> Z) (l : list A) :
  StronglySorted (fun a b => key a <= key b) l -> py_sort key false l = l.
Proof. apply (stable_sort_sorted_id key). Qed.

Lemma precedes_cons (x : A) (l : list A) (a b : A) :
  precedes (x :: l) a b <-> (a = x /\ In b l) \/ precedes l a b.
Proof.
  unfold precedes. split.
  - intros [l1 [l2 [l3 H]]]. destruct l1 as [|y l1]; simpl in H; injection H as -> ->.
    + left. split; [reflexivity|]. apply in_or_app. right. now left.
    + right. now exists l1, l2, l3.
  - intros [[-> Hin] | [l1 [l2 [l3 ->]]]].
    + apply in_split in Hin. destruct Hin as [l2 [l3 ->]]. now exists [], l2, l3.
    + now exists (x :: l1), l2, l3.
Qed.

Lemma precedes_nil (a b : A) : ~ precedes [] a b.
Proof. intros [l1 [l2 [l3 H]]]. now destruct l1. Qed.

Lemma precedes_In (l : list A) (a b : A) : precedes l a b -> In a l /\ In b l.
Proof.
  intros [l1 [l2 [l3 ->]]]. split.
  - apply in_or_app. right. now left.
  - apply in_or_app. right. right. apply in_or_app. right. now left.
Qed.

Lemma precedes_app (l l' : list A) (a b : A) :
  precedes (l ++ l') a b <->
  precedes l a b \/ (In a l /\ In b l') \/ precedes l' a b.
Proof.
  induction l as [|x l IH]; simpl.
  - split; [intros H; right; now right|].
    intros [H|[[[] _]|H]]; [now apply precedes_nil in H | exact H].
  - rewrite !precedes_cons, IH, in_app_iff.
    assert (Hsym : a = x <-> x = a) by (split; intros E; now symmetry).
    tauto.
Qed.

Lemma precedes_filter (f : A -> bool) (l : list A) (a b : A) :
  precedes (filter f l) a b -> precedes l a b.
Proof.
  induction l as [|x l IH]; simpl; [exact (fun H => H)|].
  destruct (f x).
  - rewrite !precedes_cons. intros [[-> H]|H].
    + left. split; [reflexivity|]. now apply filter_In in H.
    + right. now apply IH.
  - intros H. apply precedes_cons. right. now apply IH.
Qed.

Lemma precedes_filter_keep (f : A -> bool) (l : list A) (a b : A) :
  precedes l a b -> f a = true -> f b = true -> precedes (filter f l) a b.
Proof.
  intros H Ha Hb. induction l as [|x l IH]; [now apply precedes_nil in H|].
  apply precedes_cons in H. simpl. destruct H as [[-> Hin]|H].
  - rewrite Ha. apply precedes_cons. left. split; [reflexivity|].
    apply filter_In. now split.
  - destruct (f x); [apply precedes_cons; right|]; now apply IH.
Qed.

Lemma adjacent_pairs_snd (x : A) (l : list A) (a b : A) :
  In (a, b) (adjacent_pairs (x :: l)) -> In b l.
Proof.
  intros H. apply adjacent_pairs_split in H. destruct H as [l1 [l2 H]].
  destruct l1 as [|y l1]; simpl in H; injection H as _ ->.
  - now left.
  - apply in_or_app. right. right. now left.
Qed.

Lemma StronglySorted_no_between (R : A -> A -> Prop) (l1 l2 : list A) (a b r : A) :
  (forall x, R x x) ->
  StronglySorted R (l1 ++ a :: b :: l2) -> In r (l1 ++ a :: b :: l2) ->
  R r a \/ R b r.
Proof.
  intros Hrefl. induction l1 as [|x l1 IH]; simpl; intros Hs Hin.
  - inversion Hs as [|? ? Hs' _]; subst. inversion Hs' as [|? ? _ Hb]; subst.
    destruct Hin as [<-|[<-|Hin]]; auto.
    right. rewrite Forall_forall in Hb. now apply Hb.
  - inversion Hs as [|? ? Hs' Hx]; subst. destruct Hin as [<-|Hin]; [|now apply IH].
    left. rewrite Forall_forall in Hx. apply Hx. apply in_or_app. right. now left.
Qed.

End ListFacts.

Lemma precedes_flat_map {A B : Type} (g : A -> list B) (l : list A) (a b : B) :
  precedes (flat_map g l) a b ->
  (exists x, In x l /\ precedes (g x) a b) \/
  (exists x y, precedes l x y /\ In a (g x) /\ In b (g y)).
Proof.
  induction l as [|x l IH]; simpl; [intros H; now apply precedes_nil in H|].
  rewrite precedes_app. intros [H|[[Ha Hb]|H]].
  - left. exists x. split; [now left | exact H].
  - right. apply in_flat_map in Hb. destruct Hb as [y [Hy Hb]].
    exists x, y. split; [|now split]. apply precedes_cons. left. now split.
  - destruct (IH H) as [[z [Hz Hp]] | [z [y [Hp [Ha Hb]]]]].
    + left. exists z. split; [now right | exact Hp].
    + right. exists z, y. split; [|now split]. apply precedes_cons. now right.
Qed.

Lemma adjacent_pairs_precedes {A : Type} (R : A -> A -> Prop) (l : list A) (p q : A * A) :
  StronglySorted R l -> precedes (adjacent_pairs l) p q -> R (snd p) (snd q).
Proof.
  induction 1 as [|x l Hs IH Hall]; [intros H; now apply precedes_nil in H|].
  destruct l as [|y l]; [intros H; now apply precedes_nil in H|].
  change (adjacent_pairs (x :: y :: l)) with ((x, y) :: adjacent_pairs (y :: l)).
  rewrite precedes_cons. intros [[-> Hq]|H]; [|now apply IH].
  destruct q as [a b]. apply adjacent_pairs_snd in Hq. simpl.
  inversion Hs as [|? ? _ Hy]; subst. rewrite Forall_forall in Hy. now apply Hy.
Qed.

Lemma unique_In (l : list string) (x : string) : In x (unique String.eqb l) <-> In x l.
Proof.
  induction l as [|y l IH]; simpl; [tauto|].
  rewrite filter_In, IH, negb_true_iff, String.eqb_neq.
  destruct (String.eqb_spec y x); [subst; tauto|]. intuition congruence.
Qed.

Lemma unique_precedes (l : list string) (d1 d2 : string) :
  precedes (unique String.eqb l) d1 d2 ->
  d1 <> d2 /\ exists l1 l2, l = (l1 ++ d1 :: l2)%list /\ ~ In d2 l1.
Proof.
  induction l as [|x l IH]; simpl; [intros H; now apply precedes_nil in H|].
  rewrite precedes_cons. intros [[-> Hin]|H].
  - apply filter_In in Hin. destruct Hin as [_ Hne].
    apply negb_true_iff, String.eqb_neq in Hne.
    split; [exact Hne|]. exists [], l. split; [reflexivity | intros []].
  - destruct (precedes_In _ _ _ H) as [_ Hin2].
    apply filter_In in Hin2. destruct Hin2 as [_ Hne].
    apply negb_true_iff, String.eqb_neq in Hne.
    apply precedes_filter in H. destruct (IH H) as [Hd [l1 [l2 [-> Hnot]]]].
    split; [exact Hd|]. exists (x :: l1), l2. split; [reflexivity|].
    intros [E|Hin]; [now apply Hne | now apply Hnot].
Qed.

(** ** The position-change scanner *)

Section PositionChanges.
Variable to_timedelta_seconds : option string -> option (option Q).

Lemma driver_laps_of_In (laps : list LapRecord) (driver : string) (r : LapRecord) :
  In r (driver_laps_of laps driver) <-> In r laps /\ Driver r = driver.
Proof.
  unfold driver_laps_of, sort_values.
  now rewrite stable_sort_In, filter_In, String.eqb_eq.
Qed.

Lemma driver_laps_of_sorted (laps : list LapRecord) (driver : string) :
  StronglySorted (fun a b => LapNumber a <= LapNumber b) (driver_laps_of laps driver).
Proof. apply (stable_sort_sorted LapNumber). Qed.

Lemma found_sound (laps : list LapRecord) (m : Z) (pc : PositionChange) :
  In pc (position_changes_found to_timedelta_seconds laps m) ->
  (exists prev curr l1 l2,
      driver_laps_of laps (pc_driver pc) = (l1 ++ prev :: curr :: l2)%list /\
      reports pc prev curr) /\
  m <= Z.abs (change pc).
Proof.
  unfold position_changes_found. rewrite in_flat_map.
  intros [driver [_ H]]. rewrite in_flat_map in H.
  destruct H as [[prev curr] [Hpair Hpc]].
  unfold position_change_of in Hpc.
  destruct (Position prev) as [p|] eqn:Ep; [|contradiction].
  destruct (Position curr) as [c|] eqn:Ec; [|contradiction].
  destruct (negb (p =? c) && (m <=? Z.abs (p - c))) eqn:E; [|contradiction].
  destruct Hpc as [<-|[]]. cbn.
  apply andb_true_iff in E. destruct E as [_ E]. apply Z.leb_le in E.
  split; [|exact E].
  apply adjacent_pairs_split in Hpair. destruct Hpair as [l1 [l2 Hsplit]].
  exists prev, curr, l1, l2. split; [exact Hsplit|].
  assert (Hprev : In prev (driver_laps_of laps driver))
    by (rewrite Hsplit; apply in_or_app; right; now left).
  assert (Hcurr : In curr (driver_laps_of laps driver))
    by (rewrite Hsplit; apply in_or_app; right; right; now left).
  apply driver_laps_of_In in Hprev, Hcurr.
  unfold reports; cbn. repeat split; try tauto.
  pose proof (driver_laps_of_sorted laps driver) as Hs. rewrite Hsplit in Hs.
  exact (StronglySorted_adjacent _ _ _ _ _ Hs).
Qed.

Lemma found_complete (laps : list LapRecord) (m : Z) (driver : string)
    (prev curr : LapRecord) (l1 l2 : list LapRecord) (p c : Z) :
  driver_laps_of laps driver = (l1 ++ prev :: curr :: l2)%list ->
  Position prev = Some p -> Position curr = Some c ->
  p <> c -> m <= Z.abs (p - c) ->
  exists pc, In pc (position_changes_found to_timedelta_seconds laps m) /\
             pc_driver pc = driver /\ pc_lap pc = LapNumber curr /\
             from_position pc = p /\ to_position pc = c /\ change pc = p - c.
Proof.
  intros Hsplit Hp Hc Hne Hm.
  assert (Hprev : In prev (driver_laps_of laps driver))
    by (rewrite Hsplit; apply in_or_app; right; now left).
  apply driver_laps_of_In in Hprev. destruct Hprev as [Hin Hd].
  eexists. split.
  - unfold position_changes_found. apply in_flat_map. exists driver. split.
    + apply unique_In. rewrite <- Hd. now apply in_map.
    + apply in_flat_map. exists (prev, curr). split.
      * apply adjacent_pairs_split. now exists l1, l2.
      * unfold position_change_of. rewrite Hp, Hc.
        apply Z.eqb_neq in Hne. apply Z.leb_le in Hm. rewrite Hne, Hm. now left.
  - cbn. repeat split.
Qed.

Lemma position_change_of_In (m : Z) (driver : string) (pair : LapRecord * LapRecord)
    (pc : PositionChange) :
  In pc (position_change_of to_timedelta_seconds m driver pair) ->
  position_change_of to_timedelta_seconds m driver pair = [pc] /\
  pc_driver pc = driver /\ pc_lap pc = LapNumber (snd pair).
Proof.
  destruct pair as [prev curr]. unfold position_change_of.
  destruct (Position prev) as [p|]; [|contradiction].
  destruct (Position curr) as [c|]; [|contradiction].
  destruct (negb (p =? c) && (m <=? Z.abs (p - c))); [|contradiction].
  intros [<-|[]]. repeat split.
Qed.

(** The order of the scan: a record met before another is of the same
    driver on a lap that is not later, or of a driver who appears first in
    the lap table. *)
Lemma found_order (laps : list LapRecord) (m : Z) (a b : PositionChange) :
  precedes (position_changes_found to_timedelta_seconds laps m) a b ->
  (pc_driver a = pc_driver b /\ pc_lap a <= pc_lap b) \/
  first_appears_before laps (pc_driver a) (pc_driver b).
Proof.
  unfold position_changes_found. intros H. apply precedes_flat_map in H.
  destruct H as [[driver [_ H]] | [d1 [d2 [Hd [Ha Hb]]]]].
  - left. apply precedes_flat_map in H.
    destruct H as [[pair [_ H]] | [p [q [Hpq [Ha Hb]]]]].
    + exfalso. destruct (precedes_In _ _ _ H) as [Ha _].
      apply position_change_of_In in Ha. destruct Ha as [E _]. rewrite E in H.
      apply precedes_cons in H. destruct H as [[_ []] | H]. now apply precedes_nil in H.
    + apply position_change_of_In in Ha, Hb.
      destruct Ha as [_ [Ha1 Ha2]], Hb as [_ [Hb1 Hb2]].
      split; [congruence|]. rewrite Ha2, Hb2.
      exact (adjacent_pairs_precedes _ _ _ _ (driver_laps_of_sorted laps driver) Hpq).
  - right. apply in_flat_map in Ha, Hb.
    destruct Ha as [pa [_ Ha]], Hb as [pb [_ Hb]].
    apply position_change_of_In in Ha, Hb.
    destruct Ha as [_ [Ha _]], Hb as [_ [Hb _]]. rewrite Ha, Hb.
    apply unique_precedes in Hd. destruct Hd as [Hne [l1 [l2 [Hmap Hnot]]]].
    split; [exact Hne|].
    apply map_eq_app in Hmap. destruct Hmap as [r1 [r2 [-> [H1 H2]]]].
    apply map_eq_cons in H2. destruct H2 as [r [r3 [-> [Hr _]]]].
    exists r1, r, r3. split; [reflexivity|]. split; [exact Hr|].
    intros r' Hin E. apply Hnot. rewrite <- H1, <- E. now apply in_map.
Qed.

(** Two neighbours of a driver's rows in lap order have no row of the driver
    between them. *)
Lemma driver_laps_of_neighbours (laps : list LapRecord) (driver : string)
    (prev curr : LapRecord) (l1 l2 : list LapRecord) :
  driver_laps_of laps driver = (l1 ++ prev :: curr :: l2)%list ->
  In prev laps /\ In curr laps /\
  forall r, In r laps -> Driver r = driver ->
            LapNumber r <= LapNumber prev \/ LapNumber curr <= LapNumber r.
Proof.
  intros Hsplit.
  assert (Hprev : In prev (driver_laps_of laps driver))
    by (rewrite Hsplit; apply in_or_app; right; now left).
  assert (Hcurr : In curr (driver_laps_of laps driver))
    by (rewrite Hsplit; apply in_or_app; right; right; now left).
  apply driver_laps_of_In in Hprev, Hcurr.
  split; [tauto|]. split; [tauto|]. intros r Hin Hd.
  assert (Hr : In r (driver_laps_of laps driver)) by now apply driver_laps_of_In.
  pose proof (driver_laps_of_sorted laps driver) as Hs. rewrite Hsplit in Hs, Hr.
  apply (StronglySorted_no_between (fun a b => LapNumber a <= LapNumber b) l1 l2);
    [intros x; apply Z.le_refl | exact Hs | exact Hr].
Qed.

(** C1, as the code has it. Every position change reported with
    [min_change = m] comes from two rows of one driver that are neighbours in
    that driver's rows ordered by lap number: no row of the driver lies
    between them, and their lap numbers need not be consecutive. Its signed
    change is the previous position minus the current one and is at least
    [m] in absolute value; the list is in descending order of [|change|], and
    of two records of equal [|change|] the one reported first is of the same
    driver on a lap that is not later, or of a driver who appears first in
    the lap table: the order in which the scan met them. Two neighbouring
    rows with positions [p] and [c], [|p - c| >= m] and [p <> c], are
    reported with change [p - c]: for PER, fifth on lap 9 and twelfth on lap
    10, and [min_change = 5], the record goes from 5 to 12 with change -7. *)
Theorem analyze_position_changes_spec :
  forall (laps : list LapRecord) (messages : option (list RaceControlMessage))
         (results : option (list ResultRow)) (m : Z),
    let self := {| lap_data := Some laps; race_control := messages;
                   session_results := results |} in
    let reported := analyze_position_changes to_timedelta_seconds self m in
    (forall pc, In pc reported ->
       (exists prev curr l1 l2,
           driver_laps_of laps (pc_driver pc) = (l1 ++ prev :: curr :: l2)%list /\
           reports pc prev curr /\
           In prev laps /\ In curr laps /\
           forall r, In r laps -> Driver r = pc_driver pc ->
                     LapNumber r <= LapNumber prev \/ LapNumber curr <= LapNumber r) /\
       m <= Z.abs (change pc)) /\
    StronglySorted (fun a b => Z.abs (change a) >= Z.abs (change b)) reported /\
    (forall a b,
        precedes reported a b -> Z.abs (change a) = Z.abs (change b) ->
        (pc_driver a = pc_driver b /\ pc_lap a <= pc_lap b) \/
        first_appears_before laps (pc_driver a) (pc_driver b)) /\
    (forall k,
        filter (fun pc => Z.abs (change pc) =? k) reported =
        filter (fun pc => Z.abs (change pc) =? k)
               (position_changes_found to_timedelta_seconds laps m)) /\
    (forall driver prev curr l1 l2 p c,
        driver_laps_of laps driver = (l1 ++ prev :: curr :: l2)%list ->
        Position prev = Some p -> Position curr = Some c ->
        p <> c -> m <= Z.abs (p - c) ->
        exists pc, In pc reported /\
                   pc_driver pc = driver /\ pc_lap pc = LapNumber curr /\
                   from_position pc = p /\ to_position pc = c /\ change pc = p - c) /\
    (exists pc, analyze_position_changes to_timedelta_seconds
                  (Samples.analyzer_of Samples.per_laps [] []) 5 = [pc] /\
                pc_driver pc = "PER" /\ pc_lap pc = 10 /\
                from_position pc = 5 /\ to_position pc = 12 /\ change pc = -7).
Proof.
  intros laps messages results m self reported. subst reported.
  unfold analyze_position_changes. cbn [self lap_data].
  split; [|split; [|split; [|split; [|split]]]].
  - intros pc H. apply py_sort_In in H. apply found_sound in H.
    destruct H as [[prev [curr [l1 [l2 [Hsplit Hrep]]]]] Hm].
    split; [|exact Hm]. exists prev, curr, l1, l2.
    split; [exact Hsplit|]. split; [exact Hrep|].
    now apply (driver_laps_of_neighbours laps (pc_driver pc) prev curr l1 l2).
  - apply (py_sort_descending (fun x => Z.abs (change x))).
  - intros a b H Hk. apply (found_order laps m).
    apply (precedes_filter (fun pc => Z.abs (change pc) =? Z.abs (change a))).
    rewrite <- (py_sort_stable (fun x => Z.abs (change x)) true).
    apply precedes_filter_keep; [exact H | apply Z.eqb_refl | apply Z.eqb_eq; now symmetry].
  - intros k. apply (py_sort_stable (fun x => Z.abs (change x))).
  - intros driver prev curr l1 l2 p c Hsplit Hp Hc Hne Hm.
    destruct (found_complete laps m driver prev curr l1 l2 p c Hsplit Hp Hc Hne Hm)
      as [pc [Hin Hrest]].
    exists pc. split; [now apply py_sort_In | exact Hrest].
  - eexists. split; [reflexivity|]. cbn. repeat split.
Qed.

End PositionChanges.

(** C1 fails as it is stated: VER has rows for the laps 1 and 3 and none for
    lap 2; the two rows are neighbours in lap order, and the change from
    first to ninth is reported on lap 3 though the laps are not consecutive. *)
Lemma skipped_lap_reported :
  (exists prev curr,
      Samples.skipped_lap = [prev; curr] /\
      Driver prev = "VER" /\ Driver curr = "VER" /\
      LapNumber prev = 1 /\ LapNumber curr = 3 /\
      LapNumber curr <> LapNumber prev + 1) /\
  (forall parse : option string -> option (option Q),
      map (fun pc => (pc_driver pc, pc_lap pc, from_position pc, to_position pc, change pc))
          (analyze_position_changes parse
             (Samples.analyzer_of Samples.skipped_lap [] []) 5)
      = [("VER", 3, 1, 9, -8)]).
Proof.
  split.
  - eexists. eexists. split; [reflexivity|]. cbn. repeat split. lia.
  - intros parse. reflexivity.
Qed.

(** ** The incident extractor *)

Section Incidents.
Variable _get_car_telemetry_data : string -> Z -> option CarTelemetry.

Lemma incident_of_message_keys (self : F1RaceAnalyzer)
    (messages : list RaceControlMessage) :
  map incident_key (flat_map (incident_of_message _get_car_telemetry_data self) messages)
  = map message_key (filter is_incident_message messages).
Proof.
  induction messages as [|m ms IH]; [reflexivity|].
  cbn [flat_map filter]. rewrite map_app, IH.
  unfold is_incident_message at 2, incident_of_message.
  destruct (Message m) as [text|] eqn:E.
  - destruct (str_contains_any incident_keywords (Some text)); [|reflexivity].
    cbn. unfold message_key. now rewrite E.
  - reflexivity.
Qed.

Lemma analyze_incidents_In (self : F1RaceAnalyzer) (inc : Incident) :
  In inc (analyze_incidents _get_car_telemetry_data self) ->
  exists messages m,
    race_control self = Some messages /\ In m messages /\
    Message m = Some (inc_message inc) /\ is_incident_message m = true /\
    inc_lap inc = Lap m /\
    inc_drivers inc =
      (if contains "CAR" (inc_message inc)
       then re_findall "CAR " is_digit (inc_message inc) else []) /\
    steward_action inc = _get_steward_action (inc_message inc).
Proof.
  unfold analyze_incidents.
  destruct (race_control self) as [messages|]; [|contradiction].
  destruct (lap_data self); [|contradiction].
  rewrite in_flat_map. intros [m [Hm H]]. unfold incident_of_message in H.
  destruct (Message m) as [text|] eqn:E; [|contradiction].
  destruct (str_contains_any incident_keywords (Some text)) eqn:Ek; [|contradiction].
  destruct H as [<-|[]]. exists messages, m. cbn.
  unfold is_incident_message. rewrite E. repeat split; auto.
Qed.

Lemma analyze_incidents_complete (laps : list LapRecord)
    (messages : list RaceControlMessage) (results : option (list ResultRow))
    (m : RaceControlMessage) (text : string) :
  In m messages -> Message m = Some text -> is_incident_message m = true ->
  exists inc,
    In inc (analyze_incidents _get_car_telemetry_data
              {| lap_data := Some laps; race_control := Some messages;
                 session_results := results |}) /\
    inc_message inc = text /\ inc_lap inc = Lap m.
Proof.
  intros Hin Htext Hk. unfold analyze_incidents. cbn [race_control lap_data].
  eexists. split.
  - apply in_flat_map. exists m. split; [exact Hin|].
    unfold is_incident_message in Hk. unfold incident_of_message.
    rewrite Htext in *. rewrite Hk. now left.
  - cbn. split; reflexivity.
Qed.


Lemma steward_action_first_match (message : string)
    (before after : list (string * string)) (pattern action : string) :
  steward_checks = (before ++ (pattern, action) :: after)%list ->
  (forall p a, In (p, a) before -> ~ occurs_in p message) ->
  occurs_in pattern message ->
  _get_steward_action message = action.
Proof.
  intros Hsplit Hbefore Hocc. unfold _get_steward_action.
  assert (Hno : forall p a, In (p, a) before -> contains p message = false).
  { intros p a Hin. destruct (contains p message) eqn:E; [|reflexivity].
    apply contains_spec in E. now apply Hbefore in Hin. }
  apply contains_spec in Hocc. unfold steward_checks in Hsplit.
  destruct before as [|[p1 a1] before]; simpl in Hsplit.
  { injection Hsplit as <- <- _. now rewrite Hocc. }
  injection Hsplit as <- <- Hsplit. rewrite (Hno _ _ (or_introl eq_refl)).
  destruct before as [|[p2 a2] before]; simpl in Hsplit.
  { injection Hsplit as <- <- _. now rewrite Hocc. }
  injection Hsplit as <- <- Hsplit. rewrite (Hno _ _ (or_intror (or_introl eq_refl))).
  destruct before as [|[p3 a3] before]; simpl in Hsplit.
  { injection Hsplit as <- <- _. now rewrite Hocc. }
  injection Hsplit as <- <- Hsplit.
  rewrite (Hno _ _ (or_intror (or_intror (or_introl eq_refl)))).
  destruct before as [|[p4 a4] before]; simpl in Hsplit.
  { injection Hsplit as <- <- _. now rewrite Hocc. }
  injection Hsplit as <- <- Hsplit.
  rewrite (Hno _ _ (or_intror (or_intror (or_intror (or_introl eq_refl))))).
  destruct before as [|[p5 a5] before]; simpl in Hsplit.
  { injection Hsplit as <- <- _. now rewrite Hocc. }
  injection Hsplit as _ _ Hsplit. destruct before; discriminate.
Qed.

Lemma steward_action_unknown (message : string) :
  (forall p a, In (p, a) steward_checks -> ~ occurs_in p message) ->
  _get_steward_action message = "Unknown".
Proof.
  intros H. unfold _get_steward_action.
  assert (Hno : forall p a, In (p, a) steward_checks -> contains p message = false).
  { intros p a Hin. destruct (contains p message) eqn:E; [|reflexivity].
    apply contains_spec in E. now apply H in Hin. }
  rewrite (Hno "NO FURTHER ACTION" "No further action") by (simpl; tauto).
  rewrite (Hno "UNDER INVESTIGATION" "Under investigation") by (simpl; tauto).
  rewrite (Hno "WILL BE INVESTIGATED" "Will be investigated after race") by (simpl; tauto).
  rewrite (Hno "DELETED" "Lap time deleted") by (simpl; tauto).
  rewrite (Hno "NOTED" "Noted") by (simpl; tauto).
  reflexivity.
Qed.

Lemma collision_message_facts :
  is_incident_message (Samples.message_row (Some 63) Samples.collision_message) = true /\
  contains "CAR" Samples.collision_message = true /\
  re_findall "CAR " is_digit Samples.collision_message = ["1"; "44"] /\
  _get_steward_action Samples.collision_message = "Under investigation".
Proof. vm_compute. repeat split. Qed.

(** C3. The steward action is that of the first check, in the order NO
    FURTHER ACTION, UNDER INVESTIGATION, WILL BE INVESTIGATED, DELETED,
    NOTED, whose text occurs in the message, and 'Unknown' when none does.
    For a race-control row of lap 63 with the text "CAR 1 (VER) AND CAR 44
    (HAM) COLLISION ON LAP 63 - UNDER INVESTIGATION" the extractor returns
    one incident: lap 63, drivers "1" and "44", under investigation. *)
Theorem steward_action_spec :
  forall message : string,
    (forall before after pattern action,
        steward_checks = (before ++ (pattern, action) :: after)%list ->
        (forall p a, In (p, a) before -> ~ occurs_in p message) ->
        occurs_in pattern message ->
        _get_steward_action message = action) /\
    ((forall p a, In (p, a) steward_checks -> ~ occurs_in p message) ->
     _get_steward_action message = "Unknown") /\
    (forall (laps : list LapRecord) (results : option (list ResultRow)),
        exists inc,
          analyze_incidents _get_car_telemetry_data
            {| lap_data := Some laps;
               race_control :=
                 Some [Samples.message_row (Some 63) Samples.collision_message];
               session_results := results |} = [inc] /\
          inc_lap inc = Some 63 /\
          inc_message inc = Samples.collision_message /\
          inc_drivers inc = ["1"; "44"] /\
          steward_action inc = "Under investigation").
Proof.
  intros message. split; [|split].
  - intros before after pattern action. apply steward_action_first_match.
  - apply steward_action_unknown.
  - intros laps results.
    destruct collision_message_facts as [Hk [Hcar [Hall Hact]]].
    unfold analyze_incidents. cbn [race_control lap_data flat_map].
    unfold is_incident_message in Hk. unfold incident_of_message.
    cbn [Samples.message_row Message] in *. rewrite Hk.
    eexists. split; [reflexivity|].
    cbn [inc_lap inc_message inc_drivers steward_action Lap].
    rewrite Hcar, Hall, Hact. repeat split.
Qed.

End Incidents.

(** ** The telemetry windows *)

Section Windows.
Variable _get_car_telemetry_data : string -> Z -> option CarTelemetry.

Lemma find_lap_Some (laps : list LapRecord) (driver : string) (n : Z) (r : LapRecord) :
  find_lap laps driver n = Some r -> In r laps /\ Driver r = driver /\ LapNumber r = n.
Proof.
  unfold find_lap. intros H. apply find_some in H. destruct H as [Hin H].
  apply andb_true_iff in H. destruct H as [Hd Hn].
  apply String.eqb_eq in Hd. apply Z.eqb_eq in Hn. auto.
Qed.

Lemma find_lap_None (laps : list LapRecord) (driver : string) (n : Z) :
  find_lap laps driver n = None -> ~ has_lap laps driver n.
Proof.
  unfold find_lap. intros H [r [Hin [Hd Hn]]].
  apply (find_none _ _ H) in Hin.
  rewrite Hd, Hn, String.eqb_refl, Z.eqb_refl in Hin. discriminate.
Qed.

Lemma has_lap_find (laps : list LapRecord) (driver : string) (n : Z) :
  has_lap laps driver n <-> exists r, find_lap laps driver n = Some r.
Proof.
  split.
  - intros H. destruct (find_lap laps driver n) as [r|] eqn:E.
    + now exists r.
    + now apply find_lap_None in E.
  - intros [r H]. exists r. now apply find_lap_Some.
Qed.

Lemma dict_keys_In {V : Type} (d : list (Z * V)) (n : Z) :
  In n (dict_keys d) <-> exists v, In (n, v) d.
Proof.
  unfold dict_keys. rewrite in_map_iff. split.
  - intros [[k v] [Hk Hin]]. simpl in Hk. subst. now exists v.
  - intros [v Hin]. now exists (n, v).
Qed.

Lemma incident_lap_window_In (laps : list LapRecord) (driver : string) (L n : Z)
    (t : LapTelemetry) :
  In (n, t) (incident_lap_window _get_car_telemetry_data laps driver L) <->
  L - 2 <= n <= L + 2 /\ 1 <= n /\
  exists r, find_lap laps driver n = Some r /\
            t = telemetry_of_lap n r
                  (Some (match TrackStatus r with Some s => s | None => 1 end))
                  (_get_car_telemetry_data driver n).
Proof.
  unfold incident_lap_window. rewrite in_flat_map. split.
  - intros [k [Hk H]]. destruct (k <=? 0) eqn:E; [contradiction|].
    apply Z.leb_gt in E.
    destruct (find_lap laps driver k) as [r|] eqn:Er; [|contradiction].
    destruct H as [H|[]]. injection H as -> <-.
    split; [simpl in Hk; lia|]. split; [lia|]. now exists r.
  - intros [Hw [Hpos [r [Hr ->]]]]. exists n. split.
    + simpl. lia.
    + assert (E : (n <=? 0) = false) by (apply Z.leb_gt; lia).
      rewrite E, Hr. now left.
Qed.

Lemma violation_lap_window_In (laps : list LapRecord) (driver : string) (L n : Z)
    (t : LapTelemetry) :
  In (n, t) (violation_lap_window laps driver L) <->
  L - 1 <= n <= L + 1 /\ 1 <= n /\
  exists r, find_lap laps driver n = Some r /\ t = telemetry_of_lap n r None None.
Proof.
  unfold violation_lap_window. rewrite in_flat_map. split.
  - intros [k [Hk H]]. destruct (k <=? 0) eqn:E; [contradiction|].
    apply Z.leb_gt in E.
    destruct (find_lap laps driver k) as [r|] eqn:Er; [|contradiction].
    destruct H as [H|[]]. injection H as -> <-.
    split; [simpl in Hk; lia|]. split; [lia|]. now exists r.
  - intros [Hw [Hpos [r [Hr ->]]]]. exists n. split.
    + simpl. lia.
    + assert (E : (n <=? 0) = false) by (apply Z.leb_gt; lia).
      rewrite E, Hr. now left.
Qed.

Lemma incident_window_keys (laps : list LapRecord) (driver : string) (L n : Z) :
  In n (dict_keys (incident_lap_window _get_car_telemetry_data laps driver L)) <->
  L - 2 <= n <= L + 2 /\ 1 <= n /\ has_lap laps driver n.
Proof.
  rewrite dict_keys_In, has_lap_find. split.
  - intros [t H]. apply incident_lap_window_In in H.
    destruct H as [Hw [Hp [r [Hr _]]]]. repeat split; try lia. now exists r.
  - intros [Hw [Hp [r Hr]]]. eexists. apply incident_lap_window_In.
    split; [exact Hw|]. split; [exact Hp|]. exists r. split; [exact Hr | reflexivity].
Qed.

Lemma violation_window_keys (laps : list LapRecord) (driver : string) (L n : Z) :
  In n (dict_keys (violation_lap_window laps driver L)) <->
  L - 1 <= n <= L + 1 /\ 1 <= n /\ has_lap laps driver n.
Proof.
  rewrite dict_keys_In, has_lap_find. split.
  - intros [t H]. apply violation_lap_window_In in H.
    destruct H as [Hw [Hp [r [Hr _]]]]. repeat split; try lia. now exists r.
  - intros [Hw [Hp [r Hr]]]. eexists. apply violation_lap_window_In.
    split; [exact Hw|]. split; [exact Hp|]. exists r. split; [exact Hr | reflexivity].
Qed.

Lemma dict_set_In {V : Type} (k k' : string) (v v' : V) (d : list (string * V)) :
  In (k', v') (dict_set String.eqb k v d) -> (k', v') = (k, v) \/ In (k', v') d.
Proof.
  induction d as [|[k0 v0] d IH]; simpl.
  - intros [H|[]]. now left.
  - destruct (String.eqb k0 k); simpl; intros [H|H]; auto.
    destruct (IH H); auto.
Qed.

(** Every entry of the incident correlator's result holds the window of its
    driver and the analysis of that window. *)
Lemma _analyze_incident_telemetry_entries (self : F1RaceAnalyzer)
    (incident_lap : option Z) (drivers : list string)
    (abbrev : string) (dt : DriverTelemetry) :
  In (abbrev, dt)
     (_analyze_incident_telemetry _get_car_telemetry_data self incident_lap drivers) ->
  exists laps L,
    lap_data self = Some laps /\ incident_lap = Some L /\ L <> 0 /\
    dt_lap_data dt = incident_lap_window _get_car_telemetry_data laps abbrev L /\
    analysis dt = _analyze_telemetry_patterns (dt_lap_data dt) L.
Proof.
  unfold _analyze_incident_telemetry.
  destruct incident_lap as [L|]; [|contradiction].
  destruct (lap_data self) as [laps|] eqn:El.
  2:{ destruct L, drivers; contradiction. }
  assert (HL : L = 0 \/ L <> 0) by lia. destruct HL as [->|HL]; [contradiction|].
  set (step := fun (telemetry_analysis : list (string * DriverTelemetry))
                   (driver_num : string) => _).
  assert (Hinv : forall ds acc,
             (forall a d, In (a, d) acc ->
                dt_lap_data d = incident_lap_window _get_car_telemetry_data laps a L /\
                analysis d = _analyze_telemetry_patterns (dt_lap_data d) L) ->
             forall a d, In (a, d) (fold_left step ds acc) ->
                dt_lap_data d = incident_lap_window _get_car_telemetry_data laps a L /\
                analysis d = _analyze_telemetry_patterns (dt_lap_data d) L).
  { induction ds as [|x ds IH]; intros acc Hacc a d; simpl; [apply Hacc|].
    apply IH. intros a' d' Hin. unfold step in Hin.
    destruct (_get_driver_from_car_number self x) as [ab|]; [|now apply Hacc].
    destruct ab as [|c ab]; [now apply Hacc|].
    destruct (incident_lap_window _get_car_telemetry_data laps (String c ab) L)
      as [|e w] eqn:Ew; [now apply Hacc|].
    apply dict_set_In in Hin. destruct Hin as [Hin|Hin]; [|now apply Hacc].
    injection Hin as -> ->. cbn [dt_lap_data analysis]. now rewrite Ew. }
  intros H. exists laps, L. repeat split; try assumption.
  - destruct L; [contradiction| |]; destruct drivers; try contradiction;
      eapply Hinv; try exact H; intros ? ? [].
  - destruct L; [contradiction| |]; destruct drivers; try contradiction;
      eapply Hinv; try exact H; intros ? ? [].
Qed.

Lemma dict_set_keys {V : Type} (k k0 : string) (v : V) (d : list (string * V)) :
  In k (map fst (dict_set String.eqb k0 v d)) <-> k = k0 \/ In k (map fst d).
Proof.
  induction d as [|[k1 v1] d IH]; simpl.
  - intuition.
  - destruct (String.eqb_spec k1 k0) as [->|Hne]; simpl.
    + intuition.
    + rewrite IH. intuition.
Qed.

Lemma dict_set_NoDup {V : Type} (k0 : string) (v : V) (d : list (string * V)) :
  NoDup (map fst d) -> NoDup (map fst (dict_set String.eqb k0 v d)).
Proof.
  induction d as [|[k1 v1] d IH]; simpl; intros H.
  - constructor; [intros [] | constructor].
  - inversion H as [|? ? Hk Hnd]; subst.
    destruct (String.eqb_spec k1 k0) as [->|Hne]; simpl.
    + now constructor.
    + constructor; [|now apply IH]. rewrite dict_set_keys. intros [->|Hin]; tauto.
Qed.

Lemma telemetry_step_cases (self : F1RaceAnalyzer) (laps : list LapRecord) (L : Z)
    (acc : list (string * DriverTelemetry)) (n : string) :
  (telemetry_step _get_car_telemetry_data self laps L acc n = acc /\
   forall k, ~ resolves_in_window _get_car_telemetry_data self laps L n k) \/
  (exists k,
      resolves_in_window _get_car_telemetry_data self laps L n k /\
      telemetry_step _get_car_telemetry_data self laps L acc n =
      dict_set String.eqb k
        {| driver_number := n;
           dt_lap_data := incident_lap_window _get_car_telemetry_data laps k L;
           analysis :=
             _analyze_telemetry_patterns
               (incident_lap_window _get_car_telemetry_data laps k L) L |}
        acc).
Proof.
  unfold telemetry_step, resolves_in_window.
  destruct (_get_driver_from_car_number self n) as [k|] eqn:Ek.
  2:{ left. split; [reflexivity|]. intros k [H _]. discriminate. }
  destruct k as [|c k].
  { left. split; [reflexivity|]. intros k [H [Hne _]]. injection H as <-. contradiction. }
  destruct (incident_lap_window _get_car_telemetry_data laps (String c k) L)
    as [|e w] eqn:Ew.
  { left. split; [reflexivity|]. intros k' [H [_ Hw]]. injection H as <-. contradiction. }
  right. exists (String c k). rewrite Ew. repeat split; discriminate.
Qed.

Lemma telemetry_fold (self : F1RaceAnalyzer) (laps : list LapRecord) (L : Z)
    (drivers : list string) (acc : list (string * DriverTelemetry)) :
  let step := telemetry_step _get_car_telemetry_data self laps L in
  let good entry :=
    resolves_in_window _get_car_telemetry_data self laps L
      (driver_number (snd entry)) (fst entry) in
  (NoDup (map fst acc) -> NoDup (map fst (fold_left step drivers acc))) /\
  (forall k, In k (map fst (fold_left step drivers acc)) <->
             In k (map fst acc) \/
             exists n, In n drivers /\
                       resolves_in_window _get_car_telemetry_data self laps L n k) /\
  (Forall good acc ->
   Forall (fun entry => good entry /\ (In entry acc \/ In (driver_number (snd entry)) drivers))
          (fold_left step drivers acc)).
Proof.
  intros step good. revert acc. induction drivers as [|n ds IH]; intros acc.
  - simpl. split; [auto|]. split.
    + intros k. split; [auto | intros [H|[n [[] _]]]; exact H].
    + intros H. apply Forall_forall. intros e He. rewrite Forall_forall in H. auto.
  - cbn [fold_left]. destruct (IH (step acc n)) as [IHn [IHk IHg]].
    destruct (telemetry_step_cases self laps L acc n) as [[Heq Hno] | [k [Hres Heq]]];
      fold step in Heq; rewrite Heq in *.
    + split; [exact IHn|]. split.
      * intros k. rewrite IHk. split.
        -- intros [H|[n' [Hn' Hr]]]; [now left | right; exists n'; split; [now right|exact Hr]].
        -- intros [H|[n' [[<-|Hn'] Hr]]]; [now left | now apply Hno in Hr |].
           right. now exists n'.
      * intros Hacc. specialize (IHg Hacc). eapply Forall_impl; [|exact IHg].
        intros e [Hg [He|He]]; (split; [exact Hg|]); [now left | right; now right].
    + split; [intros H; apply IHn; now apply dict_set_NoDup|]. split.
      * intros k'. rewrite IHk, dict_set_keys. split.
        -- intros [[->|H]|[n' [Hn' Hr]]].
           ++ right. exists n. split; [now left | exact Hres].
           ++ now left.
           ++ right. exists n'. split; [now right | exact Hr].
        -- intros [H|[n' [[<-|Hn'] Hr]]].
           ++ left. now right.
           ++ left. left. destruct Hr as [Hr _], Hres as [Hres _]. congruence.
           ++ right. now exists n'.
      * intros Hacc.
        assert (Hstep : Forall good
                  (dict_set String.eqb k
                     {| driver_number := n;
                        dt_lap_data := incident_lap_window _get_car_telemetry_data laps k L;
                        analysis :=
                          _analyze_telemetry_patterns
                            (incident_lap_window _get_car_telemetry_data laps k L) L |}
                     acc)).
        { apply Forall_forall. intros [k' d'] He. apply dict_set_In in He.
          destruct He as [He|He].
          - injection He as -> ->. exact Hres.
          - rewrite Forall_forall in Hacc. now apply Hacc. }
        specialize (IHg Hstep). eapply Forall_impl; [|exact IHg].
        intros [k' d'] [Hg [He|He]]; (split; [exact Hg|]); [|right; now right].
        apply dict_set_In in He. destruct He as [He|He]; [|now left].
        injection He as -> ->. right. now left.
Qed.

Lemma incident_telemetry_fold (self : F1RaceAnalyzer) (laps : list LapRecord) (L : Z)
    (drivers : list string) :
  lap_data self = Some laps -> L <> 0 ->
  _analyze_incident_telemetry _get_car_telemetry_data self (Some L) drivers =
  fold_left (telemetry_step _get_car_telemetry_data self laps L) drivers [].
Proof.
  intros El HL. unfold _analyze_incident_telemetry. rewrite El.
  destruct L; [contradiction| |]; now destruct drivers.
Qed.

(** C4. The per-lap map of an incident on lap [L] has a key [n] exactly when
    [L - 2 <= n <= L + 2], [n >= 1] and the driver has a row for lap [n];
    the map of a track-limits violation likewise with [L - 1 .. L + 1]. So a
    lap without a row has no entry, and for an incident on lap 1 no key is
    below 1. The maps are there: a car number of the incident that the
    results resolve to a driver with a row in the window has an entry, and a
    violation has its map whenever lap data is loaded. For VER with rows for
    the laps 1, 3 and 4, the window of an incident on lap 1 is the laps 1 and
    3, and that of a violation on lap 4 the laps 3 and 4. *)
Theorem telemetry_window_spec :
  forall (self : F1RaceAnalyzer),
    (forall L drivers abbrev dt,
        In (abbrev, dt)
           (_analyze_incident_telemetry _get_car_telemetry_data self (Some L) drivers) ->
        exists laps,
          lap_data self = Some laps /\
          forall n, In n (dict_keys (dt_lap_data dt)) <->
                    L - 2 <= n <= L + 2 /\ 1 <= n /\ has_lap laps abbrev n) /\
    (forall L abbrev vt,
        _analyze_violation_telemetry self abbrev L = Some vt ->
        exists laps,
          lap_data self = Some laps /\
          forall n, In n (dict_keys (vt_lap_data vt)) <->
                    L - 1 <= n <= L + 1 /\ 1 <= n /\ has_lap laps abbrev n) /\
    (forall drivers abbrev dt n,
        In (abbrev, dt)
           (_analyze_incident_telemetry _get_car_telemetry_data self (Some 1) drivers) ->
        In n (dict_keys (dt_lap_data dt)) -> 1 <= n <= 3) /\
    (forall laps L drivers driver_num abbrev n,
        lap_data self = Some laps -> L <> 0 -> In driver_num drivers ->
        _get_driver_from_car_number self driver_num = Some abbrev ->
        abbrev <> EmptyString ->
        L - 2 <= n <= L + 2 -> 1 <= n -> has_lap laps abbrev n ->
        exists dt,
          In (abbrev, dt)
             (_analyze_incident_telemetry _get_car_telemetry_data self (Some L) drivers) /\
          In n (dict_keys (dt_lap_data dt))) /\
    (forall laps L abbrev,
        lap_data self = Some laps ->
        exists vt,
          _analyze_violation_telemetry self abbrev L = Some vt /\
          forall n, L - 1 <= n <= L + 1 -> 1 <= n -> has_lap laps abbrev n ->
                    In n (dict_keys (vt_lap_data vt))) /\
    map (fun entry => (fst entry, dict_keys (dt_lap_data (snd entry))))
        (_analyze_incident_telemetry _get_car_telemetry_data
           (Samples.analyzer_of Samples.gap_laps [] Samples.grid) (Some 1) ["1"; "44"])
    = [("VER", [1; 3])] /\
    option_map (fun vt => dict_keys (vt_lap_data vt))
               (_analyze_violation_telemetry
                  (Samples.analyzer_of Samples.gap_laps [] Samples.grid) "VER" 4)
    = Some [3; 4].
Proof.
  intros self. split; [|split; [|split; [|split; [|split; [|split]]]]].
  - intros L drivers abbrev dt H.
    apply _analyze_incident_telemetry_entries in H.
    destruct H as [laps [L' [Hl [HL [_ [Hw _]]]]]]. injection HL as <-.
    exists laps. split; [exact Hl|]. intros n. rewrite Hw. apply incident_window_keys.
  - intros L abbrev vt H. unfold _analyze_violation_telemetry in H.
    destruct (lap_data self) as [laps|]; [|discriminate].
    injection H as <-. exists laps. split; [reflexivity|].
    intros n. cbn. apply violation_window_keys.
  - intros drivers abbrev dt n H Hn.
    apply _analyze_incident_telemetry_entries in H.
    destruct H as [laps [L' [Hl [HL [_ [Hw _]]]]]]. injection HL as <-.
    rewrite Hw in Hn. apply incident_window_keys in Hn. lia.
  - intros laps L drivers driver_num abbrev n El HL Hnum Hres Hne Hw Hpos Hlap.
    assert (Hkey : In n (dict_keys (incident_lap_window _get_car_telemetry_data
                                      laps abbrev L)))
      by (apply incident_window_keys; auto).
    assert (Hin : In abbrev
                    (map fst (_analyze_incident_telemetry _get_car_telemetry_data self
                                (Some L) drivers))).
    { rewrite (incident_telemetry_fold self laps L drivers El HL).
      apply (proj1 (proj2 (telemetry_fold self laps L drivers []))).
      right. exists driver_num. split; [exact Hnum|].
      split; [exact Hres|]. split; [exact Hne|].
      intros E. rewrite E in Hkey. contradiction. }
    apply in_map_iff in Hin. destruct Hin as [[k dt] [Hk Hin]]. simpl in Hk. subst k.
    exists dt. split; [exact Hin|].
    apply _analyze_incident_telemetry_entries in Hin.
    destruct Hin as [laps' [L' [Hl' [HL' [_ [Hw' _]]]]]].
    injection HL' as <-. rewrite El in Hl'. injection Hl' as <-.
    now rewrite Hw'.
  - intros laps L abbrev El. unfold _analyze_violation_telemetry. rewrite El.
    eexists. split; [reflexivity|]. intros n Hw Hpos Hlap. cbn [vt_lap_data].
    apply violation_window_keys. auto.
  - reflexivity.
  - reflexivity.
Qed.

End Windows.

(** ** The statistics and anomalies of the incident correlator *)

Lemma Qlt_bool_iff (x y : Q) : Qlt_bool x y = true <-> (x < y)%Q.
Proof.
  unfold Qlt_bool. rewrite negb_true_iff. split; intros H.
  - apply Qnot_le_lt. intros Hle. apply Qle_bool_iff in Hle. congruence.
  - destruct (Qle_bool y x) eqn:E; [|reflexivity].
    apply Qle_bool_iff in E. now apply Qle_not_lt in E.
Qed.

Lemma Qlt_bool_false (x y : Q) : Qlt_bool x y = false -> (y <= x)%Q.
Proof.
  intros H. apply Qnot_lt_le. intros Hlt. apply Qlt_bool_iff in Hlt. congruence.
Qed.

Lemma py_max_In {A : Type} (ltb : A -> A -> bool) (xs : list A) (x : A) :
  In (py_max ltb x xs) (x :: xs).
Proof.
  revert x. induction xs as [|y xs IH]; intros x; [now left|].
  change (py_max ltb x (y :: xs)) with (py_max ltb (if ltb x y then y else x) xs).
  destruct (IH (if ltb x y then y else x)) as [H|H].
  - rewrite <- H. destruct (ltb x y); [right|]; now left.
  - right. now right.
Qed.

Lemma py_min_In {A : Type} (ltb : A -> A -> bool) (xs : list A) (x : A) :
  In (py_min ltb x xs) (x :: xs).
Proof.
  revert x. induction xs as [|y xs IH]; intros x; [now left|].
  change (py_min ltb x (y :: xs)) with (py_min ltb (if ltb y x then y else x) xs).
  destruct (IH (if ltb y x then y else x)) as [H|H].
  - rewrite <- H. destruct (ltb y x); [right|]; now left.
  - right. now right.
Qed.

Lemma py_max_upper (xs : list Q) (x v : Q) :
  In v (x :: xs) -> (v <= py_max Qlt_bool x xs)%Q.
Proof.
  revert x v. induction xs as [|y xs IH]; intros x v Hin.
  - destruct Hin as [<-|[]]. apply Qle_refl.
  - change (py_max Qlt_bool x (y :: xs))
      with (py_max Qlt_bool (if Qlt_bool x y then y else x) xs).
    set (m := if Qlt_bool x y then y else x).
    assert (Hx : (x <= m)%Q).
    { unfold m. destruct (Qlt_bool x y) eqn:E; [|apply Qle_refl].
      apply Qlt_le_weak. now apply Qlt_bool_iff. }
    assert (Hy : (y <= m)%Q).
    { unfold m. destruct (Qlt_bool x y) eqn:E; [apply Qle_refl|].
      now apply Qlt_bool_false. }
    destruct Hin as [<-|[<-|Hin]].
    + eapply Qle_trans; [exact Hx | apply IH; now left].
    + eapply Qle_trans; [exact Hy | apply IH; now left].
    + apply IH. now right.
Qed.

Lemma py_min_lower (xs : list Q) (x v : Q) :
  In v (x :: xs) -> (py_min Qlt_bool x xs <= v)%Q.
Proof.
  revert x v. induction xs as [|y xs IH]; intros x v Hin.
  - destruct Hin as [<-|[]]. apply Qle_refl.
  - change (py_min Qlt_bool x (y :: xs))
      with (py_min Qlt_bool (if Qlt_bool y x then y else x) xs).
    set (m := if Qlt_bool y x then y else x).
    assert (Hx : (m <= x)%Q).
    { unfold m. destruct (Qlt_bool y x) eqn:E; [|apply Qle_refl].
      apply Qlt_le_weak. now apply Qlt_bool_iff. }
    assert (Hy : (m <= y)%Q).
    { unfold m. destruct (Qlt_bool y x) eqn:E; [apply Qle_refl|].
      now apply Qlt_bool_false. }
    destruct Hin as [<-|[<-|Hin]].
    + eapply Qle_trans; [apply IH; now left | exact Hx].
    + eapply Qle_trans; [apply IH; now left | exact Hy].
    + apply IH. now right.
Qed.

Section PresentFacts.
Context {V : Type} (field : LapTelemetry -> option V).

Lemma dict_get_absent {W : Type} (d : list (Z * W)) (n : Z) :
  ~ In n (dict_keys d) -> dict_get Z.eqb n d = None.
Proof.
  induction d as [|[k v] d IH]; simpl; [reflexivity|]. intros H.
  destruct (Z.eqb_spec k n); [tauto|]. apply IH. tauto.
Qed.

Lemma present_keys (telemetry_data : list (Z * LapTelemetry)) (n : Z) :
  In n (dict_keys (present field telemetry_data)) -> In n (dict_keys telemetry_data).
Proof.
  unfold dict_keys, present. rewrite !in_map_iff.
  intros [[k v] [Hk Hin]]. simpl in Hk. subst k.
  apply in_flat_map in Hin. destruct Hin as [[k d] [Hin H]]. simpl in H.
  destruct (field d); [|contradiction]. destruct H as [H|[]].
  injection H as -> _. now exists (n, d).
Qed.

Lemma dict_get_present (telemetry_data : list (Z * LapTelemetry)) (n : Z) :
  NoDup (dict_keys telemetry_data) ->
  dict_get Z.eqb n (present field telemetry_data) = value_on field telemetry_data n.
Proof.
  unfold value_on. induction telemetry_data as [|[k d] td IH]; [reflexivity|].
  intros Hnd. inversion Hnd as [|? ? Hk Hnd']; subst.
  cbn [present flat_map fst snd dict_get]. fold (present field td).
  destruct (Z.eqb_spec k n) as [->|Hne].
  - destruct (field d) as [v|]; simpl.
    + now rewrite Z.eqb_refl.
    + apply dict_get_absent. intros H. now apply present_keys in H.
  - destruct (field d) as [v|]; simpl.
    + apply Z.eqb_neq in Hne. rewrite Hne. now apply IH.
    + now apply IH.
Qed.

Lemma dict_get_two {W : Type} (d : list (Z * W)) (n n' : Z) (v v' : W) :
  n <> n' -> dict_get Z.eqb n d = Some v -> dict_get Z.eqb n' d = Some v' ->
  (2 <= List.length d)%nat.
Proof.
  intros Hne H H'. destruct d as [|[k1 w1] [|[k2 w2] d]]; simpl in *.
  - discriminate.
  - destruct (Z.eqb_spec k1 n), (Z.eqb_spec k1 n'); try discriminate. lia.
  - lia.
Qed.

End PresentFacts.

Lemma keys_flat_map_NoDup {V : Type} (f : Z -> list (Z * V)) (l : list Z) :
  (forall n, f n = [] \/ exists v, f n = [(n, v)]) ->
  NoDup l -> NoDup (dict_keys (flat_map f l)).
Proof.
  intros Hf. induction 1 as [|x l Hx Hnd IH]; simpl; [constructor|].
  unfold dict_keys in *. rewrite map_app.
  destruct (Hf x) as [-> | [v ->]]; simpl; [exact IH|].
  constructor; [|exact IH]. intros H. apply in_map_iff in H.
  destruct H as [[k w] [Hk Hin]]. simpl in Hk. subst k.
  apply in_flat_map in Hin. destruct Hin as [y [Hy Hin]].
  destruct (Hf y) as [E | [w' E]]; rewrite E in Hin; [contradiction|].
  destruct Hin as [Hin|[]]. injection Hin as -> _. contradiction.
Qed.

Lemma incident_lap_window_NoDup (car : string -> Z -> option CarTelemetry)
    (laps : list LapRecord) (driver : string) (L : Z) :
  NoDup (dict_keys (incident_lap_window car laps driver L)).
Proof.
  unfold incident_lap_window. apply keys_flat_map_NoDup.
  - intros n. destruct (n <=? 0); [now left|].
    destruct (find_lap laps driver n); [right; eexists; reflexivity | now left].
  - repeat constructor; simpl; lia.
Qed.

Lemma violation_lap_window_NoDup (laps : list LapRecord) (driver : string) (L : Z) :
  NoDup (dict_keys (violation_lap_window laps driver L)).
Proof.
  unfold violation_lap_window. apply keys_flat_map_NoDup.
  - intros n. destruct (n <=? 0); [now left|].
    destruct (find_lap laps driver n); [right; eexists; reflexivity | now left].
  - repeat constructor; simpl; lia.
Qed.

Section Patterns.

Lemma speed_drop_check_short (speeds : list (Z * Q)) (L : Z) :
  (List.length speeds < 2)%nat -> speed_drop_check speeds L = [].
Proof.
  intros Hlen. unfold speed_drop_check.
  destruct (dict_get Z.eqb L speeds) as [cur|] eqn:Ec; [|reflexivity].
  destruct (dict_get Z.eqb (L - 1) speeds) as [prev|] eqn:Ep; [|reflexivity].
  assert (L <> L - 1) by lia.
  pose proof (dict_get_two speeds L (L - 1) cur prev H Ec Ep). lia.
Qed.

Lemma position_drop_check_short (positions : list (Z * Z)) (L : Z) :
  (List.length positions < 2)%nat -> position_drop_check positions L = [].
Proof.
  intros Hlen. unfold position_drop_check.
  destruct (dict_get Z.eqb L positions) as [cur|] eqn:Ec; [|reflexivity].
  destruct (dict_get Z.eqb (L - 1) positions) as [prev|] eqn:Ep; [|reflexivity].
  assert (L <> L - 1) by lia.
  pose proof (dict_get_two positions L (L - 1) cur prev H Ec Ep). lia.
Qed.

(** The anomaly list is the two checks, whatever the number of values: a
    check can only fire when both laps are there, so when there are two. *)
Lemma patterns_anomalies (telemetry_data : list (Z * LapTelemetry)) (L : Z) :
  anomalies (_analyze_telemetry_patterns telemetry_data L) =
  (speed_drop_check (present speed_fl telemetry_data) L
   ++ position_drop_check (present position telemetry_data) L)%list.
Proof.
  unfold _analyze_telemetry_patterns. cbn [anomalies]. f_equal.
  - destruct (2 <=? List.length (present speed_fl telemetry_data))%nat eqn:E.
    + destruct (present speed_fl telemetry_data) as [|[k v] vs]; [discriminate|].
      reflexivity.
    + apply Nat.leb_gt in E. cbn [snd]. symmetry. now apply speed_drop_check_short.
  - destruct (2 <=? List.length (present position telemetry_data))%nat eqn:E.
    + destruct (present position telemetry_data) as [|[k v] vs]; [discriminate|].
      reflexivity.
    + apply Nat.leb_gt in E. cbn [snd]. symmetry. now apply position_drop_check_short.
Qed.

Lemma patterns_speed_analysis (telemetry_data : list (Z * LapTelemetry)) (L : Z) :
  NoDup (dict_keys telemetry_data) ->
  (2 <= List.length (present speed_fl telemetry_data))%nat ->
  exists sa,
    speed_analysis (_analyze_telemetry_patterns telemetry_data L) = Some sa /\
    In (max_speed sa) (dict_values (present speed_fl telemetry_data)) /\
    (forall v, In v (dict_values (present speed_fl telemetry_data)) ->
               (v <= max_speed sa)%Q) /\
    In (min_speed sa) (dict_values (present speed_fl telemetry_data)) /\
    (forall v, In v (dict_values (present speed_fl telemetry_data)) ->
               (min_speed sa <= v)%Q) /\
    speed_variance sa = fsub (max_speed sa) (min_speed sa) /\
    incident_lap_speed sa = value_on speed_fl telemetry_data L.
Proof.
  intros Hnd Hlen. unfold _analyze_telemetry_patterns. cbn [speed_analysis].
  apply Nat.leb_le in Hlen. rewrite Hlen.
  pose proof (dict_get_present speed_fl telemetry_data L Hnd) as Hget.
  destruct (dict_values (present speed_fl telemetry_data)) as [|v vs] eqn:Ev.
  - unfold dict_values in Ev. apply map_eq_nil in Ev. rewrite Ev in Hlen. discriminate.
  - eexists. split; [reflexivity|]. cbn.
    split; [apply py_max_In|]. split; [apply py_max_upper|].
    split; [apply py_min_In|]. split; [apply py_min_lower|].
    split; [reflexivity | exact Hget].
Qed.

Lemma speed_drop_check_In (telemetry_data : list (Z * LapTelemetry)) (L : Z) (x : Anomaly) :
  NoDup (dict_keys telemetry_data) ->
  In x (speed_drop_check (present speed_fl telemetry_data) L) <->
  exists prev cur,
    value_on speed_fl telemetry_data (L - 1) = Some prev /\
    value_on speed_fl telemetry_data L = Some cur /\
    (20 < fsub prev cur)%Q /\ x = SignificantSpeedDrop (fsub prev cur).
Proof.
  intros Hnd. unfold speed_drop_check. rewrite !dict_get_present by assumption.
  destruct (value_on speed_fl telemetry_data L) as [cur|].
  2:{ split; [contradiction | intros [p [c [_ [H _]]]]; discriminate]. }
  destruct (value_on speed_fl telemetry_data (L - 1)) as [prev|].
  2:{ split; [contradiction | intros [p [c [H _]]]; discriminate]. }
  destruct (Qlt_bool 20 (fsub prev cur)) eqn:E.
  - apply Qlt_bool_iff in E. split.
    + intros [<-|[]]. now exists prev, cur.
    + intros [p [c [Hp [Hc [_ ->]]]]]. injection Hp as <-. injection Hc as <-. now left.
  - split; [contradiction|].
    intros [p [c [Hp [Hc [Hlt _]]]]]. injection Hp as <-. injection Hc as <-.
    apply Qlt_bool_iff in Hlt. congruence.
Qed.

Lemma position_drop_check_In (telemetry_data : list (Z * LapTelemetry)) (L : Z)
    (x : Anomaly) :
  NoDup (dict_keys telemetry_data) ->
  In x (position_drop_check (present position telemetry_data) L) <->
  exists prev cur,
    value_on position telemetry_data (L - 1) = Some prev /\
    value_on position telemetry_data L = Some cur /\
    0 < cur - prev /\ x = PositionDrop (cur - prev).
Proof.
  intros Hnd. unfold position_drop_check. rewrite !dict_get_present by assumption.
  destruct (value_on position telemetry_data L) as [cur|].
  2:{ split; [contradiction | intros [p [c [_ [H _]]]]; discriminate]. }
  destruct (value_on position telemetry_data (L - 1)) as [prev|].
  2:{ split; [contradiction | intros [p [c [H _]]]; discriminate]. }
  destruct (0 <? cur - prev) eqn:E.
  - apply Z.ltb_lt in E. split.
    + intros [<-|[]]. now exists prev, cur.
    + intros [p [c [Hp [Hc [_ ->]]]]]. injection Hp as <-. injection Hc as <-. now left.
  - apply Z.ltb_ge in E. split; [contradiction|].
    intros [p [c [Hp [Hc [Hlt _]]]]]. injection Hp as <-. injection Hc as <-. lia.
Qed.

Variable _get_car_telemetry_data : string -> Z -> option CarTelemetry.

(** C5. In the analysis of an incident on lap [L] for a driver: when the
    window holds at least two finish-line speeds, the speed statistics are
    the greatest and the least of them, their difference as the variance,
    and the speed of lap [L]; and the anomalies are exactly a speed drop
    [speed(L-1) - speed(L)] strictly above 20 and a position drop
    [position(L) - position(L-1)] strictly above 0, each when both laps hold
    the value. *)
Theorem telemetry_patterns_spec :
  forall (self : F1RaceAnalyzer) (L : Z) (drivers : list string)
         (abbrev : string) (dt : DriverTelemetry),
    In (abbrev, dt)
       (_analyze_incident_telemetry _get_car_telemetry_data self (Some L) drivers) ->
    let window := dt_lap_data dt in
    let speeds := dict_values (present speed_fl window) in
    ((2 <= List.length speeds)%nat ->
     exists sa,
       speed_analysis (analysis dt) = Some sa /\
       In (max_speed sa) speeds /\ (forall v, In v speeds -> (v <= max_speed sa)%Q) /\
       In (min_speed sa) speeds /\ (forall v, In v speeds -> (min_speed sa <= v)%Q) /\
       speed_variance sa = fsub (max_speed sa) (min_speed sa) /\
       incident_lap_speed sa = value_on speed_fl window L) /\
    (forall x, In x (anomalies (analysis dt)) <->
       (exists prev cur,
           value_on speed_fl window (L - 1) = Some prev /\
           value_on speed_fl window L = Some cur /\
           (20 < fsub prev cur)%Q /\ x = SignificantSpeedDrop (fsub prev cur)) \/
       (exists prev cur,
           value_on position window (L - 1) = Some prev /\
           value_on position window L = Some cur /\
           0 < cur - prev /\ x = PositionDrop (cur - prev))).
Proof.
  intros self L drivers abbrev dt H window speeds.
  apply _analyze_incident_telemetry_entries in H.
  destruct H as [laps [L' [_ [HL [_ [Hw Ha]]]]]]. injection HL as <-.
  assert (Hnd : NoDup (dict_keys window)).
  { unfold window. rewrite Hw. apply incident_lap_window_NoDup. }
  rewrite Ha. fold window. split.
  - intros Hlen. apply patterns_speed_analysis; [exact Hnd|].
    unfold speeds, dict_values in Hlen. now rewrite length_map in Hlen.
  - intros x. rewrite patterns_anomalies, in_app_iff.
    rewrite speed_drop_check_In, position_drop_check_In by exact Hnd. reflexivity.
Qed.

End Patterns.

(** ** The track-limits correlator *)

Lemma Qabs_gt_iff (x bound : Q) : Qabs_gt x bound = true <-> (bound < Qabs x)%Q.
Proof. apply Qlt_bool_iff. Qed.

Lemma violation_patterns_check (telemetry_data : list (Z * LapTelemetry)) (L : Z) :
  va_anomalies (violation_patterns telemetry_data L) =
  speed_change_check (present speed_fl telemetry_data) L.
Proof.
  unfold violation_patterns. cbn [va_anomalies].
  destruct (2 <=? List.length (present speed_fl telemetry_data))%nat eqn:E.
  - destruct (present speed_fl telemetry_data) as [|[k v] vs]; [discriminate|].
    reflexivity.
  - apply Nat.leb_gt in E. cbn [snd]. symmetry. unfold speed_change_check.
    destruct (dict_get Z.eqb L (present speed_fl telemetry_data)) as [cur|] eqn:Ec;
      [|reflexivity].
    destruct (dict_get Z.eqb (L - 1) (present speed_fl telemetry_data)) as [prev|] eqn:Ep;
      [|reflexivity].
    assert (H : L <> L - 1) by lia.
    pose proof (dict_get_two _ L (L - 1) cur prev H Ec Ep). lia.
Qed.

Lemma violation_patterns_anomalies (telemetry_data : list (Z * LapTelemetry)) (L : Z)
    (x : Anomaly) :
  NoDup (dict_keys telemetry_data) ->
  In x (va_anomalies (violation_patterns telemetry_data L)) <->
  exists prev cur,
    value_on speed_fl telemetry_data (L - 1) = Some prev /\
    value_on speed_fl telemetry_data L = Some cur /\
    (10 < Qabs (fsub cur prev))%Q /\ x = SpeedChange (fsub cur prev).
Proof.
  intros Hnd. rewrite violation_patterns_check. unfold speed_change_check.
  rewrite !dict_get_present by assumption.
  destruct (value_on speed_fl telemetry_data L) as [cur|].
  2:{ split; [contradiction | intros [p [c [_ [H _]]]]; discriminate]. }
  destruct (value_on speed_fl telemetry_data (L - 1)) as [prev|].
  2:{ split; [contradiction | intros [p [c [H _]]]; discriminate]. }
  destruct (Qabs_gt (fsub cur prev) 10) eqn:Eg.
  - apply Qabs_gt_iff in Eg. split.
    + intros [<-|[]]. now exists prev, cur.
    + intros [p [c [Hp [Hc [_ ->]]]]]. injection Hp as <-. injection Hc as <-.
      now left.
  - split; [contradiction|].
    intros [p [c [Hp [Hc [Hlt _]]]]]. injection Hp as <-. injection Hc as <-.
    apply Qabs_gt_iff in Hlt. congruence.
Qed.

(** C6, as the code has it. In the analysis of a track-limits violation on
    lap [L], an anomaly is flagged exactly when both lap [L - 1] and lap [L]
    hold a finish-line speed and the two differ by more than 10 km/h in
    absolute value, a gain as well as a drop. *)
Theorem violation_speed_change_spec :
  forall (self : F1RaceAnalyzer) (abbrev : string) (L : Z) (vt : ViolationTelemetry),
    _analyze_violation_telemetry self abbrev L = Some vt ->
    forall x, In x (va_anomalies (vt_analysis vt)) <->
              exists prev cur,
                value_on speed_fl (vt_lap_data vt) (L - 1) = Some prev /\
                value_on speed_fl (vt_lap_data vt) L = Some cur /\
                (10 < Qabs (fsub cur prev))%Q /\ x = SpeedChange (fsub cur prev).
Proof.
  intros self abbrev L vt H x. unfold _analyze_violation_telemetry in H.
  destruct (lap_data self) as [laps|]; [|discriminate]. injection H as <-.
  cbn [vt_analysis vt_lap_data]. apply violation_patterns_anomalies.
  apply violation_lap_window_NoDup.
Qed.

(** ** The pit-strategy scanner *)

Lemma pit_stop_of_missing_before (driver_laps : list LapRecord) (pit : LapRecord) :
  1 < LapNumber pit ->
  (forall r, In r driver_laps -> LapNumber r <> LapNumber pit - 1) ->
  pit_stop_of driver_laps pit = Raise IndexError.
Proof.
  intros Hlap Hmissing. unfold pit_stop_of.
  apply Z.ltb_lt in Hlap. rewrite Hlap. unfold position_on_lap.
  destruct (filter (fun r => LapNumber r =? LapNumber pit - 1) driver_laps)
    as [|r rs] eqn:E; [reflexivity|].
  assert (Hin : In r (filter (fun r => LapNumber r =? LapNumber pit - 1) driver_laps))
    by (rewrite E; now left).
  apply filter_In in Hin. destruct Hin as [Hin Hn]. apply Z.eqb_eq in Hn.
  now apply Hmissing in Hin.
Qed.

(** The report of a stop whose neighbouring laps are both there with
    positions that are neither NaN nor zero. *)
Lemma pit_stop_of_neighbours (driver_laps : list LapRecord) (pit before after : LapRecord)
    (rest_before rest_after : list LapRecord) (b a : Z) :
  filter (fun r => LapNumber r =? LapNumber pit - 1) driver_laps = before :: rest_before ->
  filter (fun r => LapNumber r =? LapNumber pit + 1) driver_laps = after :: rest_after ->
  Position before = Some b -> Position after = Some a -> b <> 0 -> a <> 0 ->
  1 < LapNumber pit ->
  exists stop,
    pit_stop_of driver_laps pit = Ok stop /\
    ps_lap stop = LapNumber pit /\
    position_before stop = Some b /\ position_after stop = Some a /\
    ps_position_change stop = Some (a - b).
Proof.
  intros Hb Ha Hpb Hpa Hb0 Ha0 Hlap. unfold pit_stop_of.
  apply Z.ltb_lt in Hlap. rewrite Hlap.
  assert (Hmax : (LapNumber pit <?
                  match map LapNumber driver_laps with
                  | n :: ns => py_max Z.ltb n ns
                  | [] => LapNumber pit
                  end) = true).
  { assert (Hin : In after driver_laps).
    { assert (H : In after (after :: rest_after)) by now left.
      rewrite <- Ha in H. now apply filter_In in H. }
    assert (Hn : LapNumber after = LapNumber pit + 1).
    { assert (H : In after (after :: rest_after)) by now left.
      rewrite <- Ha in H. apply filter_In in H. now apply Z.eqb_eq. }
    apply (in_map LapNumber) in Hin.
    destruct (map LapNumber driver_laps) as [|n ns]; [contradiction|].
    apply Z.ltb_lt.
    assert (Hge : forall xs x v, In v (x :: xs) -> v <= py_max Z.ltb x xs).
    { induction xs as [|y xs IH]; intros x v Hv.
      - destruct Hv as [<-|[]]. apply Z.le_refl.
      - change (py_max Z.ltb x (y :: xs))
          with (py_max Z.ltb (if x <? y then y else x) xs).
        destruct Hv as [<-|[<-|Hv]].
        + etransitivity; [|apply IH; now left]. destruct (Z.ltb_spec x y); lia.
        + etransitivity; [|apply IH; now left]. destruct (Z.ltb_spec x y); lia.
        + apply IH. now right. }
    apply Hge in Hin. lia. }
  rewrite Hmax. unfold position_on_lap. rewrite Hb, Ha, Hpb, Hpa. cbn.
  apply Z.eqb_neq in Hb0, Ha0. rewrite Hb0, Ha0. cbn.
  eexists. split; [reflexivity|]. cbn. repeat split.
Qed.

(** C7, at an input the scanner does not survive. The adjacent laps are
    guarded at the two ends of a driver's laps only: a stop on a lap above 1
    whose previous lap has no row makes [iloc[0]] raise. VER with rows for
    the laps 1, 3 and 4 and a stop on lap 3 is such a table. *)
Theorem pit_stop_missing_lap_raises :
  (forall (driver_laps : list LapRecord) (pit : LapRecord),
      1 < LapNumber pit ->
      (forall r, In r driver_laps -> LapNumber r <> LapNumber pit - 1) ->
      pit_stop_of driver_laps pit = Raise IndexError) /\
  analyze_pit_stop_strategies (Samples.analyzer_of Samples.gap_laps [] [])
  = Raise IndexError.
Proof.
  split; [apply pit_stop_of_missing_before | reflexivity].
Qed.

(** ** The lap comparison and parse failures *)

Section MapFacts.
Context {A B : Type} (g : A -> B).

Lemma map_flat_map {C : Type} (f : C -> list A) (l : list C) :
  map g (flat_map f l) = flat_map (fun x => map g (f x)) l.
Proof.
  induction l as [|x l IH]; [reflexivity|]. simpl. now rewrite map_app, IH.
Qed.

Lemma insert_by_map (keyA : A -> Z) (keyB : B -> Z) (x : A) (l : list A) :
  (forall a, keyA a = keyB (g a)) ->
  map g (insert_by keyA x l) = insert_by keyB (g x) (map g l).
Proof.
  intros Hk. induction l as [|y l IH]; [reflexivity|]. simpl.
  rewrite <- !Hk. destruct (keyA x <=? keyA y); [reflexivity|]. simpl. now rewrite IH.
Qed.

Lemma py_sort_map (keyA : A -> Z) (keyB : B -> Z) (reverse : bool) (l : list A) :
  (forall a, keyA a = keyB (g a)) ->
  map g (py_sort keyA reverse l) = py_sort keyB reverse (map g l).
Proof.
  intros Hk. unfold py_sort, stable_sort.
  induction l as [|x l IH]; [reflexivity|]. simpl. rewrite <- IH.
  apply insert_by_map. intros a. now rewrite Hk.
Qed.

End MapFacts.

Lemma analyze_position_changes_parser (parse parse' : option string -> option (option Q))
    (self : F1RaceAnalyzer) (m : Z) :
  map without_comparison (analyze_position_changes parse self m) =
  map without_comparison (analyze_position_changes parse' self m).
Proof.
  unfold analyze_position_changes. destruct (lap_data self) as [laps|]; [|reflexivity].
  rewrite !(py_sort_map without_comparison (fun x => Z.abs (change x))
              (fun x => Z.abs (change x))) by reflexivity.
  f_equal. unfold position_changes_found. rewrite !map_flat_map.
  apply flat_map_ext. intros driver. rewrite !map_flat_map.
  apply flat_map_ext. intros [prev curr]. unfold position_change_of.
  destruct (Position prev), (Position curr); try reflexivity.
  destruct (negb (z =? z0) && (m <=? Z.abs (z - z0))); reflexivity.
Qed.

Lemma sector_anomaly_needs_delta (parse : option string -> option (option Q))
    (prev curr : LapRecord) (f : SectorField) (d : Q) :
  In (SignificantSectorChange f d) (cmp_anomalies (_compare_lap_telemetry parse prev curr)) ->
  sector_delta parse prev curr f = Some (Some d).
Proof.
  unfold _compare_lap_telemetry. cbn [cmp_anomalies]. rewrite !in_app_iff.
  intros [H|[H|H]].
  - destruct (lap_time_delta parse prev curr) as [[t|]|]; try contradiction.
    destruct (Qabs_gt t 2); [|contradiction]. destruct H as [H|[]]. discriminate.
  - apply in_flat_map in H. destruct H as [sf [_ H]].
    destruct (speed_delta prev curr sf) as [v|]; [|contradiction].
    destruct (Qabs_gt v 15); [|contradiction]. destruct H as [H|[]]. discriminate.
  - apply in_flat_map in H. destruct H as [f' [_ H]].
    destruct (sector_delta parse prev curr f') as [[v|]|] eqn:E; try contradiction.
    destruct (Qabs_gt v (1 # 2)); [|contradiction]. destruct H as [H|[]].
    injection H as -> ->. exact E.
Qed.

Lemma lap_time_anomaly_needs_delta (parse : option string -> option (option Q))
    (prev curr : LapRecord) (d : Q) :
  In (SignificantLapTimeChange d) (cmp_anomalies (_compare_lap_telemetry parse prev curr)) ->
  lap_time_delta parse prev curr = Some (Some d).
Proof.
  unfold _compare_lap_telemetry. cbn [cmp_anomalies]. rewrite !in_app_iff.
  intros [H|[H|H]].
  - destruct (lap_time_delta parse prev curr) as [[t|]|]; try contradiction.
    destruct (Qabs_gt t 2); [|contradiction]. destruct H as [H|[]].
    now injection H as ->.
  - apply in_flat_map in H. destruct H as [sf [_ H]].
    destruct (speed_delta prev curr sf) as [v|]; [|contradiction].
    destruct (Qabs_gt v 15); [|contradiction]. destruct H as [H|[]]. discriminate.
  - apply in_flat_map in H. destruct H as [f' [_ H]].
    destruct (sector_delta parse prev curr f') as [[v|]|]; try contradiction.
    destruct (Qabs_gt v (1 # 2)); [|contradiction]. destruct H as [H|[]]. discriminate.
Qed.

Lemma sector_change_needs_delta (parse : option string -> option (option Q))
    (prev curr : LapRecord) (f : SectorField) (d : option Q) :
  In (f, d) (sector_changes (_compare_lap_telemetry parse prev curr)) ->
  sector_delta parse prev curr f = Some d.
Proof.
  unfold _compare_lap_telemetry. cbn [sector_changes]. intros H.
  apply in_flat_map in H. destruct H as [f' [_ H]].
  destruct (sector_delta parse prev curr f') as [v|] eqn:E; [|contradiction].
  destruct H as [H|[]]. injection H as -> ->. exact E.
Qed.

Lemma lap_time_delta_missing (parse : option string -> option (option Q))
    (prev curr : LapRecord) :
  total_seconds parse (LapTime prev) <> None ->
  total_seconds parse (LapTime curr) <> None ->
  LapTime prev = None \/ LapTime curr = None ->
  lap_time_delta parse prev curr = Some None.
Proof.
  intros Hp Hc Hmiss. unfold lap_time_delta.
  destruct (total_seconds parse (LapTime prev)) as [tp|] eqn:Ep; [|contradiction].
  destruct (total_seconds parse (LapTime curr)) as [tc|] eqn:Ec; [|contradiction].
  destruct Hmiss as [H|H]; rewrite H in *; cbn in *.
  - injection Ep as <-. now destruct tc.
  - injection Ec as <-. reflexivity.
Qed.

(** C9. A lap time that is missing is not excluded from the comparison.
    When the lap-time cell of either lap is NaN and the parser raises on
    neither, the lap-time change is written, as the NaN that the format turns
    into '+nans', where a sector time with a NaN cell gets no entry at all.
    What the claim says does hold of a text on which the parser raises: the
    lap-time change stays 'N/A' with no lap-time anomaly, a sector has no
    entry and no anomaly, the speed and tire comparisons do not depend on the
    parser, and the scanner returns the same records in the same order apart
    from their telemetry comparison. For PER's two laps without a lap time
    the record is reported with the NaN as its lap-time change. *)
Theorem missing_lap_time_not_excluded :
  forall (parse : option string -> option (option Q)) (prev curr : LapRecord),
    let comparison := _compare_lap_telemetry parse prev curr in
    (total_seconds parse (LapTime prev) <> None ->
     total_seconds parse (LapTime curr) <> None ->
     LapTime prev = None \/ LapTime curr = None ->
     lap_time_change comparison = Some None /\
     lap_time_change comparison <> lap_time_change initial_comparison) /\
    (forall f,
        sector_cell f prev = None \/ sector_cell f curr = None ->
        forall d, ~ In (f, d) (sector_changes comparison)) /\
    (total_seconds parse (LapTime prev) = None \/
     total_seconds parse (LapTime curr) = None ->
     lap_time_change comparison = None /\
     forall d, ~ In (SignificantLapTimeChange d) (cmp_anomalies comparison)) /\
    (forall f p c,
        sector_cell f prev = Some p -> sector_cell f curr = Some c ->
        parse (Some p) = None \/ parse (Some c) = None ->
        (forall d, ~ In (f, d) (sector_changes comparison)) /\
        (forall d, ~ In (SignificantSectorChange f d) (cmp_anomalies comparison))) /\
    (forall parse',
        speed_changes comparison = speed_changes (_compare_lap_telemetry parse' prev curr) /\
        tire_changes comparison = tire_changes (_compare_lap_telemetry parse' prev curr)) /\
    (forall parse' self m,
        map without_comparison (analyze_position_changes parse self m) =
        map without_comparison (analyze_position_changes parse' self m)) /\
    (exists pc,
        analyze_position_changes parse (Samples.analyzer_of Samples.per_laps [] []) 5 = [pc] /\
        from_position pc = 5 /\ to_position pc = 12 /\ change pc = -7 /\
        pc_lap_time pc = "nan" /\ prev_lap_time pc = "nan" /\
        lap_time_change (telemetry_comparison pc) = Some None /\
        sector_changes (telemetry_comparison pc) = [] /\
        cmp_anomalies (telemetry_comparison pc) = []).
Proof.
  intros parse prev curr comparison. split; [|split; [|split; [|split; [|split; [|split]]]]].
  - intros Hp Hc Hmiss.
    assert (Hdelta : lap_time_change comparison = Some None)
      by now apply lap_time_delta_missing.
    split; [exact Hdelta|]. rewrite Hdelta. discriminate.
  - intros f Hmiss d H. apply sector_change_needs_delta in H.
    unfold sector_delta in H.
    destruct Hmiss as [E|E]; rewrite E in H; [discriminate|].
    now destruct (sector_cell f prev).
  - intros Hfail.
    assert (Hdelta : lap_time_delta parse prev curr = None).
    { unfold lap_time_delta. destruct Hfail as [-> | ->]; [reflexivity|].
      now destruct (total_seconds parse (LapTime prev)). }
    split; [exact Hdelta|].
    intros d H. apply lap_time_anomaly_needs_delta in H. congruence.
  - intros f p c Hp Hc Hfail.
    assert (Hdelta : sector_delta parse prev curr f = None).
    { unfold sector_delta, total_seconds. rewrite Hp, Hc.
      destruct Hfail as [-> | ->]; [reflexivity|].
      now destruct (parse (Some p)). }
    split; intros d H.
    + apply sector_change_needs_delta in H. congruence.
    + apply sector_anomaly_needs_delta in H. congruence.
  - intros parse'. split; reflexivity.
  - intros parse' self m. apply analyze_position_changes_parser.
  - eexists. split; [reflexivity|]. cbn. repeat split.
Qed.

(** ** The segment ranker *)

Section SortedFacts.
Context {A : Type} (R : A -> A -> Prop).



End SortedFacts.

Lemma tier_sorted (p : Z) (tier rest : list CommentarySegment) :
  Forall (fun s => priority s = p) tier ->
  Forall (fun s => p <= priority s) rest ->
  StronglySorted (fun a b => priority a <= priority b) rest ->
  StronglySorted (fun a b => priority a <= priority b) (tier ++ rest)%list.
Proof.
  intros Htier Hrest Hs. induction Htier as [|s tier Hp Htier IH]; [exact Hs|].
  simpl. constructor; [exact IH|]. apply Forall_app. split.
  - eapply Forall_impl; [|exact Htier]. simpl. intros t Ht. lia.
  - eapply Forall_impl; [|exact Hrest]. simpl. intros t Ht. lia.
Qed.

Section Segments.
Variable to_timedelta_seconds : option string -> option (option Q).
Variable _get_car_telemetry_data : string -> Z -> option CarTelemetry.


Lemma segments_appended_sorted (self : F1RaceAnalyzer) :
  StronglySorted (fun a b => priority a <= priority b)
                 (segments_appended to_timedelta_seconds _get_car_telemetry_data self).
Proof.
  unfold segments_appended.
  assert (Hmap : forall (X : Type) (f : X -> CommentarySegment) (p : Z) (l : list X),
             (forall x, priority (f x) = p) ->
             Forall (fun s => priority s = p) (map f l)).
  { intros X f p l Hf. apply Forall_forall. intros s Hs.
    apply in_map_iff in Hs. destruct Hs as [x [<- _]]. apply Hf. }
  assert (Hge : forall (p q : Z) (l : list CommentarySegment),
             p <= q -> Forall (fun s => priority s = q) l ->
             Forall (fun s => p <= priority s) l).
  { intros p q l Hpq. apply Forall_impl. intros s Hs. lia. }
  apply (tier_sorted 1); [now apply Hmap | |].
  { repeat (apply Forall_app; split);
      [apply (Hge 1 2) | apply (Hge 1 3) | apply (Hge 1 4)];
      try lia; now apply Hmap. }
  apply (tier_sorted 2); [now apply Hmap | |].
  { repeat (apply Forall_app; split); [apply (Hge 2 3) | apply (Hge 2 4)];
      try lia; now apply Hmap. }
  apply (tier_sorted 3); [now apply Hmap | |].
  { apply (Hge 3 4); [lia | now apply Hmap]. }
  rewrite <- (app_nil_r (map yellow_flag_segment _)).
  apply (tier_sorted 4); [now apply Hmap | constructor | constructor].
Qed.

Lemma identify_commentary_segments_appended (self : F1RaceAnalyzer) :
  identify_commentary_segments to_timedelta_seconds _get_car_telemetry_data self
  = segments_appended to_timedelta_seconds _get_car_telemetry_data self.
Proof.
  unfold identify_commentary_segments. apply py_sort_ascending_id.
  apply segments_appended_sorted.
Qed.

Lemma collisions_of_In (incidents : list Incident) (inc : Incident) :
  In inc (collisions_of incidents) <->
  In inc incidents /\ occurs_in "COLLISION" (inc_message inc).
Proof. unfold collisions_of. now rewrite filter_In, contains_spec. Qed.


(** C10. A segment of priority 1 is the segment of an incident whose message
    holds COLLISION in upper case. With the tables loaded, a race-control
    message that the extractor's filter keeps and that does not hold
    COLLISION in upper case gives an incident and no segment of priority 1:
    such is "Car 4 and car 16 collision at turn 1". *)
Theorem collision_filter_case_sensitive :
  forall (laps : list LapRecord) (messages : list RaceControlMessage)
         (results : option (list ResultRow)),
    let self := {| lap_data := Some laps; race_control := Some messages;
                   session_results := results |} in
    let incidents := analyze_incidents _get_car_telemetry_data self in
    let segments :=
      identify_commentary_segments to_timedelta_seconds _get_car_telemetry_data self in
    (forall s, In s segments -> priority s = 1 ->
               exists inc, In inc incidents /\ s = collision_segment inc /\
                           occurs_in "COLLISION" (inc_message inc)) /\
    (forall m text,
        In m messages -> Message m = Some text ->
        is_incident_message m = true -> ~ occurs_in "COLLISION" text ->
        (exists inc, In inc incidents /\ inc_message inc = text /\ inc_lap inc = Lap m) /\
        (forall s, In s segments -> priority s = 1 -> description s <> text)) /\
    (is_incident_message (Samples.message_row (Some 1) Samples.lower_case_message) = true /\
     contains "COLLISION" Samples.lower_case_message = false).
Proof.
  intros laps messages results self incidents segments.
  assert (Hone : forall s, In s segments -> priority s = 1 ->
             exists inc, In inc incidents /\ s = collision_segment inc /\
                         occurs_in "COLLISION" (inc_message inc)).
  { intros s Hs Hp. unfold segments in Hs.
    rewrite identify_commentary_segments_appended in Hs. unfold segments_appended in Hs.
    rewrite !in_app_iff, !in_map_iff in Hs.
    destruct Hs as [[x [<- Hx]] | [[x [<- _]] | [[x [<- _]] | [x [<- _]]]]];
      try discriminate.
    apply collisions_of_In in Hx. exists x. tauto. }
  split; [exact Hone|]. split.
  - intros m text Hin Htext Hk Hno. split.
    + now apply analyze_incidents_complete.
    + intros s Hs Hp Hd. destruct (Hone s Hs Hp) as [inc [_ [-> Hocc]]].
      cbn in Hd. rewrite Hd in Hocc. contradiction.
  - split; vm_compute; reflexivity.
Qed.

End Segments.

(** ** The properties at the sample inputs *)

Example findall_cars :
  re_findall "CAR " is_digit Samples.collision_message = ["1"; "44"].
Proof. reflexivity. Qed.

Example track_limits_message_parsed :
  re_search "CAR " is_digit Samples.track_limits_message = Some "81" /\
  re_search "TURN " is_digit Samples.track_limits_message = Some "4" /\
  re_search "TIME " is_time_char Samples.track_limits_message = Some "1:23.456".
Proof. repeat split. Qed.

Example first_check_wins :
  _get_steward_action "INCIDENT NOTED - NO FURTHER ACTION" = "No further action".
Proof. reflexivity. Qed.

Example window_of_first_lap :
  dict_keys (incident_lap_window Samples.no_car_data
               [Samples.lap_row "VER" 1 (Some 1); Samples.lap_row "VER" 2 (Some 1);
                Samples.lap_row "VER" 4 (Some 1)] "VER" 1)
  = [1; 2].
Proof. reflexivity. Qed.

Example pit_stop_with_neighbours :
  analyze_pit_stop_strategies (Samples.analyzer_of Samples.pit_laps [] [])
  = Ok [("VER", [{| ps_lap := 2; ps_compound := None; ps_tyre_life := None;
                    position_before := Some 1; position_after := Some 4;
                    ps_position_change := Some 3 |}])].
Proof. reflexivity. Qed.

Example lower_case_collision_not_ranked :
  forall parse : option string -> option (option Q),
    List.length (analyze_incidents Samples.no_car_data Samples.lower_case_analyzer) = 1%nat /\
    filter (fun s => priority s =? 1)
           (identify_commentary_segments parse Samples.no_car_data
              Samples.lower_case_analyzer) = [].
Proof. intros parse. split; reflexivity. Qed.

Example collision_ranked_before_flag :
  forall parse : option string -> option (option Q),
    map seg_type
        (identify_commentary_segments parse Samples.no_car_data
           Samples.flag_then_collision)
    = [TypeCollision; TypeYellowFlag].
Proof. reflexivity. Qed.

Example ties_keep_scan_order :
  forall parse : option string -> option (option Q),
    map (fun pc => (pc_driver pc, change pc))
        (analyze_position_changes parse (Samples.analyzer_of Samples.tied_laps [] []) 3)
    = [("ALO", -9); ("NOR", -6); ("SAI", 6)].
Proof. reflexivity. Qed.

(** Python's floats at the speeds of the samples: 256.1 is read as the
    nearest binary64 value, and the differences are those Python prints as
    20.00000000000003, 10.000000000000028 and 15.000000000000002. *)
Example round64_of_decimal :
  round64 (2561 # 10) = 2252679422987469 # 8796093022208 /\
  round64 (1 # 10) = 3602879701896397 # 36028797018963968 /\
  round64 300 = 300%Q /\ round64 (-1 # 2) = (-1 # 2)%Q.
Proof. vm_compute. repeat split. Qed.

Example fsub_of_decimals :
  fsub (2561 # 10) (2361 # 10) = 703687441776641 # 35184372088832 /\
  fsub (2561 # 10) (2461 # 10) = 351843720888321 # 35184372088832 /\
  fsub (11 # 10) (161 # 10) = (-8444249301319681 # 562949953421312)%Q /\
  fsub 300 270 = 30%Q.
Proof. vm_compute. repeat split. Qed.

Example fsub_rounds_to_threshold :
  fsub 25 Samples.below_five = 20%Q /\ (20 < 25 - Samples.below_five)%Q.
Proof. vm_compute. repeat split. Qed.

(** The same values in the binary64 arithmetic of the kernel. *)
#[local] Set Warnings "-inexact-float".
Example fsub_agrees_with_binary64 :
  Q_of_float 256.1%float = Some (round64 (2561 # 10)) /\
  Q_of_float (256.1 - 236.1)%float = Some (fsub (2561 # 10) (2361 # 10)) /\
  Q_of_float (256.1 - 246.1)%float = Some (fsub (2561 # 10) (2461 # 10)) /\
  Q_of_float (1.1 - 16.1)%float = Some (fsub (11 # 10) (161 # 10)) /\
  Q_of_float 4.999999999999999%float = Some Samples.below_five /\
  Q_of_float (25 - 4.999999999999999)%float = Some (fsub 25 Samples.below_five) /\
  Q_of_float (300 - 270)%float = Some (fsub 300 270).
Proof. vm_compute. repeat split. Qed.

(** A drop from 256.1 to 236.1 is above 20 as floats and is flagged, with
    the float difference; a drop from 25.0 to 4.999999999999999 is 20.0 as
    floats and is not. *)
Example speed_drop_of_decimal_speeds :
  map (fun entry => (speed_analysis (analysis (snd entry)), anomalies (analysis (snd entry))))
      (_analyze_incident_telemetry Samples.no_car_data Samples.decimal_analyzer
         (Some 63) ["1"])
  = [(Some {| max_speed := 2252679422987469 # 8796093022208;
              min_speed := 8307030250173235 # 35184372088832;
              speed_variance := 703687441776641 # 35184372088832;
              incident_lap_speed := Some (8307030250173235 # 35184372088832) |},
      [SignificantSpeedDrop (703687441776641 # 35184372088832)])] /\
  map (fun entry => (speed_analysis (analysis (snd entry)), anomalies (analysis (snd entry))))
      (_analyze_incident_telemetry Samples.no_car_data Samples.threshold_analyzer
         (Some 63) ["44"])
  = [(Some {| max_speed := 25; min_speed := Samples.below_five; speed_variance := 20;
              incident_lap_speed := Some Samples.below_five |}, [])].
Proof. vm_compute. repeat split. Qed.

(** A gain from 246.1 to 256.1 is above 10 as floats and is flagged. *)
Example speed_change_of_decimal_speeds :
  option_map (fun vt => va_anomalies (vt_analysis vt))
             (_analyze_violation_telemetry Samples.decimal_analyzer "PIA" 10)
  = Some [SpeedChange (351843720888321 # 35184372088832)].
Proof. vm_compute. reflexivity. Qed.

(** The incident of the collision sample: VER's window holds two speeds, 300
    on lap 62 and 270 on lap 63, and the positions 1 and 4. *)
Lemma telemetry_patterns_witness :
  exists dt,
    In ("VER", dt)
       (_analyze_incident_telemetry Samples.no_car_data Samples.collision_analyzer
          (Some 63) ["1"; "44"]) /\
    In (SignificantSpeedDrop 30) (anomalies (analysis dt)) /\
    In (PositionDrop (4 - 1)) (anomalies (analysis dt)).
Proof.
  eexists. split; [left; reflexivity|].
  pose proof (telemetry_patterns_spec Samples.no_car_data Samples.collision_analyzer
                63 ["1"; "44"] "VER" _ (or_introl eq_refl)) as H.
  destruct H as [_ H]. split.
  - apply (proj2 (H _)).
    left. exists 300%Q, 270%Q.
    split; [reflexivity|]. split; [reflexivity|].
    split; [vm_compute; reflexivity | f_equal; vm_compute; reflexivity].
  - apply (proj2 (H _)).
    right. exists 1, 4. repeat split.
Defined.

(** The violation of the track-limits sample: PIA crosses the line at 280
    on lap 9 and at 300 on lap 10. *)
Lemma violation_speed_change_witness :
  exists vt,
    _analyze_violation_telemetry Samples.faster_analyzer "PIA" 10 = Some vt /\
    In (SpeedChange 20) (va_anomalies (vt_analysis vt)).
Proof.
  eexists. split; [reflexivity|].
  apply (proj2 (violation_speed_change_spec Samples.faster_analyzer "PIA" 10 _ eq_refl _)).
  exists 280%Q, 300%Q.
  split; [reflexivity|]. split; [reflexivity|].
  split; [vm_compute; reflexivity | f_equal; vm_compute; reflexivity].
Defined.

(** C6 fails as it is stated: PIA gains 20 km/h from lap 9 to lap 10, which
    is no speed drop above 10 km/h, and the anomaly is flagged. *)
Lemma violation_speed_gain_flagged :
  exists v vt,
    analyze_track_limits_violations Samples.faster_analyzer = [v] /\
    v_lap v = Some 10 /\ driver_abbreviation v = Some "PIA" /\
    v_telemetry_analysis v = Some vt /\
    value_on speed_fl (vt_lap_data vt) 9 = Some 280%Q /\
    value_on speed_fl (vt_lap_data vt) 10 = Some 300%Q /\
    va_anomalies (vt_analysis vt) = [SpeedChange 20] /\
    ~ (10 < fsub 280 300)%Q.
Proof.
  eexists. eexists. split; [vm_compute; reflexivity|].
  split; [reflexivity|]. split; [reflexivity|]. split; [reflexivity|].
  split; [reflexivity|]. split; [reflexivity|].
  split; [vm_compute; reflexivity|].
  intros H. vm_compute in H. discriminate H.
Qed.

(** * Further properties of the analyzer *)

(** ** What the patterns capture *)

Lemma str_app_assoc (a b c : string) : (a ++ b) ++ c = a ++ b ++ c.
Proof. induction a as [|x a IH]; simpl; [reflexivity | now rewrite IH]. Qed.

Lemma drop_app (a b : string) : drop (String.length a) (a ++ b) = b.
Proof. induction a as [|x a IH]; simpl; [now destruct b | exact IH]. Qed.

Lemma take_while_split (cls : ascii -> bool) (s : string) :
  exists rest,
    s = take_while cls s ++ rest /\ all_of cls (take_while cls s) = true /\ stops cls rest.
Proof.
  induction s as [|c s [rest [Hs [Hall Hstop]]]]; simpl.
  - exists EmptyString. repeat split.
  - destruct (cls c) eqn:E.
    + exists rest. simpl. rewrite E, Hall. repeat split; [now rewrite <- Hs | exact Hstop].
    + exists (String c s). repeat split. exact E.
Qed.

Lemma match_at_sound (lit : string) (cls : ascii -> bool) (s g : string) :
  match_at lit cls s = Some g ->
  exists post, s = lit ++ g ++ post /\ g <> EmptyString /\
               all_of cls g = true /\ stops cls post.
Proof.
  unfold match_at. destruct (starts_with lit s) eqn:E; [|discriminate].
  apply starts_with_spec in E. destruct E as [tail ->]. rewrite drop_app.
  destruct (take_while_split cls tail) as [rest [Ht [Hall Hstop]]].
  destruct (take_while cls tail) as [|c run] eqn:Er; [discriminate|].
  intros H. injection H as <-. exists rest. repeat split; try assumption.
  - now rewrite <- Ht.
  - discriminate.
Qed.

Lemma match_at_complete (lit : string) (cls : ascii -> bool) (c : ascii) (rest : string) :
  cls c = true -> match_at lit cls (lit ++ String c rest) <> None.
Proof.
  intros Hc. unfold match_at.
  assert (E : starts_with lit (lit ++ String c rest) = true)
    by (apply starts_with_spec; now eexists).
  rewrite E, drop_app. simpl. rewrite Hc. discriminate.
Qed.

Lemma re_search_sound (lit : string) (cls : ascii -> bool) (s g : string) :
  re_search lit cls s = Some g -> captured_after lit cls s g.
Proof.
  unfold captured_after. induction s as [|c s IH]; simpl.
  - destruct (match_at lit cls EmptyString) as [g'|] eqn:E; [|discriminate].
    intros H. injection H as ->. apply match_at_sound in E.
    destruct E as [post H]. now exists EmptyString, post.
  - destruct (match_at lit cls (String c s)) as [g'|] eqn:E.
    + intros H. injection H as ->. apply match_at_sound in E.
      destruct E as [post H]. now exists EmptyString, post.
    + intros H. destruct (IH H) as [pre [post [Hs Hrest]]].
      exists (String c pre), post. simpl. now rewrite <- Hs.
Qed.

Lemma re_search_none (lit : string) (cls : ascii -> bool) (s : string) :
  re_search lit cls s = None <-> no_match lit cls s.
Proof.
  unfold no_match. split.
  - induction s as [|a s IH]; simpl.
    + destruct (match_at lit cls EmptyString) eqn:E; [discriminate|].
      intros _ pre c rest Hs. destruct pre; [|discriminate]. simpl in Hs.
      destruct (cls c) eqn:Hc; [|reflexivity].
      rewrite Hs in E. now apply match_at_complete in E.
    + destruct (match_at lit cls (String a s)) eqn:E; [discriminate|].
      intros H pre c rest Hs. destruct pre as [|b pre]; simpl in Hs.
      * destruct (cls c) eqn:Hc; [|reflexivity].
        rewrite Hs in E. now apply match_at_complete in E.
      * injection Hs as _ Hs. now apply (IH H pre c rest).
  - intros Hno. destruct (re_search lit cls s) as [g|] eqn:E; [|reflexivity].
    apply re_search_sound in E. destruct E as [pre [post [Hs [Hg [Hall _]]]]].
    destruct g as [|c g]; [contradiction|]. simpl in Hall.
    apply andb_true_iff in Hall. destruct Hall as [Hc _].
    rewrite (Hno pre c (g ++ post) Hs) in Hc. discriminate.
Qed.

Lemma findall_from_sound (lit : string) (cls : ascii -> bool) (s g : string) (skip : nat) :
  In g (findall_from lit cls skip s) -> captured_after lit cls s g.
Proof.
  unfold captured_after. revert skip. induction s as [|c s IH]; intros skip; simpl.
  - contradiction.
  - assert (Hlift : forall k, In g (findall_from lit cls k s) ->
              exists pre post, String c s = pre ++ lit ++ g ++ post /\
                g <> EmptyString /\ all_of cls g = true /\ stops cls post).
    { intros k H. destruct (IH k H) as [pre [post [Hs Hrest]]].
      exists (String c pre), post. simpl. now rewrite <- Hs. }
    destruct skip as [|k]; [|apply Hlift].
    destruct (match_at lit cls (String c s)) as [g'|] eqn:E; [|apply Hlift].
    intros [<-|H]; [|now apply Hlift in H].
    apply match_at_sound in E. destruct E as [post H]. now exists EmptyString, post.
Qed.

Lemma re_findall_head (lit : string) (cls : ascii -> bool) (s : string) :
  hd_error (re_findall lit cls s) = re_search lit cls s.
Proof.
  unfold re_findall. induction s as [|c s IH]; simpl.
  - destruct (match_at lit cls EmptyString) as [g|] eqn:E; [|reflexivity].
    apply match_at_sound in E. destruct E as [post [Hs [Hg _]]].
    destruct lit; [|discriminate]. destruct g; [contradiction | discriminate].
  - destruct (match_at lit cls (String c s)); [reflexivity | exact IH].
Qed.

Lemma captured_occurs (lit : string) (cls : ascii -> bool) (s g : string) :
  captured_after lit cls s g -> occurs_in lit s.
Proof. intros [pre [post [Hs _]]]. exists pre, (g ++ post). exact Hs. Qed.

Lemma incident_drivers_findall (message : string) :
  (if contains "CAR" message then re_findall "CAR " is_digit message else [])
  = re_findall "CAR " is_digit message.
Proof.
  destruct (contains "CAR" message) eqn:E; [reflexivity|].
  destruct (re_findall "CAR " is_digit message) as [|g gs] eqn:Ef; [reflexivity|].
  assert (H : In g (re_findall "CAR " is_digit message)) by (rewrite Ef; now left).
  apply findall_from_sound in H. destruct H as [pre [post [Hs _]]].
  assert (Hocc : occurs_in "CAR" message).
  { exists pre, (" " ++ g ++ post). exact Hs. }
  apply contains_spec in Hocc. congruence.
Qed.

Section CarNumbers.
Variable _get_car_telemetry_data : string -> Z -> option CarTelemetry.

Lemma analyze_track_limits_violations_In (self : F1RaceAnalyzer) (v : Violation) :
  In v (analyze_track_limits_violations self) ->
  exists messages m,
    race_control self = Some messages /\ In m messages /\
    Message m = Some (v_message v) /\ is_track_limits_message m = true /\
    v_lap v = Lap m /\ v_time v = Time m /\
    v_driver_number v = re_search "CAR " is_digit (v_message v) /\
    deleted_time v = re_search "TIME " is_time_char (v_message v) /\
    turn v = re_search "TURN " is_digit (v_message v).
Proof.
  unfold analyze_track_limits_violations.
  destruct (race_control self) as [messages|]; [|contradiction].
  rewrite in_flat_map. intros [m [Hm H]].
  destruct (Message m) as [text|] eqn:E; [|contradiction].
  destruct (str_contains_any track_limits_keywords (Some text)) eqn:Ek; [|contradiction].
  destruct H as [<-|[]]. exists messages, m. cbn.
  unfold is_track_limits_message. rewrite E. repeat split; auto.
Qed.

(** X1. Of every track-limits violation: the car number, the turn and the
    deleted time, when present, are what the patterns [CAR (\d+)],
    [TURN (\d+)] and [TIME ([0-9:\.]+)] capture in the message, a longest
    run of the class, not empty, right after the word; and a field is
    absent exactly when its pattern matches nowhere in the message. *)
Theorem violation_fields_captured :
  forall (self : F1RaceAnalyzer),
    Forall (fun v =>
              (forall n, v_driver_number v = Some n ->
                         captured_after "CAR " is_digit (v_message v) n) /\
              (forall t, turn v = Some t ->
                         captured_after "TURN " is_digit (v_message v) t) /\
              (forall t, deleted_time v = Some t ->
                         captured_after "TIME " is_time_char (v_message v) t) /\
              (v_driver_number v = None <-> no_match "CAR " is_digit (v_message v)) /\
              (turn v = None <-> no_match "TURN " is_digit (v_message v)) /\
              (deleted_time v = None <-> no_match "TIME " is_time_char (v_message v)))
           (analyze_track_limits_violations self).
Proof.
  intros self. apply Forall_forall. intros v Hv.
  apply analyze_track_limits_violations_In in Hv.
  destruct Hv as [ms [m [_ [_ [_ [_ [_ [_ [-> [-> ->]]]]]]]]]].
  repeat split; try (intros g; apply re_search_sound);
    try (apply (proj1 (re_search_none _ _ _)));
    try (apply (proj2 (re_search_none _ _ _))).
Qed.

(** X2. The drivers of an incident are the captures of [CAR (\d+)] in its
    message, whether or not the text holds CAR, each a run of digits right
    after "CAR "; and for a message that both scanners keep, the car number
    of the track-limits violation is the first driver of the incident, or
    absent when the incident has no driver. *)
Theorem incident_drivers_captured :
  forall (self : F1RaceAnalyzer),
    Forall (fun inc =>
              inc_drivers inc = re_findall "CAR " is_digit (inc_message inc) /\
              Forall (captured_after "CAR " is_digit (inc_message inc)) (inc_drivers inc) /\
              Forall (fun v => v_message v = inc_message inc ->
                               v_driver_number v = hd_error (inc_drivers inc))
                     (analyze_track_limits_violations self))
           (analyze_incidents _get_car_telemetry_data self).
Proof.
  intros self. apply Forall_forall. intros inc Hinc.
  apply analyze_incidents_In in Hinc.
  destruct Hinc as [ms [m [_ [_ [_ [_ [_ [Hd _]]]]]]]].
  rewrite incident_drivers_findall in Hd. split; [exact Hd|]. split.
  - rewrite Hd. apply Forall_forall. intros g Hg. now apply findall_from_sound in Hg.
  - apply Forall_forall. intros v Hv Hmsg.
    apply analyze_track_limits_violations_In in Hv.
    destruct Hv as [ms' [m' [_ [_ [_ [_ [_ [_ [Hn _]]]]]]]]].
    rewrite Hn, Hd, Hmsg. symmetry. apply re_findall_head.
Qed.

End CarNumbers.

Example off_track_message_numbers :
  map inc_drivers (analyze_incidents Samples.no_car_data Samples.off_track_analyzer)
  = [["4"; "16"]] /\
  map (fun v => (v_driver_number v, turn v, deleted_time v))
      (analyze_track_limits_violations Samples.off_track_analyzer)
  = [(Some "4", Some "9", Some "1:20.001")].
Proof. split; reflexivity. Qed.

(** ** The scanners of the race-control messages *)

Lemma flat_map_length_filter {A B : Type} (f : A -> list B) (p : A -> bool) (l : list A) :
  (forall x, List.length (f x) = if p x then 1%nat else 0%nat) ->
  List.length (flat_map f l) = List.length (filter p l).
Proof.
  intros Hf. induction l as [|x l IH]; [reflexivity|].
  simpl. rewrite length_app, Hf, IH. now destruct (p x).
Qed.

Lemma analyze_track_limits_violations_keys (self : F1RaceAnalyzer)
    (messages : list RaceControlMessage) :
  race_control self = Some messages ->
  map violation_key (analyze_track_limits_violations self)
  = map (fun m => (Time m, Lap m, Message m)) (filter is_track_limits_message messages).
Proof.
  unfold analyze_track_limits_violations. intros ->.
  induction messages as [|m ms IH]; [reflexivity|].
  cbn [flat_map filter]. rewrite map_app, IH. unfold is_track_limits_message at 2.
  destruct (Message m) as [text|] eqn:E.
  - destruct (str_contains_any track_limits_keywords (Some text)); [|reflexivity].
    cbn. unfold violation_key. cbn. now rewrite E.
  - reflexivity.
Qed.

Lemma analyze_yellow_flags_keys (self : F1RaceAnalyzer)
    (messages : list RaceControlMessage) :
  race_control self = Some messages ->
  map flag_key (analyze_yellow_flags self)
  = map (fun m => (Time m, Lap m, Message m, Sector m)) (filter is_yellow_message messages).
Proof.
  unfold analyze_yellow_flags. intros ->.
  induction messages as [|m ms IH]; [reflexivity|].
  cbn [flat_map filter]. rewrite map_app, IH. unfold is_yellow_message at 2.
  destruct (Message m) as [text|] eqn:E.
  - destruct (str_contains_any ["YELLOW"] (Some text)); [|reflexivity].
    cbn. unfold flag_key. cbn. now rewrite E.
  - reflexivity.
Qed.

(** X3. The track-limits scanner needs the race-control table only: with or
    without lap data it returns one violation per message that holds TRACK
    LIMITS or DELETED in any case of the letters, in the order of the
    messages. The telemetry of a violation is there exactly when the message
    has a lap other than 0 and a car number that the results resolve to a
    driver code that is not empty, and the lap data is loaded. *)
Theorem track_limits_violations_spec :
  forall (laps : option (list LapRecord)) (messages : list RaceControlMessage)
         (results : option (list ResultRow)),
    let self := {| lap_data := laps; race_control := Some messages;
                   session_results := results |} in
    map violation_key (analyze_track_limits_violations self)
    = map (fun m => (Time m, Lap m, Message m)) (filter is_track_limits_message messages) /\
    (forall m, is_track_limits_message m = true <->
               exists text kw, Message m = Some text /\
                               In kw ["TRACK LIMITS"; "DELETED"] /\ occurs_in_ci kw text) /\
    Forall (fun v =>
              v_telemetry_analysis v <> None <->
              exists L n abbrev,
                v_lap v = Some L /\ L <> 0 /\ v_driver_number v = Some n /\
                _get_driver_from_car_number self n = Some abbrev /\
                abbrev <> EmptyString /\ laps <> None)
           (analyze_track_limits_violations self).
Proof.
  intros laps messages results self. split; [|split].
  - now apply analyze_track_limits_violations_keys.
  - intros m. apply str_contains_any_spec.
  - apply Forall_forall. intros v Hv.
    unfold analyze_track_limits_violations in Hv. cbn [self race_control] in Hv.
    apply in_flat_map in Hv. destruct Hv as [m [_ Hv]].
    destruct (Message m) as [text|]; [|contradiction].
    destruct (str_contains_any track_limits_keywords (Some text)); [|contradiction].
    destruct Hv as [<-|[]]. cbn [v_telemetry_analysis v_lap v_driver_number].
    destruct (Lap m) as [L|].
    2:{ split; [congruence | intros [L [n [a [H _]]]]; discriminate]. }
    destruct (re_search "CAR " is_digit text) as [n|].
    2:{ destruct L; (split; [congruence | intros [L' [n [a [_ [_ [H _]]]]]]; discriminate]). }
    assert (HL : L = 0 \/ L <> 0) by lia. destruct HL as [->|HL].
    { split; [congruence | intros [L' [n' [a [H [H0 _]]]]]; injection H as <-; lia]. }
    assert (Hbody :
      match _get_driver_from_car_number self n with
      | None | Some EmptyString => None
      | Some driver_abbrev => _analyze_violation_telemetry self driver_abbrev L
      end <> None <->
      exists L' n' abbrev,
        Some L = Some L' /\ L' <> 0 /\ Some n = Some n' /\
        _get_driver_from_car_number self n' = Some abbrev /\
        abbrev <> EmptyString /\ laps <> None).
    { destruct (_get_driver_from_car_number self n) as [a|] eqn:Ea.
      2:{ split; [congruence|]. intros [L' [n' [a [_ [_ [Hn [H _]]]]]]].
          injection Hn as <-. congruence. }
      destruct a as [|c a].
      { split; [congruence|]. intros [L' [n' [a [_ [_ [Hn [H [Hne _]]]]]]]].
        injection Hn as <-. rewrite Ea in H. injection H as <-. contradiction. }
      unfold _analyze_violation_telemetry. cbn [self lap_data].
      destruct laps as [rows|].
      - split; [|discriminate]. intros _. exists L, n, (String c a).
        repeat split; try assumption; discriminate.
      - split; [congruence|]. intros [L' [n' [a' [_ [_ [_ [_ [_ H]]]]]]]]. congruence. }
    destruct L; [lia | exact Hbody | exact Hbody].
Qed.

(** ** The size and the content of the ranked list *)

Lemma filter_map_all {A B : Type} (p : B -> bool) (f : A -> B) (l : list A) :
  (forall x, p (f x) = true) -> filter p (map f l) = map f l.
Proof.
  intros H. induction l as [|x l IH]; [reflexivity|]. simpl. now rewrite H, IH.
Qed.

Lemma filter_map_none {A B : Type} (p : B -> bool) (f : A -> B) (l : list A) :
  (forall x, p (f x) = false) -> filter p (map f l) = [].
Proof.
  intros H. induction l as [|x l IH]; [reflexivity|]. simpl. now rewrite H, IH.
Qed.

Lemma firstn_incl {A : Type} (n : nat) (l : list A) (x : A) :
  In x (firstn n l) -> In x l.
Proof.
  intros H. rewrite <- (firstn_skipn n l). apply in_or_app. now left.
Qed.

Section RankedList.
Variable to_timedelta_seconds : option string -> option (option Q).
Variable _get_car_telemetry_data : string -> Z -> option CarTelemetry.

Lemma segments_of_type (self : F1RaceAnalyzer) (t : SegmentType) :
  filter (has_type t)
         (identify_commentary_segments to_timedelta_seconds _get_car_telemetry_data self)
  = match t with
    | TypeCollision =>
        map collision_segment
            (collisions_of (analyze_incidents _get_car_telemetry_data self))
    | TypePositionChange =>
        map position_change_segment_of
            (firstn 5 (analyze_position_changes to_timedelta_seconds self 5))
    | TypeTrackLimits => map track_limits_segment (analyze_track_limits_violations self)
    | TypeYellowFlag => map yellow_flag_segment (analyze_yellow_flags self)
    end.
Proof.
  rewrite identify_commentary_segments_appended. unfold segments_appended.
  rewrite !filter_app.
  destruct t;
    repeat (first [ rewrite filter_map_all by reflexivity
                  | rewrite filter_map_none by reflexivity ]);
    now rewrite ?app_nil_r.
Qed.

(** X4. With the race-control table loaded, the ranked list has one segment
    per collision incident, per reported position change up to five, per
    message of the track-limits filter and per message that holds YELLOW in
    any case: its length is the sum of the four counts, and the segments of
    each type are as many as their source. *)
Theorem ranked_list_counts :
  forall (laps : option (list LapRecord)) (messages : list RaceControlMessage)
         (results : option (list ResultRow)),
    let self := {| lap_data := laps; race_control := Some messages;
                   session_results := results |} in
    let segments :=
      identify_commentary_segments to_timedelta_seconds _get_car_telemetry_data self in
    let count t := List.length (filter (has_type t) segments) in
    count TypeCollision =
      List.length (collisions_of (analyze_incidents _get_car_telemetry_data self)) /\
    count TypePositionChange =
      Nat.min 5 (List.length (analyze_position_changes to_timedelta_seconds self 5)) /\
    count TypeTrackLimits = List.length (filter is_track_limits_message messages) /\
    count TypeYellowFlag = List.length (filter is_yellow_message messages) /\
    List.length segments =
      (count TypeCollision + count TypePositionChange
       + count TypeTrackLimits + count TypeYellowFlag)%nat.
Proof.
  intros laps messages results self segments count.
  assert (Hc : count TypeCollision =
               List.length (collisions_of (analyze_incidents _get_car_telemetry_data self))).
  { unfold count, segments. now rewrite segments_of_type, length_map. }
  assert (Hp : count TypePositionChange =
               Nat.min 5 (List.length
                            (analyze_position_changes to_timedelta_seconds self 5))).
  { unfold count, segments. now rewrite segments_of_type, length_map, length_firstn. }
  assert (Ht : count TypeTrackLimits = List.length (analyze_track_limits_violations self)).
  { unfold count, segments. now rewrite segments_of_type, length_map. }
  assert (Hy : count TypeYellowFlag = List.length (analyze_yellow_flags self)).
  { unfold count, segments. now rewrite segments_of_type, length_map. }
  assert (Ht' : List.length (analyze_track_limits_violations self) =
                List.length (filter is_track_limits_message messages)).
  { rewrite <- (length_map violation_key),
      (analyze_track_limits_violations_keys self messages eq_refl).
    apply length_map. }
  assert (Hy' : List.length (analyze_yellow_flags self) =
                List.length (filter is_yellow_message messages)).
  { rewrite <- (length_map flag_key), (analyze_yellow_flags_keys self messages eq_refl).
    apply length_map. }
  split; [exact Hc|]. split; [exact Hp|].
  split; [now rewrite Ht|]. split; [now rewrite Hy|].
  rewrite Hc, Hp, Ht, Hy. unfold segments.
  rewrite identify_commentary_segments_appended. unfold segments_appended.
  rewrite !length_app, !length_map, length_firstn. lia.
Qed.

(** X5. Every position-change segment of the ranked list stands for a record
    of the scan with [min_change = 5]: it carries that record's driver, lap
    and signed change, the change is the previous position minus the current
    one and is at least 5 in absolute value; and the list holds at most five
    such segments. *)
Theorem position_change_segments_spec :
  forall (self : F1RaceAnalyzer),
    let segments :=
      identify_commentary_segments to_timedelta_seconds _get_car_telemetry_data self in
    Forall (fun s =>
              seg_type s = TypePositionChange ->
              exists pc,
                In pc (analyze_position_changes to_timedelta_seconds self 5) /\
                s = position_change_segment_of pc /\
                seg_lap s = Some (pc_lap pc) /\
                detail s = PositionChangeDetail (pc_driver pc) (change pc) /\
                change pc = from_position pc - to_position pc /\
                5 <= Z.abs (change pc))
           segments /\
    (List.length (filter (has_type TypePositionChange) segments) <= 5)%nat.
Proof.
  intros self segments. split.
  - apply Forall_forall. intros s Hs Htype.
    assert (Hin : In s (filter (has_type TypePositionChange) segments)).
    { apply filter_In. split; [exact Hs|]. unfold has_type. now rewrite Htype. }
    unfold segments in Hin. rewrite segments_of_type in Hin.
    apply in_map_iff in Hin. destruct Hin as [pc [<- Hpc]].
    apply firstn_incl in Hpc. exists pc. split; [exact Hpc|].
    split; [reflexivity|]. split; [reflexivity|]. split; [reflexivity|].
    unfold analyze_position_changes in Hpc.
    destruct (lap_data self) as [laps|]; [|contradiction].
    apply py_sort_In in Hpc. apply found_sound in Hpc.
    destruct Hpc as [[prev [curr [l1 [l2 [_ Hr]]]]] Hm].
    split; [|exact Hm]. unfold reports in Hr. tauto.
  - unfold segments. rewrite segments_of_type, length_map, length_firstn. lia.
Qed.

End RankedList.

(** ** The threshold of the position-change scanner *)

Section SortFilter.
Context {A : Type} (key : A -> Z) (p : A -> bool).

Lemma insert_by_filter (x : A) (l : list A) :
  StronglySorted (key_le key) l ->
  filter p (insert_by key x l) =
  if p x then insert_by key x (filter p l) else filter p l.
Proof.
  induction 1 as [|y l Hs IH Hall]; simpl.
  - now destruct (p x).
  - destruct (key x <=? key y) eqn:E.
    + change (filter p (x :: y :: l)) with
        (if p x then x :: filter p (y :: l) else filter p (y :: l)).
      destruct (p x); [|reflexivity]. symmetry. apply insert_by_head.
      apply Z.leb_le in E. apply Forall_forall. intros z Hz.
      apply filter_In in Hz. destruct Hz as [[<-|Hz] _]; [exact E|].
      rewrite Forall_forall in Hall. specialize (Hall z Hz).
      unfold key_le in *. lia.
    + cbn [filter]. rewrite IH. destruct (p y), (p x); try reflexivity.
      simpl. now rewrite E.
Qed.

Lemma stable_sort_filter (l : list A) :
  filter p (stable_sort key l) = stable_sort key (filter p l).
Proof.
  induction l as [|x l IH]; [reflexivity|].
  cbn [stable_sort fold_right filter]. fold (stable_sort key l).
  rewrite insert_by_filter by apply stable_sort_sorted.
  rewrite IH. now destruct (p x).
Qed.

Lemma filter_flat_map {B : Type} (f : B -> list A) (l : list B) :
  filter p (flat_map f l) = flat_map (fun x => filter p (f x)) l.
Proof.
  induction l as [|x l IH]; [reflexivity|]. simpl. now rewrite filter_app, IH.
Qed.

Lemma filter_all (l : list A) : Forall (fun x => p x = true) l -> filter p l = l.
Proof.
  induction 1 as [|x l Hx _ IH]; [reflexivity|]. simpl. now rewrite Hx, IH.
Qed.

End SortFilter.

Lemma py_sort_filter {A : Type} (key : A -> Z) (reverse : bool) (p : A -> bool)
    (l : list A) :
  filter p (py_sort key reverse l) = py_sort key reverse (filter p l).
Proof. apply stable_sort_filter. Qed.

Section Threshold.
Variable to_timedelta_seconds : option string -> option (option Q).

Lemma position_change_of_threshold (m m' : Z) (driver : string)
    (pair : LapRecord * LapRecord) :
  m <= m' ->
  position_change_of to_timedelta_seconds m' driver pair =
  filter (fun pc => m' <=? Z.abs (change pc))
         (position_change_of to_timedelta_seconds m driver pair).
Proof.
  intros Hm. destruct pair as [prev curr]. unfold position_change_of.
  destruct (Position prev) as [a|]; [|reflexivity].
  destruct (Position curr) as [b|]; [|reflexivity].
  destruct (negb (a =? b)); simpl; [|reflexivity].
  destruct (m' <=? Z.abs (a - b)) eqn:E'.
  - apply Z.leb_le in E'. assert (E : (m <=? Z.abs (a - b)) = true)
      by (apply Z.leb_le; lia).
    rewrite E. simpl. apply Z.leb_le in E'. now rewrite E'.
  - destruct (m <=? Z.abs (a - b)); [|reflexivity]. simpl. now rewrite E'.
Qed.

Lemma found_threshold (laps : list LapRecord) (m m' : Z) :
  m <= m' ->
  position_changes_found to_timedelta_seconds laps m' =
  filter (fun pc => m' <=? Z.abs (change pc))
         (position_changes_found to_timedelta_seconds laps m).
Proof.
  intros Hm. unfold position_changes_found. rewrite filter_flat_map.
  apply flat_map_ext. intros driver. rewrite filter_flat_map.
  apply flat_map_ext. intros pair. now apply position_change_of_threshold.
Qed.

Lemma found_moves (laps : list LapRecord) (m : Z) (pc : PositionChange) :
  In pc (position_changes_found to_timedelta_seconds laps m) ->
  from_position pc <> to_position pc /\ change pc = from_position pc - to_position pc.
Proof.
  unfold position_changes_found. rewrite in_flat_map.
  intros [driver [_ H]]. rewrite in_flat_map in H.
  destruct H as [[prev curr] [_ Hpc]]. unfold position_change_of in Hpc.
  destruct (Position prev) as [a|]; [|contradiction].
  destruct (Position curr) as [b|]; [|contradiction].
  destruct (a =? b) eqn:E; [contradiction|]. simpl in Hpc.
  destruct (m <=? Z.abs (a - b)); [|contradiction].
  destruct Hpc as [<-|[]]. cbn. apply Z.eqb_neq in E. split; [exact E | reflexivity].
Qed.

Lemma analyze_position_changes_moves (self : F1RaceAnalyzer) (m : Z) :
  Forall (fun pc => change pc <> 0 /\ from_position pc <> to_position pc)
         (analyze_position_changes to_timedelta_seconds self m).
Proof.
  apply Forall_forall. intros pc H. unfold analyze_position_changes in H.
  destruct (lap_data self) as [laps|]; [|contradiction].
  apply py_sort_In in H. apply found_moves in H. lia.
Qed.

Lemma analyze_position_changes_filter (self : F1RaceAnalyzer) (m m' : Z) :
  m <= m' ->
  analyze_position_changes to_timedelta_seconds self m' =
  filter (fun pc => m' <=? Z.abs (change pc))
         (analyze_position_changes to_timedelta_seconds self m).
Proof.
  intros Hm. unfold analyze_position_changes.
  destruct (lap_data self) as [laps|]; [|reflexivity].
  rewrite py_sort_filter. f_equal. now apply found_threshold.
Qed.

(** X6. The scanner never reports a pair of laps with one position, whatever
    [min_change] is, so a threshold of 1 or less gives the list of threshold
    1; and raising the threshold from [m] to [m'] only filters the list: the
    scan with [m'] is the scan with [m] without the records of
    [|change| < m'], in the same order. *)
Theorem position_changes_threshold :
  forall (self : F1RaceAnalyzer) (m : Z),
    let scan := analyze_position_changes to_timedelta_seconds self in
    Forall (fun pc => change pc <> 0 /\ from_position pc <> to_position pc) (scan m) /\
    (forall m', m <= m' ->
                scan m' = filter (fun pc => m' <=? Z.abs (change pc)) (scan m)) /\
    (m <= 1 -> scan m = scan 1).
Proof.
  intros self m scan.
  split; [apply analyze_position_changes_moves|].
  split; [intros m'; apply analyze_position_changes_filter|].
  intros Hm. unfold scan. rewrite (analyze_position_changes_filter self m 1 Hm).
  symmetry. apply filter_all.
  eapply Forall_impl; [|apply analyze_position_changes_moves].
  intros pc [H _]. apply Z.leb_le. lia.
Qed.

End Threshold.

Example zero_threshold_reports_moves_only :
  forall parse : option string -> option (option Q),
    map (fun pc => (pc_driver pc, pc_lap pc, change pc))
        (analyze_position_changes parse (Samples.analyzer_of Samples.pit_laps [] []) 0)
    = [("VER", 3, -3)].
Proof. reflexivity. Qed.

(** ** The statistics *)

Section StatisticsFacts.
Variable to_timedelta_seconds : option string -> option (option Q).
Variable _get_car_telemetry_data : string -> Z -> option CarTelemetry.

(** X7. Without lap data the statistics are empty. With lap data they raise
    exactly when the pit scanner raises, with its exception; otherwise the
    three counts of position changes are the lengths of the scans with
    [min_change] 1, 3 and 5, so the count of changes of three places or more
    is the length of the report's list of major position changes, and
    [major <= significant <= total]; the other counts are the lengths of the
    incident, track-limits and yellow-flag lists and the number of stops of
    all drivers. *)
Theorem generate_statistics_spec :
  forall (self : F1RaceAnalyzer),
    let statistics :=
      _generate_statistics to_timedelta_seconds _get_car_telemetry_data self in
    let scan := analyze_position_changes to_timedelta_seconds self in
    (lap_data self = None -> statistics = Ok None) /\
    (forall e, statistics = Raise e <->
               lap_data self <> None /\ analyze_pit_stop_strategies self = Raise e) /\
    (forall st, statistics = Ok (Some st) ->
       total_position_changes st = List.length (scan 1) /\
       significant_changes_3plus st = List.length (scan 3) /\
       major_changes_5plus st = List.length (scan 5) /\
       (major_changes_5plus st <= significant_changes_3plus st
        <= total_position_changes st)%nat /\
       total_incidents st =
         List.length (analyze_incidents _get_car_telemetry_data self) /\
       track_limits_violations st = List.length (analyze_track_limits_violations self) /\
       yellow_flag_periods st = List.length (analyze_yellow_flags self) /\
       exists strategies,
         analyze_pit_stop_strategies self = Ok strategies /\
         total_pit_stops st = List.length (List.concat (map snd strategies))).
Proof.
  intros self statistics scan. unfold statistics, _generate_statistics.
  destruct (lap_data self) as [laps|] eqn:El.
  2:{ split; [reflexivity|]. split.
      - intros e. split; [discriminate | intros [H _]; congruence].
      - intros st H. discriminate. }
  split; [discriminate|].
  destruct (analyze_pit_stop_strategies self) as [strategies|e'] eqn:Ep; cbn [bind].
  2:{ split.
      - intros e. split.
        + intros H. injection H as ->. split; [discriminate | reflexivity].
        + intros [_ H]. injection H as ->. reflexivity.
      - intros st H. discriminate. }
  split.
  { intros e. split; [discriminate | intros [_ H]; discriminate]. }
  intros st H. injection H as <-. cbn.
  assert (H3 : scan 3 = filter (fun pc => 3 <=? Z.abs (change pc)) (scan 1))
    by (apply analyze_position_changes_filter; lia).
  assert (H5 : scan 5 = filter (fun pc => 5 <=? Z.abs (change pc)) (scan 1))
    by (apply analyze_position_changes_filter; lia).
  assert (H53 : scan 5 = filter (fun pc => 5 <=? Z.abs (change pc)) (scan 3))
    by (apply analyze_position_changes_filter; lia).
  fold (scan 1). rewrite <- H3, <- H5.
  split; [reflexivity|]. split; [reflexivity|]. split; [reflexivity|].
  split.
  { split.
    - rewrite H53. apply filter_length_le.
    - rewrite H3. apply filter_length_le. }
  split; [reflexivity|]. split; [reflexivity|]. split; [reflexivity|].
  exists strategies. split; [reflexivity|]. now rewrite flat_map_concat_map.
Qed.

End StatisticsFacts.

Example statistics_of_tied_laps :
  forall parse : option string -> option (option Q),
    _generate_statistics parse Samples.no_car_data
      (Samples.analyzer_of Samples.tied_laps [] [])
    = Ok (Some {| total_position_changes := 3; significant_changes_3plus := 3;
                  major_changes_5plus := 3; total_incidents := 0;
                  track_limits_violations := 0; yellow_flag_periods := 0;
                  total_pit_stops := 0 |}).
Proof. reflexivity. Qed.

Example statistics_abort_on_missing_lap :
  forall parse : option string -> option (option Q),
    _generate_statistics parse Samples.no_car_data
      (Samples.analyzer_of Samples.gap_laps [] [])
    = Raise IndexError.
Proof. reflexivity. Qed.

(** ** The thresholds of the lap comparison *)

Section Comparison.
Variable to_timedelta_seconds : option string -> option (option Q).

Lemma all_speed_fields (f : SpeedField) : In f speed_fields.
Proof. destruct f; simpl; tauto. Qed.

Lemma all_sector_fields (f : SectorField) : In f sector_fields.
Proof. destruct f; simpl; tauto. Qed.

Lemma lap_time_anomaly_In (prev curr : LapRecord) (x : Anomaly) :
  In x (match lap_time_delta to_timedelta_seconds prev curr with
        | Some (Some time_diff) =>
            if Qabs_gt time_diff 2 then [SignificantLapTimeChange time_diff] else []
        | _ => []
        end) <->
  exists d, x = SignificantLapTimeChange d /\
            lap_time_delta to_timedelta_seconds prev curr = Some (Some d) /\
            (2 < Qabs d)%Q.
Proof.
  destruct (lap_time_delta to_timedelta_seconds prev curr) as [[t|]|].
  - destruct (Qabs_gt t 2) eqn:E.
    + apply Qabs_gt_iff in E. split.
      * intros [<-|[]]. now exists t.
      * intros [d [-> [H _]]]. injection H as ->. now left.
    + split; [contradiction|]. intros [d [_ [H Hlt]]]. injection H as ->.
      apply Qabs_gt_iff in Hlt. congruence.
  - split; [contradiction | intros [d [_ [H _]]]; discriminate].
  - split; [contradiction | intros [d [_ [H _]]]; discriminate].
Qed.

Lemma speed_anomaly_In (prev curr : LapRecord) (x : Anomaly) :
  In x (flat_map (fun f => match speed_delta prev curr f with
                           | Some d =>
                               if Qabs_gt d 15 then [SignificantSpeedFieldChange f d] else []
                           | None => []
                           end) speed_fields) <->
  exists f d, x = SignificantSpeedFieldChange f d /\
              speed_delta prev curr f = Some d /\ (15 < Qabs d)%Q.
Proof.
  rewrite in_flat_map. split.
  - intros [f [_ H]]. destruct (speed_delta prev curr f) as [d|] eqn:E; [|contradiction].
    destruct (Qabs_gt d 15) eqn:Eg; [|contradiction]. destruct H as [<-|[]].
    exists f, d. apply Qabs_gt_iff in Eg. now repeat split.
  - intros [f [d [-> [E Hlt]]]]. exists f. split; [apply all_speed_fields|].
    rewrite E. apply Qabs_gt_iff in Hlt. rewrite Hlt. now left.
Qed.

Lemma sector_anomaly_In (prev curr : LapRecord) (x : Anomaly) :
  In x (flat_map (fun f => match sector_delta to_timedelta_seconds prev curr f with
                           | Some (Some d) =>
                               if Qabs_gt d (1 # 2) then [SignificantSectorChange f d]
                               else []
                           | _ => []
                           end) sector_fields) <->
  exists f d, x = SignificantSectorChange f d /\
              sector_delta to_timedelta_seconds prev curr f = Some (Some d) /\
              (1 # 2 < Qabs d)%Q.
Proof.
  rewrite in_flat_map. split.
  - intros [f [_ H]].
    destruct (sector_delta to_timedelta_seconds prev curr f) as [[d|]|] eqn:E;
      try contradiction.
    destruct (Qabs_gt d (1 # 2)) eqn:Eg; [|contradiction]. destruct H as [<-|[]].
    exists f, d. apply Qabs_gt_iff in Eg. now repeat split.
  - intros [f [d [-> [E Hlt]]]]. exists f. split; [apply all_sector_fields|].
    rewrite E. apply Qabs_gt_iff in Hlt. rewrite Hlt. now left.
Qed.

Lemma speed_changes_In (prev curr : LapRecord) (f : SpeedField) (d : Q) :
  In (f, d) (speed_changes (_compare_lap_telemetry to_timedelta_seconds prev curr)) <->
  speed_delta prev curr f = Some d.
Proof.
  unfold _compare_lap_telemetry. cbn [speed_changes]. rewrite in_flat_map. split.
  - intros [f' [_ H]]. destruct (speed_delta prev curr f') as [d'|] eqn:E; [|contradiction].
    destruct H as [H|[]]. injection H as -> ->. exact E.
  - intros E. exists f. split; [apply all_speed_fields|]. rewrite E. now left.
Qed.

Lemma sector_changes_In (prev curr : LapRecord) (f : SectorField) (d : option Q) :
  In (f, d) (sector_changes (_compare_lap_telemetry to_timedelta_seconds prev curr)) <->
  sector_delta to_timedelta_seconds prev curr f = Some d.
Proof.
  unfold _compare_lap_telemetry. cbn [sector_changes]. rewrite in_flat_map. split.
  - intros [f' [_ H]].
    destruct (sector_delta to_timedelta_seconds prev curr f') as [d'|] eqn:E;
      [|contradiction].
    destruct H as [H|[]]. injection H as -> ->. exact E.
  - intros E. exists f. split; [apply all_sector_fields|]. rewrite E. now left.
Qed.

(** X8. In the comparison of two laps: a speed field has a change exactly
    when both laps hold the speed, and the change is the float difference of
    the current speed and the previous one; the lap-time change is a number
    exactly when both lap times are read as numbers of seconds, and is then
    the float difference of the current and the previous one; an anomaly is
    listed for a speed field exactly when the
    change is above 15 km/h in absolute value, for the lap time exactly when
    the change is a number above 2 s in absolute value, for a sector exactly
    when its change is a number above 0.5 s in absolute value; the anomaly
    list holds nothing else, and a change that is NaN raises no anomaly. *)
Theorem compare_lap_telemetry_thresholds :
  forall (prev curr : LapRecord),
    let comparison := _compare_lap_telemetry to_timedelta_seconds prev curr in
    (forall f d, In (f, d) (speed_changes comparison) <->
                 exists p c, speed_of f prev = Some p /\ speed_of f curr = Some c /\
                             d = fsub c p) /\
    (forall d, lap_time_change comparison = Some (Some d) <->
               exists p c,
                 total_seconds to_timedelta_seconds (LapTime prev) = Some (Some p) /\
                 total_seconds to_timedelta_seconds (LapTime curr) = Some (Some c) /\
                 d = fsub c p) /\
    (forall x, In x (cmp_anomalies comparison) <->
       (exists d, x = SignificantLapTimeChange d /\
                  lap_time_change comparison = Some (Some d) /\ (2 < Qabs d)%Q) \/
       (exists f d, x = SignificantSpeedFieldChange f d /\
                    In (f, d) (speed_changes comparison) /\ (15 < Qabs d)%Q) \/
       (exists f d, x = SignificantSectorChange f d /\
                    In (f, Some d) (sector_changes comparison) /\ (1 # 2 < Qabs d)%Q)).
Proof.
  intros prev curr comparison. split; [|split].
  - intros f d. unfold comparison. rewrite speed_changes_In. unfold speed_delta.
    destruct (speed_of f prev) as [p|], (speed_of f curr) as [c|].
    + split.
      * intros H. injection H as <-. exists p, c. repeat split.
      * intros [p' [c' [Hp [Hc ->]]]]. now injection Hp as <-; injection Hc as <-.
    + split; [discriminate | intros [p' [c' [_ [H _]]]]; discriminate].
    + split; [discriminate | intros [p' [c' [H _]]]; discriminate].
    + split; [discriminate | intros [p' [c' [H _]]]; discriminate].
  - intros d. unfold comparison, _compare_lap_telemetry. cbn [lap_time_change].
    unfold lap_time_delta.
    destruct (total_seconds to_timedelta_seconds (LapTime prev)) as [[p|]|];
      destruct (total_seconds to_timedelta_seconds (LapTime curr)) as [[c|]|];
      cbn [float_sub];
      try (split; [discriminate | intros [p' [c' [Hp [Hc _]]]]; discriminate]).
    split.
    + intros H. injection H as <-. exists p, c. repeat split.
    + intros [p' [c' [Hp [Hc ->]]]]. now injection Hp as <-; injection Hc as <-.
  - intros x.
    assert (Hs : forall f d, In (f, d) (speed_changes comparison) <->
                             speed_delta prev curr f = Some d)
      by (intros; apply speed_changes_In).
    assert (Hc : forall f d, In (f, d) (sector_changes comparison) <->
                             sector_delta to_timedelta_seconds prev curr f = Some d)
      by (intros; apply sector_changes_In).
    unfold comparison at 1. unfold _compare_lap_telemetry at 1. cbn [cmp_anomalies].
    rewrite !in_app_iff, lap_time_anomaly_In, speed_anomaly_In, sector_anomaly_In.
    change (lap_time_change comparison)
      with (lap_time_delta to_timedelta_seconds prev curr).
    split.
    + intros [H | [[f [d [Hx [Hd Hlt]]]] | [f [d [Hx [Hd Hlt]]]]]].
      * now left.
      * right; left. exists f, d. now rewrite Hs.
      * right; right. exists f, d. now rewrite Hc.
    + intros [H | [[f [d [Hx [Hd Hlt]]]] | [f [d [Hx [Hd Hlt]]]]]].
      * now left.
      * right; left. exists f, d. now rewrite <- Hs.
      * right; right. exists f, d. now rewrite <- Hc.
Qed.

End Comparison.

(** ** The pit-strategy scanner on the laps it survives *)

Lemma py_max_Z_upper (xs : list Z) (x v : Z) : In v (x :: xs) -> v <= py_max Z.ltb x xs.
Proof.
  revert x v. induction xs as [|y xs IH]; intros x v Hv.
  - destruct Hv as [<-|[]]. apply Z.le_refl.
  - change (py_max Z.ltb x (y :: xs)) with (py_max Z.ltb (if x <? y then y else x) xs).
    destruct Hv as [<-|[<-|Hv]].
    + etransitivity; [|apply IH; now left]. destruct (Z.ltb_spec x y); lia.
    + etransitivity; [|apply IH; now left]. destruct (Z.ltb_spec x y); lia.
    + apply IH. now right.
Qed.

Lemma py_min_Z_lower (xs : list Z) (x v : Z) : In v (x :: xs) -> py_min Z.ltb x xs <= v.
Proof.
  revert x v. induction xs as [|y xs IH]; intros x v Hv.
  - destruct Hv as [<-|[]]. apply Z.le_refl.
  - change (py_min Z.ltb x (y :: xs)) with (py_min Z.ltb (if y <? x then y else x) xs).
    destruct Hv as [<-|[<-|Hv]].
    + etransitivity; [apply IH; now left|]. destruct (Z.ltb_spec y x); lia.
    + etransitivity; [apply IH; now left|]. destruct (Z.ltb_spec y x); lia.
    + apply IH. now right.
Qed.

Lemma last_lap_test (driver_laps : list LapRecord) (n : Z) :
  (n <? match map LapNumber driver_laps with
        | k :: ks => py_max Z.ltb k ks
        | [] => n
        end) = true <-> has_later_lap driver_laps n.
Proof.
  unfold has_later_lap. rewrite Z.ltb_lt.
  destruct (map LapNumber driver_laps) as [|k ks] eqn:E.
  - split; [lia|]. intros [r [Hr _]]. destruct driver_laps; [contradiction | discriminate].
  - split.
    + intros H. pose proof (py_max_In Z.ltb ks k) as Hin. rewrite <- E in Hin.
      apply in_map_iff in Hin. destruct Hin as [r [Hr Hin]]. exists r. split; [exact Hin | lia].
    + intros [r [Hr Hlt]]. apply (in_map LapNumber) in Hr. rewrite E in Hr.
      apply py_max_Z_upper in Hr. lia.
Qed.

Lemma position_on_lap_first (driver_laps : list LapRecord) (n : Z) :
  position_on_lap driver_laps n =
  match first_on driver_laps n with
  | Some r => Ok (Position r)
  | None => Raise IndexError
  end.
Proof.
  unfold position_on_lap, first_on.
  now destruct (filter (fun r => LapNumber r =? n) driver_laps).
Qed.

(** X9. The report of one stop. It is produced exactly when each neighbour
    lap the code looks up has a row with a position: the lap before is
    looked up when the stop is after lap 1, the lap after when the driver
    has a later lap; otherwise an exception is raised. In the report, the position before (after) is that of the
    first row of the neighbour lap, and is absent when the lap is not looked
    up or the position is 0; the change is the position after minus the
    position before when both are reported, and absent otherwise. *)
Theorem pit_stop_of_spec :
  forall (driver_laps : list LapRecord) (pit : LapRecord),
    let lap := LapNumber pit in
    ((exists stop, pit_stop_of driver_laps pit = Ok stop) <->
     (lap <= 1 \/ exists r p, first_on driver_laps (lap - 1) = Some r /\ Position r = Some p) /\
     (~ has_later_lap driver_laps lap \/
      exists r p, first_on driver_laps (lap + 1) = Some r /\ Position r = Some p)) /\
    (forall stop, pit_stop_of driver_laps pit = Ok stop ->
       ps_lap stop = lap /\ ps_compound stop = Compound pit /\
       ps_tyre_life stop = TyreLife pit /\
       (forall b, position_before stop = Some b <->
                  1 < lap /\ b <> 0 /\
                  exists r, first_on driver_laps (lap - 1) = Some r /\ Position r = Some b) /\
       (forall a, position_after stop = Some a <->
                  has_later_lap driver_laps lap /\ a <> 0 /\
                  exists r, first_on driver_laps (lap + 1) = Some r /\ Position r = Some a) /\
       ps_position_change stop =
         match position_before stop, position_after stop with
         | Some b, Some a => Some (a - b)
         | _, _ => None
         end).
Proof.
  intros driver_laps pit lap. unfold pit_stop_of. fold lap.
  rewrite !position_on_lap_first.
  pose proof (last_lap_test driver_laps lap) as Hlast.
  set (last := match map LapNumber driver_laps with
               | k :: ks => py_max Z.ltb k ks
               | [] => lap
               end) in *.
  destruct (Z.ltb_spec 1 lap) as [Hb|Hb];
  destruct (lap <? last) eqn:Ea;
  destruct (first_on driver_laps (lap - 1)) as [rb|] eqn:Erb;
  destruct (first_on driver_laps (lap + 1)) as [ra|] eqn:Era;
  try destruct (Position rb) as [pb|] eqn:Epb;
  try destruct (Position ra) as [pa|] eqn:Epa;
  cbn;
  try destruct (Z.eqb_spec pb 0);
  try destruct (Z.eqb_spec pa 0);
  cbn.

  all: pose proof (iff_sym Hlast) as Hl.
  all: split;
    [ split;
      [ intros [stop H];
        first
          [ discriminate H
          | split;
            [ first [ left; lia
                    | right; eexists; eexists; split; [reflexivity | eassumption] ]
            | first [ left; intros Hx; apply Hl in Hx; discriminate
                    | right; eexists; eexists; split; [reflexivity | eassumption] ] ] ]
      | intros [H1 H2];
        first
          [ eexists; reflexivity
          | exfalso;
            destruct H1 as [H1|[r1 [p1 [H1 H1']]]];
            destruct H2 as [H2|[r2 [p2 [H2 H2']]]];
            try lia; try discriminate; try (apply H2, Hl; reflexivity);
            try (injection H1 as <-; congruence);
            try (injection H2 as <-; congruence) ] ]
    | intros stop H;
      first
        [ discriminate H
        | injection H as <-; cbn;
          split; [reflexivity|]; split; [reflexivity|]; split; [reflexivity|];
          split; [|split];
          [ intros b; split;
            [ intros Hx;
              first
                [ discriminate Hx
                | injection Hx as <-;
                  split; [lia|]; split; [assumption|];
                  eexists; split; [reflexivity | assumption] ]
            | intros [Hx [Hne [r [Hr Hp]]]]; try lia; try discriminate Hr;
              try (injection Hr as <-; congruence) ]
          | intros a; split;
            [ intros Hx;
              first
                [ discriminate Hx
                | injection Hx as <-;
                  split; [apply Hl; reflexivity|]; split; [assumption|];
                  eexists; split; [reflexivity | assumption] ]
            | intros [Hx [Hne [r [Hr Hp]]]]; try (apply Hl in Hx; discriminate Hx);
              try discriminate Hr; try (injection Hr as <-; congruence) ]
          | reflexivity ] ] ].
Qed.

Section MapM.
Context {A B : Type} (f : A -> result B).

Lemma mapM_Ok (l : list A) (ys : list B) :
  mapM f l = Ok ys <-> Forall2 (fun x y => f x = Ok y) l ys.
Proof.
  revert ys. induction l as [|x l IH]; intros ys; simpl.
  - split.
    + intros H. injection H as <-. constructor.
    + intros H. inversion H. reflexivity.
  - destruct (f x) as [y|e] eqn:Ex; simpl.
    + destruct (mapM f l) as [ys'|e] eqn:El; simpl.
      * split.
        -- intros H. injection H as <-. constructor; [exact Ex | now apply IH].
        -- intros H. inversion H as [|? y' ? ys'' Hy Hys]; subst.
           apply IH in Hys. injection Hys as <-. congruence.
      * split; [discriminate|]. intros H. inversion H as [|? y' ? ys'' Hy Hys]; subst.
        apply IH in Hys. discriminate.
    + split; [discriminate|]. intros H. inversion H as [|? y' ? ys'' Hy Hys]; subst.
      congruence.
Qed.

Lemma mapM_total (l : list A) :
  (exists ys, mapM f l = Ok ys) <-> forall x, In x l -> exists y, f x = Ok y.
Proof.
  induction l as [|x l IH]; simpl.
  - split; [intros _ x [] | intros _; now eexists].
  - destruct (f x) as [y|e] eqn:Ex; simpl.
    + destruct (mapM f l) as [ys|e] eqn:El; simpl.
      * split; [|intros _; now eexists]. intros _ z [<-|Hz]; [eauto|].
        apply (proj1 IH); [now eexists | exact Hz].
      * split; [intros [ys H]; discriminate|]. intros H.
        assert (Hl : exists ys, Raise e = Ok ys)
          by (apply IH; intros z Hz; apply H; now right).
        destruct Hl as [ys Hl]. discriminate.
    + split; [intros [ys H]; discriminate|]. intros H.
      destruct (H x (or_introl eq_refl)) as [y Hy]. congruence.
Qed.

Lemma Forall2_Ok_In (l : list A) (ys : list B) (y : B) :
  Forall2 (fun x y => f x = Ok y) l ys ->
  In y ys <-> exists x, In x l /\ f x = Ok y.
Proof.
  induction 1 as [|x y' l ys Hxy _ IH]; simpl.
  - split; [contradiction | intros [x [[] _]]].
  - rewrite IH. split.
    + intros [<-|[x' [Hin Hx']]]; [exists x; auto | exists x'; auto].
    + intros [x' [[<-|Hin] Hx']]; [left; congruence | right; now exists x'].
Qed.

End MapM.

Lemma unique_NoDup (l : list string) : NoDup (unique String.eqb l).
Proof.
  induction l as [|x l IH]; simpl; constructor.
  - rewrite filter_In, negb_true_iff, String.eqb_neq. tauto.
  - now apply NoDup_filter.
Qed.

Lemma NoDup_keys_filter {K V : Type} (p : K * V -> bool) (l : list (K * V)) :
  NoDup (map fst l) -> NoDup (map fst (filter p l)).
Proof.
  induction l as [|[k v] l IH]; simpl; [constructor|]. intros H.
  inversion H as [|? ? Hk Hnd]; subst. destruct (p (k, v)); simpl; [|now apply IH].
  constructor; [|now apply IH]. intros Hin. apply Hk.
  apply in_map_iff in Hin. destruct Hin as [[k' v'] [Hk' Hin]]. simpl in Hk'. subst k'.
  apply filter_In in Hin. apply in_map_iff. exists (k, v'). tauto.
Qed.

Lemma StronglySorted_filter {A : Type} (R : A -> A -> Prop) (p : A -> bool) (l : list A) :
  StronglySorted R l -> StronglySorted R (filter p l).
Proof.
  induction 1 as [|x l Hs IH Hall]; simpl; [constructor|].
  destruct (p x); [|exact IH]. constructor; [exact IH|].
  apply Forall_forall. intros y Hy. apply filter_In in Hy.
  rewrite Forall_forall in Hall. now apply Hall.
Qed.

Lemma StronglySorted_map {A B : Type} (R : B -> B -> Prop) (g : A -> B) (l : list A) :
  StronglySorted (fun a b => R (g a) (g b)) l -> StronglySorted R (map g l).
Proof.
  induction 1 as [|x l Hs IH Hall]; simpl; constructor; [exact IH|].
  apply Forall_forall. intros y Hy. apply in_map_iff in Hy. destruct Hy as [a [<- Ha]].
  rewrite Forall_forall in Hall. now apply Hall.
Qed.

Lemma pit_stop_of_lap (driver_laps : list LapRecord) (pit : LapRecord) (stop : PitStop) :
  pit_stop_of driver_laps pit = Ok stop -> ps_lap stop = LapNumber pit.
Proof.
  unfold pit_stop_of.
  destruct (if 1 <? LapNumber pit then _ else _) as [b|]; [|discriminate]. cbn [bind].
  destruct (if LapNumber pit <? _ then _ else _) as [a|]; [|discriminate]. cbn [bind].
  destruct (int_if_truthy b); [|discriminate]. cbn [bind].
  destruct (int_if_truthy a); [|discriminate]. cbn [bind].
  destruct (if truthy b && truthy a then _ else _); [|discriminate]. cbn [bind].
  intros H. now injection H as <-.
Qed.

Lemma driver_strategy_Ok (laps : list LapRecord) (driver d : string)
    (stops : list PitStop) :
  (driver_strategy <-
     mapM (pit_stop_of (driver_laps_of laps driver))
          (filter (fun r => is_some (PitInTime r)) (driver_laps_of laps driver)) ;;
   Ok (driver, driver_strategy)) = Ok (d, stops) <->
  driver = d /\
  mapM (pit_stop_of (driver_laps_of laps d)) (pit_in_laps laps d) = Ok stops.
Proof.
  unfold pit_in_laps.
  destruct (mapM _ (filter _ (driver_laps_of laps driver))) as [ds|e] eqn:E; cbn [bind].
  - split.
    + intros H. injection H as <- <-. now split.
    + intros [<- H]. rewrite E in H. now injection H as <-.
  - split; [discriminate|]. intros [<- H]. rewrite E in H. discriminate.
Qed.

Lemma analyze_pit_stop_strategies_unfold (laps : list LapRecord)
    (messages : option (list RaceControlMessage)) (results : option (list ResultRow)) :
  analyze_pit_stop_strategies
    {| lap_data := Some laps; race_control := messages; session_results := results |}
  = (per_driver <- mapM (driver_strategy_of laps) (unique String.eqb (map Driver laps)) ;;
     Ok (filter (fun ds => negb (Nat.eqb (List.length (snd ds)) 0)) per_driver)).
Proof. reflexivity. Qed.

Lemma driver_strategy_of_Ok (laps : list LapRecord) (driver d : string)
    (stops : list PitStop) :
  driver_strategy_of laps driver = Ok (d, stops) <->
  driver = d /\
  mapM (pit_stop_of (driver_laps_of laps d)) (pit_in_laps laps d) = Ok stops.
Proof. apply driver_strategy_Ok. Qed.

Lemma pit_in_laps_driver (laps : list LapRecord) (driver : string) :
  pit_in_laps laps driver <> [] -> In driver (map Driver laps).
Proof.
  unfold pit_in_laps.
  destruct (filter _ (driver_laps_of laps driver)) as [|r rs] eqn:E; [congruence|].
  intros _. assert (Hr : In r (r :: rs)) by now left.
  rewrite <- E in Hr. apply filter_In in Hr. destruct Hr as [Hr _].
  apply driver_laps_of_In in Hr. destruct Hr as [Hr <-]. now apply in_map.
Qed.

Lemma per_driver_keys (laps : list LapRecord) (drivers : list string)
    (pd : list (string * list PitStop)) :
  Forall2 (fun x y => driver_strategy_of laps x = Ok y) drivers pd -> map fst pd = drivers.
Proof.
  induction 1 as [|x [d stops] l ys Hxy _ IH]; [reflexivity|].
  simpl. apply driver_strategy_of_Ok in Hxy. destruct Hxy as [<- _]. now rewrite IH.
Qed.

Lemma stops_laps (driver_laps pits : list LapRecord) (stops : list PitStop) :
  Forall2 (fun x y => pit_stop_of driver_laps x = Ok y) pits stops ->
  map ps_lap stops = map LapNumber pits.
Proof.
  induction 1 as [|pit stop pits stops H _ IH]; [reflexivity|].
  simpl. apply pit_stop_of_lap in H. now rewrite H, IH.
Qed.

(** X10. When the pit scanner returns, its map has one entry for each driver
    with a pit-in row and none for the others: the keys are distinct, and a
    driver's entry is the list of the reports of the driver's pit-in rows,
    one per row, in ascending lap order, never empty. The scanner returns
    exactly when the report of every pit-in row is produced. *)
Theorem pit_stop_strategies_spec :
  forall (laps : list LapRecord) (messages : option (list RaceControlMessage))
         (results : option (list ResultRow)),
    let self := {| lap_data := Some laps; race_control := messages;
                   session_results := results |} in
    ((exists strategies, analyze_pit_stop_strategies self = Ok strategies) <->
     (forall driver pit,
         In pit (pit_in_laps laps driver) ->
         exists stop, pit_stop_of (driver_laps_of laps driver) pit = Ok stop)) /\
    (forall strategies, analyze_pit_stop_strategies self = Ok strategies ->
       NoDup (map fst strategies) /\
       (forall driver stops,
           In (driver, stops) strategies <->
           pit_in_laps laps driver <> [] /\
           mapM (pit_stop_of (driver_laps_of laps driver)) (pit_in_laps laps driver)
           = Ok stops) /\
       (forall driver stops,
           In (driver, stops) strategies ->
           map ps_lap stops = map LapNumber (pit_in_laps laps driver) /\
           StronglySorted Z.le (map ps_lap stops))).
Proof.
  intros laps messages results self. unfold self.
  rewrite analyze_pit_stop_strategies_unfold.
  set (drivers := unique String.eqb (map Driver laps)).
  split.
  - transitivity (exists pd, mapM (driver_strategy_of laps) drivers = Ok pd).
    { destruct (mapM (driver_strategy_of laps) drivers) as [pd|e]; cbn [bind].
      - split; intros _; now eexists.
      - split; intros [x H]; discriminate. }
    rewrite mapM_total. split.
    + intros H driver pit Hpit.
      assert (Hd : In driver drivers).
      { apply unique_In. apply pit_in_laps_driver. intros E. now rewrite E in Hpit. }
      destruct (H driver Hd) as [[d stops] Hy].
      apply driver_strategy_of_Ok in Hy. destruct Hy as [<- Hy].
      assert (Hs : exists ys,
                 mapM (pit_stop_of (driver_laps_of laps driver))
                      (pit_in_laps laps driver) = Ok ys) by (eexists; exact Hy).
      rewrite mapM_total in Hs. now apply Hs.
    + intros H driver _.
      assert (Hs : exists ys,
                 mapM (pit_stop_of (driver_laps_of laps driver))
                      (pit_in_laps laps driver) = Ok ys).
      { apply mapM_total. intros pit Hpit. now apply H. }
      destruct Hs as [stops Hs]. exists (driver, stops).
      apply driver_strategy_of_Ok. now split.
  - intros strategies H.
    destruct (mapM (driver_strategy_of laps) drivers) as [pd|e] eqn:E; [|discriminate].
    cbn [bind] in H. injection H as <-. apply mapM_Ok in E.
    assert (Hin : forall driver stops,
               In (driver, stops) pd <->
               In driver drivers /\
               mapM (pit_stop_of (driver_laps_of laps driver)) (pit_in_laps laps driver)
               = Ok stops).
    { intros driver stops. rewrite (Forall2_Ok_In _ _ _ _ E). split.
      - intros [x [Hx Hy]]. apply driver_strategy_of_Ok in Hy.
        destruct Hy as [<- Hy]. now split.
      - intros [Hd Hy]. exists driver. split; [exact Hd|].
        apply driver_strategy_of_Ok. now split. }
    assert (Hlen : forall driver stops,
               mapM (pit_stop_of (driver_laps_of laps driver)) (pit_in_laps laps driver)
               = Ok stops ->
               negb (Nat.eqb (List.length stops) 0) = true <->
               pit_in_laps laps driver <> []).
    { intros driver stops Hs. apply mapM_Ok in Hs.
      destruct Hs as [|pit stop pits stops' _ _]; simpl.
      - split; [discriminate | congruence].
      - split; [discriminate | reflexivity]. }
    split; [|split].
    + apply NoDup_keys_filter. rewrite (per_driver_keys _ _ _ E). apply unique_NoDup.
    + intros driver stops. rewrite filter_In, Hin. cbn [snd]. split.
      * intros [[_ Hs] Hne]. split; [|exact Hs]. now apply (Hlen driver stops Hs).
      * intros [Hne Hs]. split; [split; [|exact Hs] | now apply (Hlen driver stops Hs)].
        apply unique_In. now apply pit_in_laps_driver.
    + intros driver stops Hds. apply filter_In in Hds. destruct Hds as [Hds _].
      apply Hin in Hds. destruct Hds as [_ Hs]. apply mapM_Ok in Hs.
      apply stops_laps in Hs. rewrite Hs. split; [reflexivity|].
      apply StronglySorted_map. unfold pit_in_laps. apply StronglySorted_filter.
      apply driver_laps_of_sorted.
Qed.

(** ** Which drivers the incident correlator reports *)

Section Resolution.
Variable _get_car_telemetry_data : string -> Z -> option CarTelemetry.

(** X11. The telemetry of an incident is keyed by driver codes, each once: a
    code is a key exactly when one of the incident's car numbers resolves to
    it in the results, it is not empty and the driver has a lap in the
    window; every entry names one of the incident's car numbers that
    resolves to its key. Car numbers that do not resolve are passed over,
    and an incident with no lap, lap 0 or no car number, or an analyzer
    without lap data or results, has no telemetry. *)
Theorem incident_telemetry_drivers :
  forall (self : F1RaceAnalyzer) (incident_lap : option Z) (drivers : list string),
    let telemetry :=
      _analyze_incident_telemetry _get_car_telemetry_data self incident_lap drivers in
    NoDup (map fst telemetry) /\
    (forall abbrev,
        In abbrev (map fst telemetry) <->
        exists laps L n,
          lap_data self = Some laps /\ incident_lap = Some L /\ L <> 0 /\ In n drivers /\
          resolves_in_window _get_car_telemetry_data self laps L n abbrev) /\
    Forall (fun entry =>
              In (driver_number (snd entry)) drivers /\
              _get_driver_from_car_number self (driver_number (snd entry))
              = Some (fst entry))
           telemetry /\
    (incident_lap = None \/ incident_lap = Some 0 \/ drivers = [] \/
     lap_data self = None \/ session_results self = None -> telemetry = []).
Proof.
  intros self incident_lap drivers telemetry.
  assert (Hempty : incident_lap = None \/ incident_lap = Some 0 \/ drivers = [] \/
                   lap_data self = None -> telemetry = []).
  { unfold telemetry, _analyze_incident_telemetry.
    intros [->|[->|[->|H]]]; try reflexivity.
    - now destruct incident_lap as [[| |]|].
    - rewrite H. now destruct incident_lap as [[| |]|], drivers. }
  destruct incident_lap as [L|].
  2:{ rewrite Hempty by now left. split; [constructor|]. split.
      - intros k. split; [contradiction | intros [l [L [n [_ [H _]]]]]; discriminate].
      - split; [constructor | reflexivity]. }
  assert (HL : L = 0 \/ L <> 0) by lia. destruct HL as [->|HL].
  { rewrite Hempty by (right; now left). split; [constructor|]. split.
    - intros k. split; [contradiction|].
      intros [l [L [n [_ [H [H0 _]]]]]]. injection H as <-. contradiction.
    - split; [constructor | reflexivity]. }
  destruct (lap_data self) as [laps|] eqn:El.
  2:{ rewrite Hempty by (right; right; now right). split; [constructor|]. split.
      - intros k. split; [contradiction | intros [l [L' [n [H _]]]]; discriminate].
      - split; [constructor | reflexivity]. }
  destruct drivers as [|n0 ds] eqn:Ed.
  { rewrite Hempty by (right; right; now left). split; [constructor|]. split.
    - intros k. split; [contradiction | intros [l [L' [n [_ [_ [_ [[] _]]]]]]]].
    - split; [constructor | reflexivity]. }
  rewrite <- Ed in *. clear Hempty.
  assert (Hfold : telemetry =
                  fold_left (telemetry_step _get_car_telemetry_data self laps L) drivers []).
  { unfold telemetry, _analyze_incident_telemetry. rewrite El, Ed.
    destruct L; [contradiction | reflexivity | reflexivity]. }
  clearbody telemetry.
  destruct (telemetry_fold _get_car_telemetry_data self laps L drivers [])
    as [Hnd [Hk Hg]].
  rewrite <- Hfold in *. split; [apply Hnd; constructor|]. split.
  - intros k. rewrite Hk. split.
    + intros [[]|[n [Hn Hr]]]. now exists laps, L, n.
    + intros [l [L' [n [Hl [HL' [_ [Hn Hr]]]]]]].
      injection Hl as <-. injection HL' as <-. right. now exists n.
  - split.
    + specialize (Hg (Forall_nil _)). eapply Forall_impl; [|exact Hg].
      intros e [[Hr _] [[]|Hin]]. now split.
    + intros [H|[H|[H|[H|H]]]]; try discriminate; try congruence.
      specialize (Hg (Forall_nil _)).
      destruct telemetry as [|e t]; [reflexivity|]. exfalso.
      inversion Hg as [|? ? [[Hr _] _] _]; subst.
      unfold _get_driver_from_car_number in Hr. rewrite H in Hr. discriminate.
Qed.

End Resolution.

(** ** The statistics of the two correlators *)

Lemma flat_map_length_le {A B : Type} (f : A -> list B) (l : list A) :
  (forall x, (List.length (f x) <= 1)%nat) ->
  (List.length (flat_map f l) <= List.length l)%nat.
Proof.
  intros Hf. induction l as [|x l IH]; [apply Nat.le_refl|].
  simpl. rewrite length_app. specialize (Hf x). lia.
Qed.

Lemma incident_lap_window_length (car : string -> Z -> option CarTelemetry)
    (laps : list LapRecord) (driver : string) (L : Z) :
  (List.length (incident_lap_window car laps driver L) <= 5)%nat.
Proof.
  unfold incident_lap_window.
  etransitivity; [apply flat_map_length_le|apply Nat.le_refl].
  intros n. destruct (n <=? 0); [simpl; lia|].
  destruct (find_lap laps driver n); simpl; lia.
Qed.

Lemma violation_lap_window_length (laps : list LapRecord) (driver : string) (L : Z) :
  (List.length (violation_lap_window laps driver L) <= 3)%nat.
Proof.
  unfold violation_lap_window.
  etransitivity; [apply flat_map_length_le|apply Nat.le_refl].
  intros n. destruct (n <=? 0); [simpl; lia|].
  destruct (find_lap laps driver n); simpl; lia.
Qed.

Lemma patterns_position_analysis (telemetry_data : list (Z * LapTelemetry)) (L : Z) :
  NoDup (dict_keys telemetry_data) ->
  (2 <= List.length (present position telemetry_data))%nat ->
  exists pa lo hi,
    position_analysis (_analyze_telemetry_patterns telemetry_data L) = Some pa /\
    In lo (dict_values (present position telemetry_data)) /\
    In hi (dict_values (present position telemetry_data)) /\
    (forall p, In p (dict_values (present position telemetry_data)) -> lo <= p <= hi) /\
    position_change pa = hi - lo /\
    position_range pa = str_of_int lo ++ " - " ++ str_of_int hi /\
    incident_lap_position pa = value_on position telemetry_data L.
Proof.
  intros Hnd Hlen. unfold _analyze_telemetry_patterns. cbn [position_analysis].
  apply Nat.leb_le in Hlen. rewrite Hlen.
  pose proof (dict_get_present position telemetry_data L Hnd) as Hget.
  destruct (dict_values (present position telemetry_data)) as [|v vs] eqn:Ev.
  - unfold dict_values in Ev. apply map_eq_nil in Ev. rewrite Ev in Hlen. discriminate.
  - eexists. exists (py_min Z.ltb v vs), (py_max Z.ltb v vs).
    split; [reflexivity|]. cbn.
    split; [apply py_min_In|]. split; [apply py_max_In|].
    split.
    { intros p Hp. split; [now apply py_min_Z_lower | now apply py_max_Z_upper]. }
    split; [reflexivity|]. split; [reflexivity | exact Hget].
Qed.

Lemma patterns_absent (telemetry_data : list (Z * LapTelemetry)) (L : Z) :
  ((List.length (present speed_fl telemetry_data) < 2)%nat ->
   speed_analysis (_analyze_telemetry_patterns telemetry_data L) = None) /\
  ((List.length (present position telemetry_data) < 2)%nat ->
   position_analysis (_analyze_telemetry_patterns telemetry_data L) = None).
Proof.
  unfold _analyze_telemetry_patterns. cbn [speed_analysis position_analysis].
  split; intros H; apply Nat.leb_gt in H; now rewrite H.
Qed.

Lemma patterns_anomalies_length (telemetry_data : list (Z * LapTelemetry)) (L : Z) :
  (List.length (anomalies (_analyze_telemetry_patterns telemetry_data L)) <= 2)%nat.
Proof.
  rewrite patterns_anomalies, length_app.
  assert (H1 : (List.length (speed_drop_check (present speed_fl telemetry_data) L) <= 1)%nat).
  { unfold speed_drop_check.
    destruct (dict_get Z.eqb L _) as [c|]; [|simpl; lia].
    destruct (dict_get Z.eqb (L - 1) _) as [p|]; [|simpl; lia].
    destruct (Qlt_bool 20 (fsub p c)); simpl; lia. }
  assert (H2 : (List.length (position_drop_check (present position telemetry_data) L)
                <= 1)%nat).
  { unfold position_drop_check.
    destruct (dict_get Z.eqb L _) as [c|]; [|simpl; lia].
    destruct (dict_get Z.eqb (L - 1) _) as [p|]; [|simpl; lia].
    destruct (0 <? c - p); simpl; lia. }
  lia.
Qed.

Lemma incident_telemetry_nonempty (car : string -> Z -> option CarTelemetry)
    (self : F1RaceAnalyzer) (L : Z) (drivers : list string)
    (abbrev : string) (dt : DriverTelemetry) :
  In (abbrev, dt) (_analyze_incident_telemetry car self (Some L) drivers) ->
  dt_lap_data dt <> [].
Proof.
  intros H.
  assert (Hcases : lap_data self = None \/ L = 0 \/ drivers = [] \/
                   exists laps, lap_data self = Some laps /\ L <> 0 /\ drivers <> []).
  { destruct (lap_data self) as [laps|]; [|now left].
    destruct (Z.eq_dec L 0); [right; now left|].
    destruct drivers; [right; right; now left|].
    right; right; right. exists laps. repeat split; [assumption | discriminate]. }
  destruct Hcases as [E|[->|[->|[laps [El [HL Hd]]]]]].
  - unfold _analyze_incident_telemetry in H. rewrite E in H.
    now destruct L, drivers.
  - contradiction.
  - unfold _analyze_incident_telemetry in H. now destruct L, (lap_data self).
  - assert (Hfold : _analyze_incident_telemetry car self (Some L) drivers =
                    fold_left (telemetry_step car self laps L) drivers []).
    { unfold _analyze_incident_telemetry. rewrite El.
      destruct L; [contradiction| |]; now destruct drivers. }
    rewrite Hfold in H. clear Hfold Hd.
    assert (Hinv : forall ds acc,
               (forall a d, In (a, d) acc -> dt_lap_data d <> []) ->
               forall a d, In (a, d) (fold_left (telemetry_step car self laps L) ds acc) ->
                           dt_lap_data d <> []).
    { induction ds as [|x ds IH]; intros acc Hacc a d; simpl; [apply Hacc|].
      apply IH. intros a' d' Hin. unfold telemetry_step in Hin.
      destruct (_get_driver_from_car_number self x) as [ab|]; [|now apply Hacc in Hin].
      destruct ab as [|c ab]; [now apply Hacc in Hin|].
      destruct (incident_lap_window car laps (String c ab) L) as [|e w] eqn:Ew;
        [now apply Hacc in Hin|].
      apply dict_set_In in Hin. destruct Hin as [Hin|Hin]; [|now apply Hacc in Hin].
      injection Hin as -> ->. cbn. discriminate. }
    eapply Hinv; [|exact H]. intros a d [].
Qed.

Section IncidentStatistics.
Variable _get_car_telemetry_data : string -> Z -> option CarTelemetry.

(** X13. Of every entry of an incident's telemetry on lap [L]: the window is
    not empty and has at most five laps; with fewer than two speeds the speed
    analysis is empty, and with fewer than two positions the position
    analysis is; with two positions or more the position analysis holds the
    least and the greatest position of the window as its range, their
    difference as the position change, and the position of lap [L]; and the
    entry lists at most two anomalies. *)
Theorem incident_statistics_spec :
  forall (self : F1RaceAnalyzer) (L : Z) (drivers : list string),
    Forall (fun entry =>
              let window := dt_lap_data (snd entry) in
              let found := analysis (snd entry) in
              let positions := dict_values (present position window) in
              (1 <= List.length window <= 5)%nat /\
              ((List.length (present speed_fl window) < 2)%nat ->
               speed_analysis found = None) /\
              ((List.length positions < 2)%nat -> position_analysis found = None) /\
              ((2 <= List.length positions)%nat ->
               exists pa lo hi,
                 position_analysis found = Some pa /\
                 In lo positions /\ In hi positions /\
                 (forall p, In p positions -> lo <= p <= hi) /\
                 position_change pa = hi - lo /\
                 position_range pa = str_of_int lo ++ " - " ++ str_of_int hi /\
                 incident_lap_position pa = value_on position window L) /\
              (List.length (anomalies found) <= 2)%nat)
           (_analyze_incident_telemetry _get_car_telemetry_data self (Some L) drivers).
Proof.
  intros self L drivers. apply Forall_forall. intros [abbrev dt] H.
  pose proof (incident_telemetry_nonempty _get_car_telemetry_data self L drivers abbrev dt H)
    as Hne.
  apply _analyze_incident_telemetry_entries in H.
  destruct H as [laps [L' [_ [HL [_ [Hw Ha]]]]]]. injection HL as <-.
  cbn [snd]. rewrite Ha.
  assert (Hnd : NoDup (dict_keys (dt_lap_data dt))).
  { rewrite Hw. apply incident_lap_window_NoDup. }
  split.
  { split; [|rewrite Hw; apply incident_lap_window_length].
    destruct (dt_lap_data dt); [contradiction | simpl; lia]. }
  split; [apply patterns_absent|]. split.
  { unfold dict_values. rewrite length_map. apply patterns_absent. }
  split; [|apply patterns_anomalies_length].
  intros Hlen. apply patterns_position_analysis; [exact Hnd|].
  unfold dict_values in Hlen. now rewrite length_map in Hlen.
Qed.

End IncidentStatistics.

Lemma violation_speed_analysis (telemetry_data : list (Z * LapTelemetry)) (L : Z) :
  NoDup (dict_keys telemetry_data) ->
  (2 <= List.length (present speed_fl telemetry_data))%nat ->
  exists sa,
    va_speed_analysis (violation_patterns telemetry_data L) = Some sa /\
    In (v_max_speed sa) (dict_values (present speed_fl telemetry_data)) /\
    (forall v, In v (dict_values (present speed_fl telemetry_data)) ->
               (v <= v_max_speed sa)%Q) /\
    In (v_min_speed sa) (dict_values (present speed_fl telemetry_data)) /\
    (forall v, In v (dict_values (present speed_fl telemetry_data)) ->
               (v_min_speed sa <= v)%Q) /\
    violation_lap_speed sa = value_on speed_fl telemetry_data L.
Proof.
  intros Hnd Hlen. unfold violation_patterns. cbn [va_speed_analysis].
  apply Nat.leb_le in Hlen. rewrite Hlen.
  pose proof (dict_get_present speed_fl telemetry_data L Hnd) as Hget.
  destruct (dict_values (present speed_fl telemetry_data)) as [|v vs] eqn:Ev.
  - unfold dict_values in Ev. apply map_eq_nil in Ev. rewrite Ev in Hlen. discriminate.
  - eexists. split; [reflexivity|]. cbn.
    split; [apply py_max_In|]. split; [apply py_max_upper|].
    split; [apply py_min_In|]. split; [apply py_min_lower | exact Hget].
Qed.

(** X12. The telemetry of a track-limits violation is missing only when no
    lap data is loaded. Otherwise its window has at most three laps; with
    two finish-line speeds or more the speed analysis holds the greatest and
    the least of them and the speed of the violation lap, and with fewer it
    is empty and no anomaly is listed; the sector times are those of the
    violation lap and are there exactly when that lap is in the window; at
    most one anomaly is listed. *)
Theorem violation_telemetry_spec :
  forall (self : F1RaceAnalyzer) (abbrev : string) (L : Z),
    match _analyze_violation_telemetry self abbrev L with
    | None => lap_data self = None
    | Some vt =>
        let window := vt_lap_data vt in
        let found := vt_analysis vt in
        let speeds := dict_values (present speed_fl window) in
        (List.length window <= 3)%nat /\
        ((List.length speeds < 2)%nat ->
         va_speed_analysis found = None /\ va_anomalies found = []) /\
        ((2 <= List.length speeds)%nat ->
         exists sa,
           va_speed_analysis found = Some sa /\
           In (v_max_speed sa) speeds /\ (forall v, In v speeds -> (v <= v_max_speed sa)%Q) /\
           In (v_min_speed sa) speeds /\ (forall v, In v speeds -> (v_min_speed sa <= v)%Q) /\
           violation_lap_speed sa = value_on speed_fl window L) /\
        (forall t, va_sector_analysis found = Some t <->
                   exists d, dict_get Z.eqb L window = Some d /\
                             t = {| sector1 := sector1_time d; sector2 := sector2_time d;
                                    sector3 := sector3_time d |}) /\
        (va_sector_analysis found <> None <-> In L (dict_keys window)) /\
        (List.length (va_anomalies found) <= 1)%nat
    end.
Proof.
  intros self abbrev L. unfold _analyze_violation_telemetry.
  destruct (lap_data self) as [laps|]; [|reflexivity].
  cbn [vt_lap_data vt_analysis].
  set (window := violation_lap_window laps abbrev L).
  assert (Hnd : NoDup (dict_keys window)) by apply violation_lap_window_NoDup.
  split; [apply violation_lap_window_length|]. split.
  { intros Hlen. unfold dict_values in Hlen. rewrite length_map in Hlen.
    unfold violation_patterns. cbn [va_speed_analysis va_anomalies].
    apply Nat.leb_gt in Hlen. now rewrite Hlen. }
  split.
  { intros Hlen. apply violation_speed_analysis; [exact Hnd|].
    unfold dict_values in Hlen. now rewrite length_map in Hlen. }
  assert (Hsec : forall t, va_sector_analysis (violation_patterns window L) = Some t <->
                   exists d, dict_get Z.eqb L window = Some d /\
                             t = {| sector1 := sector1_time d; sector2 := sector2_time d;
                                    sector3 := sector3_time d |}).
  { intros t. unfold violation_patterns. cbn [va_sector_analysis].
    destruct (dict_get Z.eqb L window) as [d|].
    - split.
      + intros H. injection H as <-. now exists d.
      + intros [d' [H ->]]. now injection H as <-.
    - split; [discriminate | intros [d' [H _]]; discriminate]. }
  split; [exact Hsec|]. split.
  - unfold violation_patterns. cbn [va_sector_analysis].
    destruct (dict_get Z.eqb L window) as [d|] eqn:Ed.
    + split; [intros _ | discriminate].
      destruct (in_dec Z.eq_dec L (dict_keys window)) as [H|H]; [exact H|].
      apply dict_get_absent in H. congruence.
    + split; [congruence|]. intros Hin. exfalso.
      apply dict_keys_In in Hin. destruct Hin as [v Hin].
      clear Hsec. revert Ed. clear -Hin. induction window as [|[k w] ws IH]; simpl.
      * contradiction.
      * destruct (Z.eqb_spec k L); [discriminate|].
        destruct Hin as [Hin|Hin]; [injection Hin as -> _; contradiction | now apply IH].
  - rewrite violation_patterns_check. unfold speed_change_check.
    destruct (dict_get Z.eqb L (present speed_fl window)) as [c|]; [|simpl; lia].
    destruct (dict_get Z.eqb (L - 1) (present speed_fl window)) as [p|]; [|simpl; lia].
    destruct (Qabs_gt (fsub c p) 10); simpl; lia.
Qed.

(** ** Incidents and their telemetry *)

Section IncidentTelemetry.
Variable _get_car_telemetry_data : string -> Z -> option CarTelemetry.

Lemma incident_of_message_telemetry (self : F1RaceAnalyzer) (m : RaceControlMessage)
    (inc : Incident) :
  In inc (incident_of_message _get_car_telemetry_data self m) ->
  telemetry_analysis inc =
  _analyze_incident_telemetry _get_car_telemetry_data self (inc_lap inc) (inc_drivers inc).
Proof.
  unfold incident_of_message.
  destruct (Message m) as [text|]; [|contradiction].
  destruct (str_contains_any incident_keywords (Some text)); [|contradiction].
  intros [<-|[]]. reflexivity.
Qed.

Lemma no_telemetry (self : F1RaceAnalyzer) (lap : option Z) (drivers : list string) :
  lap = None \/ lap = Some 0 \/ drivers = [] ->
  _analyze_incident_telemetry _get_car_telemetry_data self lap drivers = [].
Proof.
  unfold _analyze_incident_telemetry. intros [-> | [-> | ->]]; try reflexivity.
  now destruct lap as [[| |]|].
Qed.

(** X14. With the tables loaded no message of the incident filter is
    dropped: there are as many incidents as such messages. The telemetry of
    an incident is the correlator's result for its lap and its drivers, and
    it is empty when the incident has no lap, lap 0 or no driver: a message
    without a lap still gives its incident, with no lap and no telemetry. *)
Theorem incidents_retained :
  forall (laps : list LapRecord) (messages : list RaceControlMessage)
         (results : option (list ResultRow)),
    let self := {| lap_data := Some laps; race_control := Some messages;
                   session_results := results |} in
    let incidents := analyze_incidents _get_car_telemetry_data self in
    List.length incidents = List.length (filter is_incident_message messages) /\
    Forall (fun inc =>
              telemetry_analysis inc =
                _analyze_incident_telemetry _get_car_telemetry_data self
                  (inc_lap inc) (inc_drivers inc) /\
              (inc_lap inc = None \/ inc_lap inc = Some 0 \/ inc_drivers inc = [] ->
               telemetry_analysis inc = []))
           incidents /\
    (forall m text,
        In m messages -> Message m = Some text -> is_incident_message m = true ->
        Lap m = None ->
        exists inc, In inc incidents /\ inc_message inc = text /\
                    inc_lap inc = None /\ telemetry_analysis inc = []).
Proof.
  intros laps messages results self incidents.
  assert (Hatt : forall inc, In inc incidents ->
             telemetry_analysis inc =
             _analyze_incident_telemetry _get_car_telemetry_data self
               (inc_lap inc) (inc_drivers inc)).
  { intros inc H. unfold incidents, analyze_incidents in H.
    cbn [self race_control lap_data] in H. apply in_flat_map in H.
    destruct H as [m [_ H]]. now apply incident_of_message_telemetry in H. }
  split; [|split].
  - rewrite <- (length_map incident_key). unfold incidents, analyze_incidents.
    cbn [self race_control lap_data]. rewrite incident_of_message_keys. apply length_map.
  - apply Forall_forall. intros inc H. split; [now apply Hatt|].
    intros Hempty. rewrite (Hatt inc H). now apply no_telemetry.
  - intros m text Hm Htext Hk Hlap.
    destruct (analyze_incidents_complete _get_car_telemetry_data laps messages results
                m text Hm Htext Hk) as [inc [Hin [Hmsg Hl]]].
    exists inc. rewrite Hlap in Hl. repeat split; try assumption.
    rewrite (Hatt inc Hin). apply no_telemetry. now left.
Qed.

End IncidentTelemetry.

(** ** Further properties at the sample inputs *)

Example collision_telemetry_drivers :
  map (fun entry => (fst entry, driver_number (snd entry),
                     dict_keys (dt_lap_data (snd entry))))
      (_analyze_incident_telemetry Samples.no_car_data Samples.collision_analyzer
         (Some 63) ["1"; "7"; "44"])
  = [("VER", "1", [62; 63]); ("HAM", "44", [63])].
Proof. reflexivity. Qed.

Example unlapped_incident_kept :
  map (fun inc => (inc_lap inc, inc_drivers inc, telemetry_analysis inc))
      (analyze_incidents Samples.no_car_data Samples.unlapped_analyzer)
  = [(None, ["1"; "44"], [])].
Proof. reflexivity. Qed.

(** The comparison of the two laps of LEC, for a parser that reads the
    durations of the sample as pandas does: the text pandas writes for a
    duration gives its seconds, and letters without a number make it raise. *)
Section SampleDurations.
Variable parse : option string -> option (option Q).
Hypothesis parse_lap_20 : parse (Some "0 days 00:01:20") = Some (Some 80%Q).
Hypothesis parse_lap_21 : parse (Some "0 days 00:01:23") = Some (Some 83%Q).
Hypothesis parse_25 : parse (Some "0 days 00:00:25") = Some (Some 25%Q).
Hypothesis parse_28 : parse (Some "0 days 00:00:28") = Some (Some 28%Q).
Hypothesis parse_30 : parse (Some "0 days 00:00:30") = Some (Some 30%Q).
Hypothesis parse_92 : parse (Some "0 days 00:01:32") = Some (Some 92%Q).
Hypothesis parse_foo : parse (Some "foo") = None.

Example slower_lap_comparison :
  let comparison :=
    _compare_lap_telemetry parse
      (fst Samples.slower_lap_pair) (snd Samples.slower_lap_pair) in
  lap_time_change comparison = Some (Some 3%Q) /\
  speed_changes comparison = [(FSpeedI1, (-25)%Q); (FSpeedFL, (-5)%Q)] /\
  sector_changes comparison = [(FSector1Time, Some 3%Q); (FSector2Time, Some 0%Q)] /\
  cmp_anomalies comparison =
    [SignificantLapTimeChange 3; SignificantSpeedFieldChange FSpeedI1 (-25);
     SignificantSectorChange FSector1Time 3].
Proof.
  unfold _compare_lap_telemetry, lap_time_delta, sector_delta, total_seconds.
  cbn [fst snd Samples.slower_lap_pair LapTime sector_cell sector_fields flat_map
       Sector1Time Sector2Time Sector3Time lap_time_change speed_changes sector_changes
       cmp_anomalies].
  rewrite parse_lap_20, parse_lap_21, parse_25, parse_28, parse_30, parse_foo.
  repeat split.
Qed.

Example malformed_lap_time_left_out :
  exists pc,
    analyze_position_changes parse (Samples.analyzer_of Samples.malformed_laps [] []) 5
    = [pc] /\
    from_position pc = 5 /\ to_position pc = 12 /\ change pc = -7 /\
    lap_time_change (telemetry_comparison pc) = None /\
    cmp_anomalies (telemetry_comparison pc) = [].
Proof.
  eexists. split; [reflexivity|].
  cbn. unfold lap_time_delta, total_seconds. cbn. rewrite parse_92, parse_foo.
  repeat split.
Qed.

End SampleDurations.

(** A first-intermediate speed of 16.1 on one lap and 1.1 on the next: the
    float difference is below -15 and is flagged. *)
Example decimal_speed_comparison :
  forall parse : option string -> option (option Q),
    let comparison :=
      _compare_lap_telemetry parse
        {| Driver := "LEC"; LapNumber := 20; LapTime := None; Position := Some 2;
           Sector1Time := None; Sector2Time := None; Sector3Time := None;
           SpeedI1 := Some (161 # 10); SpeedI2 := None; SpeedFL := None; SpeedST := None;
           Compound := None; TyreLife := None; IsPersonalBest := false;
           TrackStatus := None; PitInTime := None |}
        {| Driver := "LEC"; LapNumber := 21; LapTime := None; Position := Some 2;
           Sector1Time := None; Sector2Time := None; Sector3Time := None;
           SpeedI1 := Some (11 # 10); SpeedI2 := None; SpeedFL := None; SpeedST := None;
           Compound := None; TyreLife := None; IsPersonalBest := false;
           TrackStatus := None; PitInTime := None |} in
    speed_changes comparison
    = [(FSpeedI1, (-8444249301319681 # 562949953421312)%Q)] /\
    cmp_anomalies comparison
    = [SignificantSpeedFieldChange FSpeedI1 (-8444249301319681 # 562949953421312)].
Proof. intros parse. vm_compute. repeat split. Qed.

Example violation_telemetry_of_faster_laps :
  option_map (fun vt => (dict_keys (vt_lap_data vt),
                         va_speed_analysis (vt_analysis vt),
                         va_anomalies (vt_analysis vt)))
             (_analyze_violation_telemetry Samples.faster_analyzer "PIA" 10)
  = Some ([9; 10],
          Some {| v_max_speed := 300; v_min_speed := 280;
                  violation_lap_speed := Some 300%Q |},
          [SpeedChange 20]).
Proof. reflexivity. Qed.

(** VER's two laps of the collision sample have no compound: the NaN is
    listed once among the compounds used. *)
Example collision_compounds_used :
  map (fun entry => option_map compounds_used (tire_analysis (analysis (snd entry))))
      (_analyze_incident_telemetry Samples.no_car_data Samples.collision_analyzer
         (Some 63) ["1"])
  = [Some [None]].
Proof. vm_compute. reflexivity. Qed.

Example collision_position_analysis :
  map (fun entry => position_analysis (analysis (snd entry)))
      (_analyze_incident_telemetry Samples.no_car_data Samples.collision_analyzer
         (Some 63) ["1"; "44"])
  = [Some {| position_range := "1 - 4"; position_change := 3;
             incident_lap_position := Some 4 |};
     None].
Proof. reflexivity. Qed.

(** ** The resolution of car numbers *)

Lemma int_of_digits_acc (s : string) (acc : Z) :
  (fix go (acc : Z) (s : string) : Z :=
     match s with
     | EmptyString => acc
     | String c s' => go (10 * acc + (Z.of_nat (nat_of_ascii c) - 48)) s'
     end) acc s
  = acc * 10 ^ Z.of_nat (String.length s) + int_of_digits s.
Proof.
  unfold int_of_digits. revert acc. induction s as [|c s IH]; intros acc.
  - simpl. lia.
  - cbn [String.length]. rewrite Nat2Z.inj_succ, Z.pow_succ_r by lia.
    rewrite IH. rewrite (IH (10 * 0 + (Z.of_nat (nat_of_ascii c) - 48))). ring.
Qed.

Lemma int_of_digits_cons (c : ascii) (s : string) :
  int_of_digits (String c s) =
  (Z.of_nat (nat_of_ascii c) - 48) * 10 ^ Z.of_nat (String.length s) + int_of_digits s.
Proof.
  unfold int_of_digits at 1. rewrite int_of_digits_acc. lia.
Qed.

Lemma int_of_digits_bounds (s : string) :
  all_of is_digit s = true -> 0 <= int_of_digits s < 10 ^ Z.of_nat (String.length s).
Proof.
  induction s as [|c s IH]; [intros _; cbn; lia|].
  cbn [all_of]. rewrite andb_true_iff. intros [Hc Hs]. specialize (IH Hs).
  rewrite int_of_digits_cons. cbn [String.length].
  rewrite Nat2Z.inj_succ, Z.pow_succ_r by lia.
  unfold is_digit in Hc. apply andb_true_iff in Hc. destruct Hc as [H1 H2].
  apply Nat.leb_le in H1, H2.
  assert (0 <= Z.of_nat (nat_of_ascii c) - 48 <= 9) by lia.
  assert (0 < 10 ^ Z.of_nat (String.length s)) by (apply Z.pow_pos_nonneg; lia).
  nia.
Qed.

(** X15. A car number is resolved by its value: the results are searched
    for the first row whose driver number is the number the digits spell,
    so leading zeros do not matter; the answer is that row's driver code,
    and there is none exactly when the results are not loaded or hold no
    row with the number. The number spelt by a run of digits is never
    negative. *)
Theorem car_number_resolution :
  forall (self : F1RaceAnalyzer) (car_number : string),
    (forall abbrev,
        _get_driver_from_car_number self car_number = Some abbrev <->
        exists results before r after,
          session_results self = Some results /\
          results = (before ++ r :: after)%list /\
          Forall (fun r' => DriverNumber r' <> int_of_digits car_number) before /\
          DriverNumber r = int_of_digits car_number /\ Abbreviation r = abbrev) /\
    (_get_driver_from_car_number self car_number = None <->
     session_results self = None \/
     exists results,
       session_results self = Some results /\
       Forall (fun r => DriverNumber r <> int_of_digits car_number) results) /\
    _get_driver_from_car_number self (String "0" car_number)
    = _get_driver_from_car_number self car_number /\
    (all_of is_digit car_number = true -> 0 <= int_of_digits car_number).
Proof.
  intros self car_number.
  assert (Hfind : forall (n : Z) (results : list ResultRow) (r : ResultRow),
             find (fun r => DriverNumber r =? n) results = Some r <->
             exists before after,
               results = (before ++ r :: after)%list /\
               Forall (fun r' => DriverNumber r' <> n) before /\ DriverNumber r = n).
  { intros n results r. induction results as [|x xs IH]; simpl.
    - split; [discriminate | intros [b [a [H _]]]; now destruct b].
    - destruct (Z.eqb_spec (DriverNumber x) n) as [E|E].
      + split.
        * intros H. injection H as <-. exists [], xs. repeat split; [constructor | exact E].
        * intros [b [a [Hs [Hb Hr]]]]. destruct b as [|y b]; simpl in Hs.
          -- now injection Hs as ->.
          -- injection Hs as -> _. inversion Hb; subst. contradiction.
      + rewrite IH. split.
        * intros [b [a [-> [Hb Hr]]]]. exists (x :: b), a.
          repeat split; [now constructor | exact Hr].
        * intros [b [a [Hs [Hb Hr]]]]. destruct b as [|y b]; simpl in Hs.
          -- injection Hs as -> _. contradiction.
          -- injection Hs as -> ->. inversion Hb; subst. now exists b, a. }
  assert (Hnone : forall (n : Z) (results : list ResultRow),
             find (fun r => DriverNumber r =? n) results = None <->
             Forall (fun r => DriverNumber r <> n) results).
  { intros n results. induction results as [|x xs IH]; simpl.
    - split; [constructor | reflexivity].
    - destruct (Z.eqb_spec (DriverNumber x) n) as [E|E].
      + split; [discriminate | intros H; inversion H; subst; contradiction].
      + rewrite IH. split; [now constructor | intros H; now inversion H]. }
  unfold _get_driver_from_car_number.
  split; [|split; [|split]].
  - intros abbrev. destruct (session_results self) as [results|].
    + destruct (find _ results) as [r|] eqn:E.
      * apply Hfind in E. destruct E as [b [a [Hs [Hb Hr]]]]. split.
        -- intros H. injection H as <-. now exists results, b, r, a.
        -- intros [res [b' [r' [a' [Hres [Hs' [Hb' [Hr' Ha']]]]]]]].
           injection Hres as <-.
           assert (E' : find (fun r => DriverNumber r =? int_of_digits car_number) results
                        = Some r') by (apply Hfind; now exists b', a').
           assert (E : find (fun r => DriverNumber r =? int_of_digits car_number) results
                       = Some r) by (apply Hfind; now exists b, a).
           congruence.
      * split; [discriminate|].
        intros [res [b' [r' [a' [Hres [Hs' [Hb' [Hr' Ha']]]]]]]]. injection Hres as <-.
        assert (E' : find (fun r => DriverNumber r =? int_of_digits car_number) results
                     = Some r') by (apply Hfind; now exists b', a').
        congruence.
    + split; [discriminate | intros [res [b [r [a [H _]]]]]; discriminate].
  - destruct (session_results self) as [results|].
    + destruct (find _ results) as [r|] eqn:E.
      * split; [discriminate|]. intros [H|[res [Hres Hall]]]; [discriminate|].
        injection Hres as <-. apply Hnone in Hall. congruence.
      * split; [|reflexivity]. intros _. right. exists results.
        split; [reflexivity | now apply Hnone].
    + split; [now left | reflexivity].
  - rewrite int_of_digits_cons. change (Z.of_nat (nat_of_ascii "0") - 48) with 0.
    now rewrite Z.mul_0_l, Z.add_0_l.
  - intros H. now apply int_of_digits_bounds.
Qed.

Example leading_zero_resolves :
  _get_driver_from_car_number Samples.collision_analyzer "044" = Some "HAM" /\
  _get_driver_from_car_number Samples.collision_analyzer "7" = None.
Proof. split; reflexivity. Qed.
